(** * terraform-provider-encryptedssm: the reconciliation engine

    A shallow embedding of [encryptedssm/util.go] and
    [encryptedssm/resource_encryptedssm_parameter.go]: the tag-set model,
    the decrypt-and-compare Read, the Put with its tier fallback, and
    Delete.  The remote services (SSM, KMS) are oracles that answer each
    call from the history of calls made so far; every call is appended to a
    log, so that statements about which remote calls an operation issues
    are statements about that log. *)

From Stdlib Require Import ZArith String Ascii NArith.
From stdpp Require Import gmap strings list fin_maps.

Local Open Scope string_scope.
Local Open Scope list_scope.
Local Open Scope nat_scope.
Set Warnings "-register-all,-clear-no-such-hyp".

(* ------------------------------------------------------------------ *)
(** ** Go strings and errors *)

(** [strings.HasPrefix(s, prefix)]. *)
Definition HasPrefix (s pre : string) : bool := String.prefix pre s.

(** [strings.Contains(s, substr)]. *)
Fixpoint Contains (s substr : string) : bool :=
  HasPrefix s substr ||
  match s with
  | EmptyString => false
  | String _ s' => Contains s' substr
  end.

(** The error values the engine tells apart: an [awserr.Error] with its code
    and message, the plugin SDK's [*resource.TimeoutError], a plain error
    ([errors.New], or [fmt.Errorf] formatting its cause with [%s]), and an
    error wrapping its cause ([fmt.Errorf] with [%w]). *)
Inductive error : Type :=
| AwsError (code message : string)
| TimeoutError (LastError : option error)
| ErrorString (text : string)
| WrapError (text : string) (cause : error).

(** [err.Error()]: the text of an error (the SDK's texts are abridged). *)
Definition Error (e : error) : string :=
  match e with
  | AwsError code message => code +:+ ": " +:+ message
  | TimeoutError _ => "timeout while waiting for state to become 'success'"
  | ErrorString text => text
  | WrapError text _ => text
  end.

(** util.go, [isAWSErr]: [err] is of type [awserr.Error], its code matches
    and its message contains [message]. *)
Definition isAWSErr (err : option error) (code message : string) : bool :=
  match err with
  | Some (AwsError c m) => bool_decide (c = code) && Contains m message
  | _ => false
  end.

(** util.go, [isResourceTimeoutError]. *)
Definition isResourceTimeoutError (err : option error) : bool :=
  match err with
  | Some (TimeoutError LastError) =>
      match LastError with None => true | Some _ => false end
  | _ => false
  end.

(* ------------------------------------------------------------------ *)
(** ** [encoding/base64]: [StdEncoding.DecodeString] *)

Module base64.

(** The value of a character of the standard alphabet. *)
Definition decodeMap (c : ascii) : option N :=
  let n := N_of_ascii c in
  if (65 <=? n)%N && (n <=? 90)%N then Some (n - 65)%N
  else if (97 <=? n)%N && (n <=? 122)%N then Some (n - 71)%N
  else if (48 <=? n)%N && (n <=? 57)%N then Some (n + 4)%N
  else if (n =? 43)%N then Some 62%N
  else if (n =? 47)%N then Some 63%N
  else None.

Definition padChar : ascii := "="%char.

Definition isNewline (c : ascii) : bool :=
  (N_of_ascii c =? 10)%N || (N_of_ascii c =? 13)%N.

Definition byte (n : N) : ascii := ascii_of_N (N.land n 255).

(** One quantum of four characters gives three bytes; a final quantum
    padded with one or two [=] gives two bytes or one.  Padding is
    mandatory, and nothing may follow it. *)
Fixpoint decodeQuanta (src : list ascii) : option (list ascii) :=
  match src with
  | [] => Some []
  | a :: b :: c :: d :: rest =>
      match decodeMap a, decodeMap b with
      | Some va, Some vb =>
          match decodeMap c, decodeMap d with
          | Some vc, Some vd =>
              let val := N.lor (N.lor (N.shiftl va 18) (N.shiftl vb 12))
                               (N.lor (N.shiftl vc 6) vd) in
              out ← decodeQuanta rest;
              Some (byte (N.shiftr val 16) :: byte (N.shiftr val 8)
                      :: byte val :: out)
          | Some vc, None =>
              if bool_decide (d = padChar) && bool_decide (rest = []) then
                let val := N.lor (N.lor (N.shiftl va 18) (N.shiftl vb 12))
                                 (N.shiftl vc 6) in
                Some [byte (N.shiftr val 16); byte (N.shiftr val 8)]
              else None
          | None, _ =>
              if bool_decide (c = padChar) && bool_decide (d = padChar)
                 && bool_decide (rest = []) then
                let val := N.lor (N.shiftl va 18) (N.shiftl vb 12) in
                Some [byte (N.shiftr val 16)]
              else None
          end
      | _, _ => None
      end
  | _ => None
  end.

(** Carriage returns and line feeds are skipped wherever they stand.  A
    failure is Go's [CorruptInputError] (its byte offset is not kept). *)
Definition DecodeString (s : string) : error + string :=
  match decodeQuanta
          (List.filter (λ c, negb (isNewline c)) (list_ascii_of_string s)) with
  | Some bytes => inr (string_of_list_ascii bytes)
  | None => inl (ErrorString "illegal base64 data")
  end.

End base64.

(* ------------------------------------------------------------------ *)
(** ** The tag-set model (util.go, and the types of the provider) *)

(** [TagData]: the secondary maps are Go maps with pointer values, so each
    may be nil ([None]) and so may each of its values; [Value] is a
    [*string]. *)
Record TagData : Type := {
  AdditionalBoolFields : option (gmap string (option bool));
  AdditionalStringFields : option (gmap string (option string));
  Value : option string
}.

#[global] Instance TagData_eq_dec : EqDecision TagData.
Proof. solve_decision. Defined.

(** [type KeyValueTags map[string]*TagData]: a key may be bound to nil. *)
Abbreviation KeyValueTags := (gmap string (option TagData)).

Record IgnoreConfig : Type := {
  Keys_ : KeyValueTags;
  KeyPrefixes : KeyValueTags
}.

Definition AwsTagKeyPrefix : string := "aws:".

(** [reflect.DeepEqual] at the types [Equal] uses it at (nil-able maps of
    pointers, and a string pointer): a nil map differs from an empty one,
    two non-nil maps are equal when they bind the same keys to deeply equal
    values, and pointers are compared through what they point to. *)
Definition DeepEqual {A : Type} `{EqDecision A} (x y : A) : bool :=
  bool_decide (x = y).

(** [func (td *TagData) Equal(other *TagData) bool]. *)
Definition Equal (td other : option TagData) : bool :=
  match td, other with
  | None, None => true
  | None, Some _ | Some _, None => false
  | Some td, Some other =>
      if negb (DeepEqual (AdditionalBoolFields td) (AdditionalBoolFields other))
      then false
      else if negb (DeepEqual (AdditionalStringFields td)
                              (AdditionalStringFields other))
      then false
      else if negb (DeepEqual (Value td) (Value other)) then false
      else true
  end.

(** A Go loop [for k, v := range m { if keep k v { result[k] = v } }] over a
    fresh [result]. *)
Definition rangeInto {A : Type} (keep : string → A → bool)
    (m : gmap string A) : gmap string A :=
  map_fold (λ k v result, if keep k v then <[k := v]> result else result) ∅ m.

(** [IgnoreAws] returns non-AWS tag keys. *)
Definition IgnoreAws (tags : KeyValueTags) : KeyValueTags :=
  rangeInto (λ k _, negb (HasPrefix k AwsTagKeyPrefix)) tags.

(** [IgnorePrefixes] returns non-matching tag key prefixes. *)
Definition IgnorePrefixes (tags ignoreTagPrefixes : KeyValueTags) : KeyValueTags :=
  rangeInto
    (λ k _,
       let ignore :=
         map_fold (λ ignoreTagPrefix _ ignore,
                     ignore || HasPrefix k ignoreTagPrefix)
                  false ignoreTagPrefixes in
       negb ignore)
    tags.

(** [Ignore] returns non-matching tag keys. *)
Definition Ignore (tags ignoreTags : KeyValueTags) : KeyValueTags :=
  rangeInto (λ k _, match ignoreTags !! k with Some _ => false | None => true end)
            tags.

(** [IgnoreConfig] returns any tags not removed by a given configuration. *)
Definition IgnoreConfig_ (tags : KeyValueTags) (config : option IgnoreConfig)
    : KeyValueTags :=
  match config with
  | None => tags
  | Some config =>
      let result := IgnorePrefixes tags (KeyPrefixes config) in
      Ignore result (Keys_ config)
  end.

(** [Map] returns tag keys mapped to their values. *)
Definition Map (tags : KeyValueTags) : gmap string string :=
  (λ v : option TagData,
     match v with
     | None => ""
     | Some td => match Value td with None => "" | Some s => s end
     end) <$> tags.

(** [Keys] returns tag keys (Go leaves the order of a map range open). *)
Definition Keys (tags : KeyValueTags) : list string :=
  (map_to_list tags).*1.

(** [Removed] returns tags removed. *)
Definition Removed (tags newTags : KeyValueTags) : KeyValueTags :=
  rangeInto (λ k _, match newTags !! k with Some _ => false | None => true end)
            tags.

(** [Updated] returns tags added and updated. *)
Definition Updated (tags newTags : KeyValueTags) : KeyValueTags :=
  rangeInto (λ k newV,
               match tags !! k with
               | None => true
               | Some oldV => negb (Equal oldV newV)
               end)
            newTags.

(** The shapes [New] accepts. *)
Inductive TagsInput : Type :=
| MapTagData (value : gmap string (option TagData))
| MapString (value : gmap string string)
| MapStringPtr (value : gmap string (option string))
| MapInterface (value : gmap string string)
| SliceString (value : list string)
| SliceInterface (value : list string)
| OtherInput.

Definition valueTag (str : string) : option TagData :=
  Some {| AdditionalBoolFields := None; AdditionalStringFields := None;
          Value := Some str |}.

(** [New] creates KeyValueTags from common Terraform Provider SDK types. *)
Definition New (i : TagsInput) : KeyValueTags :=
  match i with
  | MapTagData value => value
  | MapString value => valueTag <$> value
  | MapStringPtr value =>
      (λ strPtr : option string,
         match strPtr with
         | None => None
         | Some str => valueTag str
         end) <$> value
  | MapInterface value => valueTag <$> value
  | SliceString value => foldl (λ kvtm v, <[v := None]> kvtm) ∅ value
  | SliceInterface value => foldl (λ kvtm v, <[v := None]> kvtm) ∅ value
  | OtherInput => ∅
  end.

(* ------------------------------------------------------------------ *)
(** ** The AWS SDK: request and response shapes, and the two clients *)

Module ssm.

Definition ErrCodeParameterNotFound : string := "ParameterNotFound".
Definition ParameterTierStandard : string := "Standard".
Definition ParameterTierAdvanced : string := "Advanced".
Definition ParameterTypeSecureString : string := "SecureString".
Definition ResourceTypeForTaggingParameter : string := "Parameter".

Module GetParameterInput.
Record t : Type := { Name : string; WithDecryption : bool }.
End GetParameterInput.

(** [resp.Parameter] of a successful [GetParameter]: [Name] and [Value]
    are dereferenced by Read, the other fields are passed on as pointers. *)
Module Parameter_.
Record t : Type := {
  Name : string;
  Value : string;
  Type_ : option string;
  Version : option Z;
  ARN : option string
}.
End Parameter_.

Module PutParameterInput.
Record t : Type := {
  Name : string;
  Type_ : string;
  Tier : option string;
  Value : string;
  Overwrite : bool;
  AllowedPattern : string;
  DataType : option string;
  Description : option string;
  KeyId : option string
}.
End PutParameterInput.

Module ParameterStringFilter.
Record t : Type := { Key : string; Option : string; Values : list string }.
End ParameterStringFilter.

Module ParameterMetadata.
Record t : Type := {
  KeyId : option string;
  Description : option string;
  Tier : option string;
  AllowedPattern : option string;
  DataType : option string
}.
End ParameterMetadata.

Module Tag.
Record t : Type := { Key : option string; Value : option string }.
End Tag.

End ssm.

(** One remote call, with what was sent. *)
Inductive Call : Type :=
| GetParameterCall (input : ssm.GetParameterInput.t)
| PutParameterCall (input : ssm.PutParameterInput.t)
| DescribeParametersCall (ParameterFilters : list ssm.ParameterStringFilter.t)
| DeleteParameterCall (Name : string)
| ListTagsForResourceCall (ResourceId ResourceType : string)
| AddTagsToResourceCall (ResourceId ResourceType : string)
                        (Tags : list ssm.Tag.t)
| RemoveTagsFromResourceCall (ResourceId ResourceType : string)
                             (TagKeys : list string)
| DecryptCall (KeyId : string) (CiphertextBlob : string).

(** A remote service answers a call given the calls made before it. *)
Record SSM : Type := {
  GetParameterOutput :
    list Call → ssm.GetParameterInput.t → error + ssm.Parameter_.t;
  PutParameterOutput : list Call → ssm.PutParameterInput.t → option error;
  DescribeParametersOutput :
    list Call → list ssm.ParameterStringFilter.t →
    error + option (list (option ssm.ParameterMetadata.t));
  DeleteParameterOutput : list Call → string → option error;
  ListTagsForResourceOutput :
    list Call → string → string → error + list ssm.Tag.t;
  AddTagsToResourceOutput :
    list Call → string → string → list ssm.Tag.t → option error;
  RemoveTagsFromResourceOutput :
    list Call → string → string → list string → option error
}.

Record KMS : Type := {
  DecryptOutput : list Call → string → string → error + string
}.

Record AWSClient : Type := {
  ssmconn : SSM;
  kmsconn : KMS;
  IgnoreTagsConfig : option IgnoreConfig
}.

(* ------------------------------------------------------------------ *)
(** ** State passing *)

(** A computation over a state [S] returning an [A]. *)
Definition M (S A : Type) : Type := S → A * S.

#[global] Instance M_ret {S} : MRet (M S) := λ A a s, (a, s).
#[global] Instance M_bind {S} : MBind (M S) :=
  λ A B f m s, let '(a, s') := m s in f a s'.

(** Go's [if err != nil { return wrap(err) }]. *)
Definition orReturn {S} (err : option error) (wrap : error → error)
    (k : M S (option error)) : M S (option error) :=
  match err with
  | Some e => mret (Some (wrap e))
  | None => k
  end.

(** The same for a call that returns a value or an error. *)
Definition try {S A} (r : error + A) (wrap : error → error)
    (k : A → M S (option error)) : M S (option error) :=
  match r with
  | inl e => mret (Some (wrap e))
  | inr a => k a
  end.

(** Issuing a call: the service answers from the log, the call is logged. *)
Definition issue {A} (answer : list Call → A) (c : Call) : M (list Call) A :=
  λ log, (answer log, log ++ [c]).

Section Clients.
Variable conn : SSM.

Definition GetParameter (input : ssm.GetParameterInput.t) :=
  issue (λ log, GetParameterOutput conn log input) (GetParameterCall input).

Definition PutParameter (input : ssm.PutParameterInput.t) :=
  issue (λ log, PutParameterOutput conn log input) (PutParameterCall input).

Definition DescribeParameters (filters : list ssm.ParameterStringFilter.t) :=
  issue (λ log, DescribeParametersOutput conn log filters)
        (DescribeParametersCall filters).

Definition DeleteParameter (Name : string) :=
  issue (λ log, DeleteParameterOutput conn log Name) (DeleteParameterCall Name).

Definition ListTagsForResource (ResourceId ResourceType : string) :=
  issue (λ log, ListTagsForResourceOutput conn log ResourceId ResourceType)
        (ListTagsForResourceCall ResourceId ResourceType).

Definition AddTagsToResource (ResourceId ResourceType : string)
    (Tags : list ssm.Tag.t) :=
  issue (λ log, AddTagsToResourceOutput conn log ResourceId ResourceType Tags)
        (AddTagsToResourceCall ResourceId ResourceType Tags).

Definition RemoveTagsFromResource (ResourceId ResourceType : string)
    (TagKeys : list string) :=
  issue (λ log, RemoveTagsFromResourceOutput conn log ResourceId ResourceType
                                             TagKeys)
        (RemoveTagsFromResourceCall ResourceId ResourceType TagKeys).

(** [SsmTags] returns ssm service tags. *)
Definition SsmTags (tags : KeyValueTags) : list ssm.Tag.t :=
  (λ kv : string * string,
     {| ssm.Tag.Key := Some kv.1; ssm.Tag.Value := Some kv.2 |})
    <$> map_to_list (Map tags).

(** [SsmKeyValueTags] creates KeyValueTags from ssm service tags. *)
Definition SsmKeyValueTags (tags : list ssm.Tag.t) : KeyValueTags :=
  let m :=
    foldl (λ (m : gmap string (option string)) tag,
             <[default "" (ssm.Tag.Key tag) := ssm.Tag.Value tag]> m)
          ∅ tags in
  New (MapStringPtr m).

(** [SsmListTags] lists ssm service tags. *)
Definition SsmListTags (identifier resourceType : string)
    : M (list Call) (KeyValueTags * option error) :=
  output ← ListTagsForResource identifier resourceType;
  match output with
  | inl err => mret (New OtherInput, Some err)
  | inr TagList => mret (SsmKeyValueTags TagList, None)
  end.

(** [SsmUpdateTags] updates ssm service tags. *)
Definition SsmUpdateTags (identifier resourceType : string)
    (oldTagsMap newTagsMap : TagsInput) : M (list Call) (option error) :=
  let oldTags := New oldTagsMap in
  let newTags := New newTagsMap in
  let removedTags := Removed oldTags newTags in
  err ← (if (0 <? size removedTags)%nat then
           RemoveTagsFromResource identifier resourceType
                                  (Keys (IgnoreAws removedTags))
         else mret None);
  orReturn err
    (λ err, WrapError ("error untagging resource (" +:+ identifier +:+ "): "
                       +:+ Error err) err)
    (let updatedTags := Updated oldTags newTags in
     err ← (if (0 <? size updatedTags)%nat then
              AddTagsToResource identifier resourceType
                                (SsmTags (IgnoreAws updatedTags))
            else mret None);
     orReturn err
       (λ err, WrapError ("error tagging resource (" +:+ identifier +:+ "): "
                          +:+ Error err) err)
       (mret None)).

End Clients.

(* ------------------------------------------------------------------ *)
(** ** [schema.ResourceData] for the schema of [resourceAwsSsmParameter] *)

(** The record a reconciliation call works on: its id, whether the SDK
    marked it as new, one field per schema attribute ([d.Get]), and the
    previously recorded description and tags, which are the old side of
    [d.GetChange].  [overwrite] is [None] when the caller did not set it
    ([d.GetOkExists]). *)
Record ResourceData : Type := {
  Id : string;
  IsNewResource : bool;
  name : string;
  description : string;
  tier : string;
  type_ : string;
  encrypted_value : string;
  encryption_key : string;
  arn : string;
  data_type : string;
  overwrite : option bool;
  allowed_pattern : string;
  version : Z;
  tags : gmap string string;
  prior_description : string;
  prior_tags : gmap string string
}.

Definition SetId (v : string) (d : ResourceData) : ResourceData :=
  {| Id := v; IsNewResource := IsNewResource d; name := name d;
     description := description d; tier := tier d; type_ := type_ d;
     encrypted_value := encrypted_value d; encryption_key := encryption_key d;
     arn := arn d; data_type := data_type d; overwrite := overwrite d;
     allowed_pattern := allowed_pattern d; version := version d;
     tags := tags d; prior_description := prior_description d;
     prior_tags := prior_tags d |}.

Definition Set_name (v : string) (d : ResourceData) : ResourceData :=
  {| Id := Id d; IsNewResource := IsNewResource d; name := v;
     description := description d; tier := tier d; type_ := type_ d;
     encrypted_value := encrypted_value d; encryption_key := encryption_key d;
     arn := arn d; data_type := data_type d; overwrite := overwrite d;
     allowed_pattern := allowed_pattern d; version := version d;
     tags := tags d; prior_description := prior_description d;
     prior_tags := prior_tags d |}.

Definition Set_description (v : string) (d : ResourceData) : ResourceData :=
  {| Id := Id d; IsNewResource := IsNewResource d; name := name d;
     description := v; tier := tier d; type_ := type_ d;
     encrypted_value := encrypted_value d; encryption_key := encryption_key d;
     arn := arn d; data_type := data_type d; overwrite := overwrite d;
     allowed_pattern := allowed_pattern d; version := version d;
     tags := tags d; prior_description := prior_description d;
     prior_tags := prior_tags d |}.

Definition Set_tier (v : string) (d : ResourceData) : ResourceData :=
  {| Id := Id d; IsNewResource := IsNewResource d; name := name d;
     description := description d; tier := v; type_ := type_ d;
     encrypted_value := encrypted_value d; encryption_key := encryption_key d;
     arn := arn d; data_type := data_type d; overwrite := overwrite d;
     allowed_pattern := allowed_pattern d; version := version d;
     tags := tags d; prior_description := prior_description d;
     prior_tags := prior_tags d |}.

Definition Set_type (v : string) (d : ResourceData) : ResourceData :=
  {| Id := Id d; IsNewResource := IsNewResource d; name := name d;
     description := description d; tier := tier d; type_ := v;
     encrypted_value := encrypted_value d; encryption_key := encryption_key d;
     arn := arn d; data_type := data_type d; overwrite := overwrite d;
     allowed_pattern := allowed_pattern d; version := version d;
     tags := tags d; prior_description := prior_description d;
     prior_tags := prior_tags d |}.

Definition Set_encrypted_value (v : string) (d : ResourceData) : ResourceData :=
  {| Id := Id d; IsNewResource := IsNewResource d; name := name d;
     description := description d; tier := tier d; type_ := type_ d;
     encrypted_value := v; encryption_key := encryption_key d;
     arn := arn d; data_type := data_type d; overwrite := overwrite d;
     allowed_pattern := allowed_pattern d; version := version d;
     tags := tags d; prior_description := prior_description d;
     prior_tags := prior_tags d |}.

Definition Set_arn (v : string) (d : ResourceData) : ResourceData :=
  {| Id := Id d; IsNewResource := IsNewResource d; name := name d;
     description := description d; tier := tier d; type_ := type_ d;
     encrypted_value := encrypted_value d; encryption_key := encryption_key d;
     arn := v; data_type := data_type d; overwrite := overwrite d;
     allowed_pattern := allowed_pattern d; version := version d;
     tags := tags d; prior_description := prior_description d;
     prior_tags := prior_tags d |}.

Definition Set_data_type (v : string) (d : ResourceData) : ResourceData :=
  {| Id := Id d; IsNewResource := IsNewResource d; name := name d;
     description := description d; tier := tier d; type_ := type_ d;
     encrypted_value := encrypted_value d; encryption_key := encryption_key d;
     arn := arn d; data_type := v; overwrite := overwrite d;
     allowed_pattern := allowed_pattern d; version := version d;
     tags := tags d; prior_description := prior_description d;
     prior_tags := prior_tags d |}.

Definition Set_allowed_pattern (v : string) (d : ResourceData) : ResourceData :=
  {| Id := Id d; IsNewResource := IsNewResource d; name := name d;
     description := description d; tier := tier d; type_ := type_ d;
     encrypted_value := encrypted_value d; encryption_key := encryption_key d;
     arn := arn d; data_type := data_type d; overwrite := overwrite d;
     allowed_pattern := v; version := version d;
     tags := tags d; prior_description := prior_description d;
     prior_tags := prior_tags d |}.

Definition Set_version (v : Z) (d : ResourceData) : ResourceData :=
  {| Id := Id d; IsNewResource := IsNewResource d; name := name d;
     description := description d; tier := tier d; type_ := type_ d;
     encrypted_value := encrypted_value d; encryption_key := encryption_key d;
     arn := arn d; data_type := data_type d; overwrite := overwrite d;
     allowed_pattern := allowed_pattern d; version := v;
     tags := tags d; prior_description := prior_description d;
     prior_tags := prior_tags d |}.

Definition Set_tags (v : gmap string string) (d : ResourceData) : ResourceData :=
  {| Id := Id d; IsNewResource := IsNewResource d; name := name d;
     description := description d; tier := tier d; type_ := type_ d;
     encrypted_value := encrypted_value d; encryption_key := encryption_key d;
     arn := arn d; data_type := data_type d; overwrite := overwrite d;
     allowed_pattern := allowed_pattern d; version := version d;
     tags := v; prior_description := prior_description d;
     prior_tags := prior_tags d |}.

(** [d.HasChange("description")] and [d.HasChange("tags")]. *)
Definition HasChange_description (d : ResourceData) : bool :=
  negb (bool_decide (prior_description d = description d)).

Definition HasChange_tags (d : ResourceData) : bool :=
  negb (bool_decide (prior_tags d = tags d)).

(** util.go, [shouldUpdateSsmParameter]: the user's preference when there is
    one; otherwise overwrite only what is not a new resource. *)
Definition shouldUpdateSsmParameter (d : ResourceData) : bool :=
  match overwrite d with
  | Some value => value
  | None => negb (IsNewResource d)
  end.

(** What an operation runs on: the record it may change, and the log of
    remote calls. *)
Record Session : Type := { rd : ResourceData; log : list Call }.

(** Reading and changing the record; running a remote call. *)
Definition getD : M Session ResourceData := λ s, (rd s, s).

Definition setD (f : ResourceData → ResourceData) : M Session unit :=
  λ s, (tt, {| rd := f (rd s); log := log s |}).

Definition remote {A} (m : M (list Call) A) : M Session A :=
  λ s, let '(a, l) := m (log s) in (a, {| rd := rd s; log := l |}).

(** A variable of the enclosing function that a closure assigns to. *)
Definition withLocal {L S A} (init : L) (m : M (L * S) A) : M S (A * L) :=
  λ s, let '(a, (l, s')) := m (init, s) in ((a, l), s').

Definition outer {L S A} (m : M S A) : M (L * S) A :=
  λ ls, let '(a, s') := m ls.2 in (a, (ls.1, s')).

Definition assign {L S} (l : L) : M (L * S) unit := λ ls, (tt, (l, ls.2)).

(* ------------------------------------------------------------------ *)
(** ** The plugin SDK's retry helper *)

Module resource.

(** [*resource.RetryError]; a nil one is [None]. *)
Inductive RetryError : Type :=
| RetryableError (err : error)
| NonRetryableError (err : error).

(** [resource.Retry] is the SDK's: it runs the callback until it returns
    nil or a non-retryable error, or until the window closes.  Time is not
    modelled: the SDK's side is given by how many further runs of the
    callback fit into a window of a given length after the first run, and
    by the error [Retry] reports when the window closes on a callback
    that still asks to be retried. *)
Record Clock : Type := {
  furtherRuns : Z → nat;
  atDeadline : error → error
}.

Fixpoint retryLoop {S} (atDeadline : error → error) (runs : nat)
    (f : M S (option RetryError)) : M S (option error) :=
  λ s,
    let '(rerr, s') := f s in
    match rerr with
    | None => (None, s')
    | Some (NonRetryableError err) => (Some err, s')
    | Some (RetryableError err) =>
        match runs with
        | O => (Some (atDeadline err), s')
        | S runs' => retryLoop atDeadline runs' f s'
        end
    end.

Definition Retry {S} (clock : Clock) (timeout : Z)
    (f : M S (option RetryError)) : M S (option error) :=
  retryLoop (atDeadline clock) (furtherRuns clock timeout) f.

End resource.

(** [time.Minute], in nanoseconds. *)
Definition Minute : Z := 60 * 1000000000.

(** Maximum amount of time to wait for asynchronous validation on SSM
    Parameter creation. *)
Definition ssmParameterCreationValidationTimeout : Z := 2 * Minute.

(* ------------------------------------------------------------------ *)
(** ** resource_encryptedssm_parameter.go *)

Definition OutdatedSensitiveValue : string := "Outdated sensitive value".

Section Engine.
Variable clock : resource.Clock.
Variable meta : AWSClient.

(** [kmsDecrypt]: the service's error is flattened to its text. *)
Definition kmsDecrypt (KeyId CiphertextBlob : string)
    : M (list Call) (error + string) :=
  result ← issue (λ log, DecryptOutput (kmsconn meta) log KeyId CiphertextBlob)
                 (DecryptCall KeyId CiphertextBlob);
  match result with
  | inl err => mret (inl (ErrorString (Error err)))
  | inr Plaintext => mret (inr Plaintext)
  end.

(** The callback Read hands to [resource.Retry]: it stores the response in
    Read's [resp] and classifies the error. *)
Definition readAttempt (d : ResourceData) (input : ssm.GetParameterInput.t)
    : M (option ssm.Parameter_.t * Session) (option resource.RetryError) :=
  r ← outer (remote (GetParameter (ssmconn meta) input));
  let resp := match r with inr p => Some p | inl _ => None end in
  let err := match r with inl e => Some e | inr _ => None end in
  _ ← assign resp;
  if isAWSErr err ssm.ErrCodeParameterNotFound ""
     && IsNewResource d
     && bool_decide (data_type d = "aws:ec2:image")
  then
    mret (Some (resource.RetryableError
      (ErrorString ("error reading SSM Parameter (" +:+ Id d +:+
         ") after creation: this can indicate that the provided parameter value could not be validated by SSM"))))
  else
    match err with
    | Some err => mret (Some (resource.NonRetryableError err))
    | None => mret None
    end.

(** The first part of Read: the bounded retry around the fetch, then the
    last fetch when the retry timed out.  It returns Go's [(resp, err)]. *)
Definition readFetch (d : ResourceData) (input : ssm.GetParameterInput.t)
    : M Session (option ssm.Parameter_.t * option error) :=
  '(err, resp) ← withLocal None
      (resource.Retry clock ssmParameterCreationValidationTimeout
                      (readAttempt d input));
  if isResourceTimeoutError err then
    r ← remote (GetParameter (ssmconn meta) input);
    mret (match r with inr p => Some p | inl _ => None end,
          match r with inl e => Some e | inr _ => None end)
  else mret (resp, err).

(** The rest of Read once the entry is fetched, from the describe call on. *)
Definition readDescribe (param : ssm.Parameter_.t) (name : string)
    : M Session (option error) :=
  let describeParamsInput :=
    [ {| ssm.ParameterStringFilter.Key := "Name";
         ssm.ParameterStringFilter.Option := "Equals";
         ssm.ParameterStringFilter.Values := [name] |} ] in
  describeResp ← remote (DescribeParameters (ssmconn meta) describeParamsInput);
  try describeResp
    (λ err, ErrorString ("error describing SSM parameter: " +:+ Error err))
    (λ describeResp,
     match describeResp with
     | None | Some [] | Some (None :: _) =>
         _ ← setD (SetId ""); mret None
     | Some (Some detail :: _) =>
         (* d.Set("key_id", ...) names no attribute of the schema *)
         _ ← setD (Set_description
                     (default "" (ssm.ParameterMetadata.Description detail)));
         _ ← setD (Set_tier ssm.ParameterTierStandard);
         _ ← match ssm.ParameterMetadata.Tier detail with
             | Some Tier => setD (Set_tier Tier)
             | None => mret tt
             end;
         _ ← setD (Set_allowed_pattern
                     (default "" (ssm.ParameterMetadata.AllowedPattern detail)));
         _ ← setD (Set_data_type
                     (default "" (ssm.ParameterMetadata.DataType detail)));
         '(tags, err) ← remote (SsmListTags (ssmconn meta) name
                                   ssm.ResourceTypeForTaggingParameter);
         orReturn err
           (λ err, ErrorString ("error listing tags for SSM Parameter (" +:+
                                name +:+ "): " +:+ Error err))
           (_ ← setD (Set_tags
                        (Map (IgnoreConfig_ (IgnoreAws tags)
                                            (IgnoreTagsConfig meta))));
            _ ← setD (Set_arn (default "" (ssm.Parameter_.ARN param)));
            mret None)
     end).

(** The middle of Read: the declared ciphertext is decoded and decrypted,
    and what is shown as [encrypted_value] is the declared ciphertext when
    the plaintexts agree and the fixed marker otherwise. *)
Definition readCompare (d : ResourceData) (param : ssm.Parameter_.t)
    : M Session (option error) :=
  let name := ssm.Parameter_.Name param in
  let encValue := ssm.Parameter_.Value param in
  try (base64.DecodeString (encrypted_value d)) id
    (λ base64Blob,
     result ← remote (kmsDecrypt (encryption_key d) base64Blob);
     try result
       (λ err, ErrorString ("Error decrypting with KMS: " +:+ Error err))
       (λ Plaintext,
        let encrypted_value' :=
          if bool_decide (Plaintext = encValue)
          then encrypted_value d
          else OutdatedSensitiveValue in
        _ ← setD (Set_name name);
        _ ← setD (Set_type (default "" (ssm.Parameter_.Type_ param)));
        _ ← setD (Set_encrypted_value encrypted_value');
        _ ← setD (Set_version (default 0%Z (ssm.Parameter_.Version param)));
        readDescribe param name)).

(** What Read does with the outcome [(resp, err)] of the fetch. *)
Definition readResolve (d : ResourceData) (resp : option ssm.Parameter_.t)
    (err : option error) : M Session (option error) :=
  if isAWSErr err ssm.ErrCodeParameterNotFound "" && negb (IsNewResource d)
  then
    _ ← setD (SetId ""); mret None
  else
    orReturn err
      (λ err, WrapError ("error reading SSM Parameter (" +:+ Id d +:+ "): "
                         +:+ Error err) err)
      match resp with
      | None =>
          (* not reached: a nil err comes with a response *)
          mret (Some (ErrorString
                        "invalid memory address or nil pointer dereference"))
      | Some param => readCompare d param
      end.

(** The request of Read's fetch. *)
Definition readInput (d : ResourceData) : ssm.GetParameterInput.t :=
  {| ssm.GetParameterInput.Name := Id d;
     ssm.GetParameterInput.WithDecryption := true |}.

(** [resourceAwsSsmParameterRead]. *)
Definition resourceAwsSsmParameterRead : M Session (option error) :=
  d ← getD;
  let input := readInput d in
  '(resp, err) ← readFetch d input;
  readResolve d resp err.

(** [resourceAwsSsmParameterDelete]. *)
Definition resourceAwsSsmParameterDelete : M Session (option error) :=
  d ← getD;
  err ← remote (DeleteParameter (ssmconn meta) (name d));
  orReturn err
    (λ err, ErrorString ("error deleting SSM Parameter (" +:+ Id d +:+ "): "
                         +:+ Error err))
    (mret None).

(** The request Put builds before the first write. *)
Definition putInput (d : ResourceData) (Plaintext : string)
    : ssm.PutParameterInput.t :=
  {| ssm.PutParameterInput.Name := name d;
     ssm.PutParameterInput.Type_ := type_ d;
     ssm.PutParameterInput.Tier := Some (tier d);
     ssm.PutParameterInput.Value := Plaintext;
     ssm.PutParameterInput.Overwrite := shouldUpdateSsmParameter d;
     ssm.PutParameterInput.AllowedPattern := allowed_pattern d;
     ssm.PutParameterInput.DataType :=
       (if bool_decide (data_type d = "") then None else Some (data_type d));
     ssm.PutParameterInput.Description :=
       (if HasChange_description d then Some (description d) else None);
     ssm.PutParameterInput.KeyId := Some (encryption_key d) |}.

(** [paramInput.Tier = nil]. *)
Definition withoutTier (i : ssm.PutParameterInput.t) : ssm.PutParameterInput.t :=
  {| ssm.PutParameterInput.Name := ssm.PutParameterInput.Name i;
     ssm.PutParameterInput.Type_ := ssm.PutParameterInput.Type_ i;
     ssm.PutParameterInput.Tier := None;
     ssm.PutParameterInput.Value := ssm.PutParameterInput.Value i;
     ssm.PutParameterInput.Overwrite := ssm.PutParameterInput.Overwrite i;
     ssm.PutParameterInput.AllowedPattern :=
       ssm.PutParameterInput.AllowedPattern i;
     ssm.PutParameterInput.DataType := ssm.PutParameterInput.DataType i;
     ssm.PutParameterInput.Description := ssm.PutParameterInput.Description i;
     ssm.PutParameterInput.KeyId := ssm.PutParameterInput.KeyId i |}.

(** The write of Put, with the single retry without a tier. *)
Definition putWrite (paramInput : ssm.PutParameterInput.t)
    : M Session (option error) :=
  err ← remote (PutParameter (ssmconn meta) paramInput);
  if isAWSErr err "ValidationException" "Tier is not supported" then
    remote (PutParameter (ssmconn meta) (withoutTier paramInput))
  else mret err.

(** What Put does once the write went through: the tags, the id, and the
    trailing Read. *)
Definition putFinish (d : ResourceData) : M Session (option error) :=
  let name := name d in
  err ← (if HasChange_tags d then
           remote (SsmUpdateTags (ssmconn meta) name
                     ssm.ResourceTypeForTaggingParameter
                     (MapInterface (prior_tags d)) (MapInterface (tags d)))
         else mret None);
  orReturn err
    (λ err, ErrorString ("error updating SSM Parameter (" +:+ name +:+
                         ") tags: " +:+ Error err))
    (_ ← setD (SetId name);
     resourceAwsSsmParameterRead).

(** [resourceAwsSsmParameterPut]. *)
Definition resourceAwsSsmParameterPut : M Session (option error) :=
  d ← getD;
  try (base64.DecodeString (encrypted_value d)) id
    (λ base64Blob,
     result ← remote (kmsDecrypt (encryption_key d) base64Blob);
     try result
       (λ err, ErrorString ("Error decrypting with KMS: " +:+ Error err))
       (λ Plaintext,
        err ← putWrite (putInput d Plaintext);
        orReturn err
          (λ err, ErrorString ("error creating SSM parameter: " +:+ Error err))
          (putFinish d))).

End Engine.

(* ------------------------------------------------------------------ *)
(** ** Vocabulary for the statements, and concrete surroundings *)

(** Two tag data differ: one is nil and the other is not, or they differ in
    the primary value or in one of the two secondary field maps. *)
Definition TagDataDiffers (a b : option TagData) : Prop :=
  match a, b with
  | None, None => False
  | Some a, Some b =>
      Value a ≠ Value b
      ∨ AdditionalBoolFields a ≠ AdditionalBoolFields b
      ∨ AdditionalStringFields a ≠ AdditionalStringFields b
  | _, _ => True
  end.

Definition isGetParameterCall (c : Call) : bool :=
  match c with GetParameterCall _ => true | _ => false end.

Definition isPutParameterCall (c : Call) : bool :=
  match c with PutParameterCall _ => true | _ => false end.

Definition isDeleteParameterCall (c : Call) : bool :=
  match c with DeleteParameterCall _ => true | _ => false end.

Definition isAddTagsCall (c : Call) : bool :=
  match c with AddTagsToResourceCall _ _ _ => true | _ => false end.

Definition isRemoveTagsCall (c : Call) : bool :=
  match c with RemoveTagsFromResourceCall _ _ _ => true | _ => false end.

(** A call that changes the remote store. *)
Definition isWriteCall (c : Call) : bool :=
  isPutParameterCall c || isDeleteParameterCall c
  || isAddTagsCall c || isRemoveTagsCall c.

(** The calls logged after [before]. *)
Definition issuedSince (before after : list Call) : list Call :=
  drop (length before) after.

(** Any service that rejects every call. *)
Definition rejecting (err : error) : SSM :=
  {| GetParameterOutput := λ _ _, inl err;
     PutParameterOutput := λ _ _, Some err;
     DescribeParametersOutput := λ _ _, inl err;
     DeleteParameterOutput := λ _ _, Some err;
     ListTagsForResourceOutput := λ _ _ _, inl err;
     AddTagsToResourceOutput := λ _ _ _ _, Some err;
     RemoveTagsFromResourceOutput := λ _ _ _ _, Some err |}.

(** A run of [SsmUpdateTags] that replaces tag [team] by tag [owner]. *)
Definition retagOld : TagsInput := MapInterface {[ "team" := "blue" ]}.

Definition retagNew : TagsInput := MapInterface {[ "owner" := "ops" ]}.

Definition accepting : SSM :=
  {| GetParameterOutput := λ _ _, inl (AwsError "ParameterNotFound" "");
     PutParameterOutput := λ _ _, None;
     DescribeParametersOutput := λ _ _, inr None;
     DeleteParameterOutput := λ _ _, None;
     ListTagsForResourceOutput := λ _ _ _, inr [];
     AddTagsToResourceOutput := λ _ _ _ _, None;
     RemoveTagsFromResourceOutput := λ _ _ _ _, None |}.

(** A store where the entry is already gone, and a record under management. *)
Definition goneClient : AWSClient :=
  {| ssmconn := rejecting (AwsError "ParameterNotFound" "Parameter /a/b not found.");
     kmsconn := {| DecryptOutput := λ _ _ _, inr "s3cret" |};
     IgnoreTagsConfig := None |}.

Definition managedRecord : ResourceData :=
  {| Id := "/a/b"; IsNewResource := false; name := "/a/b"; description := "";
     tier := "Standard"; type_ := "SecureString"; encrypted_value := "QUJD";
     encryption_key := "alias/k"; arn := ""; data_type := "text";
     overwrite := None; allowed_pattern := ""; version := 1;
     tags := ∅; prior_description := ""; prior_tags := ∅ |}.

(** A call that only reads: the fetch, the describe call, the tag listing
    and the decryption. *)
Definition isReadOnlyCall (c : Call) : bool :=
  match c with
  | GetParameterCall _ | DescribeParametersCall _
  | ListTagsForResourceCall _ _ | DecryptCall _ _ => true
  | _ => false
  end.

(** Go's [(resp, err)] for an answer of [GetParameter]. *)
Definition respOf (r : error + ssm.Parameter_.t) : option ssm.Parameter_.t :=
  match r with inr p => Some p | inl _ => None end.

Definition errOf (r : error + ssm.Parameter_.t) : option error :=
  match r with inl e => Some e | inr _ => None end.

(** The condition under which Read's callback asks for a retry. *)
Definition retryable (d : ResourceData) (err : option error) : bool :=
  isAWSErr err ssm.ErrCodeParameterNotFound ""
  && IsNewResource d
  && bool_decide (data_type d = "aws:ec2:image").

Definition afterCreationError (d : ResourceData) : error :=
  ErrorString ("error reading SSM Parameter (" +:+ Id d +:+
    ") after creation: this can indicate that the provided parameter value could not be validated by SSM").

Definition logged (s : Session) (calls : list Call) : Session :=
  {| rd := rd s; log := log s ++ calls |}.

(** The calls Read may issue after its fetch. *)
Definition isLookupCall (c : Call) : bool :=
  match c with
  | DescribeParametersCall _ | ListTagsForResourceCall _ _ | DecryptCall _ _ =>
      true
  | _ => false
  end.

Definition describeFilter (name : string) : list ssm.ParameterStringFilter.t :=
  [ {| ssm.ParameterStringFilter.Key := "Name";
       ssm.ParameterStringFilter.Option := "Equals";
       ssm.ParameterStringFilter.Values := [name] |} ].

(** A describe answer with no first record. *)
Definition noMatch (out : option (list (option ssm.ParameterMetadata.t))) : bool :=
  match out with
  | None | Some [] | Some (None :: _) => true
  | Some (Some _ :: _) => false
  end.

(** Concrete surroundings: a record created in this session for a machine
    image, a store that does not show it yet, and two SDK clocks that let
    the callback run three times; the first reports the closed window as a
    timeout error without a last error, the second hands back the
    last error of the callback. *)
Definition imageRecord : ResourceData :=
  {| Id := "/ami/latest"; IsNewResource := true; name := "/ami/latest";
     description := ""; tier := "Standard"; type_ := "SecureString";
     encrypted_value := "QUJD"; encryption_key := "alias/k"; arn := "";
     data_type := "aws:ec2:image"; overwrite := None; allowed_pattern := "";
     version := 0; tags := ∅; prior_description := ""; prior_tags := ∅ |}.

Definition timeoutClock : resource.Clock :=
  {| resource.furtherRuns := λ _, 2;
     resource.atDeadline := λ _, TimeoutError None |}.

Definition lastErrorClock : resource.Clock :=
  {| resource.furtherRuns := λ _, 2;
     resource.atDeadline := λ err, err |}.

(** A store that holds the entry [/a/b] with the value [s3cret], and a key
    that decrypts the declared blob to the same value. *)
Definition storedParameter : ssm.Parameter_.t :=
  {| ssm.Parameter_.Name := "/a/b";
     ssm.Parameter_.Value := "s3cret";
     ssm.Parameter_.Type_ := Some "SecureString";
     ssm.Parameter_.Version := Some 3%Z;
     ssm.Parameter_.ARN := Some "arn:aws:ssm:us-west-2:111122223333:parameter/a/b" |}.

Definition storedMetadata : ssm.ParameterMetadata.t :=
  {| ssm.ParameterMetadata.KeyId := Some "alias/k";
     ssm.ParameterMetadata.Description := None;
     ssm.ParameterMetadata.Tier := Some "Standard";
     ssm.ParameterMetadata.AllowedPattern := None;
     ssm.ParameterMetadata.DataType := Some "text" |}.

Definition steadyStore : SSM :=
  {| GetParameterOutput := λ _ _, inr storedParameter;
     PutParameterOutput := λ _ _, None;
     DescribeParametersOutput := λ _ _, inr (Some [Some storedMetadata]);
     DeleteParameterOutput := λ _ _, None;
     ListTagsForResourceOutput := λ _ _ _, inr [];
     AddTagsToResourceOutput := λ _ _ _ _, None;
     RemoveTagsFromResourceOutput := λ _ _ _ _, None |}.

Definition steadyClient : AWSClient :=
  {| ssmconn := steadyStore;
     kmsconn := {| DecryptOutput := λ _ _ _, inr "s3cret" |};
     IgnoreTagsConfig := None |}.

(** The same store behind a key the caller may not use. *)
Definition deniedClient : AWSClient :=
  {| ssmconn := steadyStore;
     kmsconn := {| DecryptOutput := λ _ _ _,
                     inl (AwsError "AccessDeniedException"
                                   "not authorized to perform kms:Decrypt") |};
     IgnoreTagsConfig := None |}.

(** The writes of a run of Put. *)
Definition putWrites (clock : resource.Clock) (meta : AWSClient) (s : Session)
    : list Call :=
  List.filter isPutParameterCall
    (issuedSince (log s) (log (resourceAwsSsmParameterPut clock meta s).2)).

(** A first declaration of [/a/b] against a store where the name is taken. *)
Definition newRecord : ResourceData :=
  {| Id := ""; IsNewResource := true; name := "/a/b"; description := "";
     tier := "Standard"; type_ := "SecureString"; encrypted_value := "QUJD";
     encryption_key := "alias/k"; arn := ""; data_type := "text";
     overwrite := None; allowed_pattern := ""; version := 0;
     tags := ∅; prior_description := ""; prior_tags := ∅ |}.

Definition takenClient : AWSClient :=
  {| ssmconn :=
       rejecting (AwsError "ParameterAlreadyExists"
                           "The parameter already exists.");
     kmsconn := {| DecryptOutput := λ _ _ _, inr "s3cret" |};
     IgnoreTagsConfig := None |}.

(** A store that accepts a write only without a tier, holds the entry, and
    a second one that in addition throttles every fetch. *)
Definition tierRejected (input : ssm.PutParameterInput.t) : option error :=
  match ssm.PutParameterInput.Tier input with
  | Some _ =>
      Some (AwsError "ValidationException"
                     "Tier is not supported in this region")
  | None => None
  end.

Definition tierlessStore : SSM :=
  {| GetParameterOutput := λ _ _, inr storedParameter;
     PutParameterOutput := λ _ input, tierRejected input;
     DescribeParametersOutput := λ _ _, inr (Some [Some storedMetadata]);
     DeleteParameterOutput := λ _ _, None;
     ListTagsForResourceOutput := λ _ _ _, inr [];
     AddTagsToResourceOutput := λ _ _ _ _, None;
     RemoveTagsFromResourceOutput := λ _ _ _ _, None |}.

Definition tierlessClient : AWSClient :=
  {| ssmconn := tierlessStore;
     kmsconn := {| DecryptOutput := λ _ _ _, inr "s3cret" |};
     IgnoreTagsConfig := None |}.

Definition throttledStore : SSM :=
  {| GetParameterOutput :=
       λ _ _, inl (AwsError "ThrottlingException" "Rate exceeded");
     PutParameterOutput := λ _ input, tierRejected input;
     DescribeParametersOutput := λ _ _, inr (Some [Some storedMetadata]);
     DeleteParameterOutput := λ _ _, None;
     ListTagsForResourceOutput := λ _ _ _, inr [];
     AddTagsToResourceOutput := λ _ _ _ _, None;
     RemoveTagsFromResourceOutput := λ _ _ _ _, None |}.

Definition throttledClient : AWSClient :=
  {| ssmconn := throttledStore;
     kmsconn := {| DecryptOutput := λ _ _ _, inr "s3cret" |};
     IgnoreTagsConfig := None |}.

(** What Read and Put never change in the record: the declared key, the
    caller's [overwrite], the new-resource mark and the previous description
    and tags; the tags they leave are the ones they found or carry no key
    starting with ["aws:"]. *)
Definition keepsDeclared (d d' : ResourceData) : Prop :=
  IsNewResource d' = IsNewResource d
  ∧ encryption_key d' = encryption_key d
  ∧ overwrite d' = overwrite d
  ∧ prior_description d' = prior_description d
  ∧ prior_tags d' = prior_tags d
  ∧ (tags d' = tags d
     ∨ ∀ k, HasPrefix k "aws:" = true → tags d' !! k = None).

(** The calls of Read after its fetches, in their order. *)
Definition lookupSequence (d : ResourceData) (blob name : string) : list Call :=
  [ DecryptCall (encryption_key d) blob;
    DescribeParametersCall (describeFilter name);
    ListTagsForResourceCall name ssm.ResourceTypeForTaggingParameter ].

(** Tags of which one belongs to the platform. *)
Definition platformTagsOld : TagsInput :=
  MapInterface {[ "aws:cloudformation:stack-name" := "s"; "team" := "blue" ]}.

(** A record whose declared ciphertext is not base64. *)
Definition garbledRecord : ResourceData :=
  {| Id := "/a/b"; IsNewResource := false; name := "/a/b"; description := "";
     tier := "Standard"; type_ := "SecureString";
     encrypted_value := "not base64!";
     encryption_key := "alias/k"; arn := ""; data_type := "text";
     overwrite := None; allowed_pattern := ""; version := 1;
     tags := ∅; prior_description := ""; prior_tags := ∅ |}.

(** A store whose entry carries a platform tag and a user tag, and whose
    describe answer names no tier. *)
Definition tierlessMetadata : ssm.ParameterMetadata.t :=
  {| ssm.ParameterMetadata.KeyId := Some "alias/k";
     ssm.ParameterMetadata.Description := Some "database password";
     ssm.ParameterMetadata.Tier := None;
     ssm.ParameterMetadata.AllowedPattern := None;
     ssm.ParameterMetadata.DataType := Some "text" |}.

Definition storedTags : list ssm.Tag.t :=
  [ {| ssm.Tag.Key := Some "aws:cloudformation:stack-name";
       ssm.Tag.Value := Some "s" |};
    {| ssm.Tag.Key := Some "team"; ssm.Tag.Value := Some "blue" |} ].

Definition taggedClient : AWSClient :=
  {| ssmconn :=
       {| GetParameterOutput := λ _ _, inr storedParameter;
          PutParameterOutput := λ _ _, None;
          DescribeParametersOutput := λ _ _, inr (Some [Some tierlessMetadata]);
          DeleteParameterOutput := λ _ _, None;
          ListTagsForResourceOutput := λ _ _ _, inr storedTags;
          AddTagsToResourceOutput := λ _ _ _ _, None;
          RemoveTagsFromResourceOutput := λ _ _ _ _, None |};
     kmsconn := {| DecryptOutput := λ _ _ _, inr "s3cret" |};
     IgnoreTagsConfig := None |}.

(** A store that answers the fetch and refuses the describe call and the
    tag listing. *)
Definition opaqueClient : AWSClient :=
  {| ssmconn :=
       {| GetParameterOutput := λ _ _, inr storedParameter;
          PutParameterOutput := λ _ _, None;
          DescribeParametersOutput :=
            λ _ _, inl (AwsError "AccessDeniedException" "denied");
          DeleteParameterOutput := λ _ _, None;
          ListTagsForResourceOutput :=
            λ _ _ _, inl (AwsError "AccessDeniedException" "denied");
          AddTagsToResourceOutput :=
            λ _ _ _ _, Some (AwsError "AccessDeniedException" "denied");
          RemoveTagsFromResourceOutput :=
            λ _ _ _ _, Some (AwsError "AccessDeniedException" "denied") |};
     kmsconn := {| DecryptOutput := λ _ _ _, inr "s3cret" |};
     IgnoreTagsConfig := None |}.

(** A call that changes the tags of the entry. *)
Definition isTagCall (c : Call) : bool := isAddTagsCall c || isRemoveTagsCall c.

(** A managed record whose declaration gained a tag and a description. *)
Definition retaggedRecord : ResourceData :=
  {| Id := "/a/b"; IsNewResource := false; name := "/a/b";
     description := "database password";
     tier := "Standard"; type_ := "SecureString"; encrypted_value := "QUJD";
     encryption_key := "alias/k"; arn := ""; data_type := "text";
     overwrite := None; allowed_pattern := ""; version := 1;
     tags := {[ "team" := "blue" ]}; prior_description := "";
     prior_tags := ∅ |}.

(* ------------------------------------------------------------------ *)
(** ** The provider: its configuration and the client it builds *)

Module awsbase.

Module UserAgentProduct.
Record t : Type := { Name : string; Version : string; Extra : list string }.
End UserAgentProduct.

(** [awsbase.Config], with the fields [Client] fills. *)
Module Config.
Record t : Type := {
  AccessKey : string;
  AssumeRoleARN : string;
  AssumeRoleDurationSeconds : Z;
  AssumeRoleExternalID : string;
  AssumeRolePolicy : string;
  AssumeRolePolicyARNs : list string;
  AssumeRoleSessionName : string;
  AssumeRoleTags : gmap string string;
  AssumeRoleTransitiveTagKeys : list string;
  CallerDocumentationURL : string;
  CallerName : string;
  CredsFilename : string;
  DebugLogging : bool;
  MaxRetries : Z;
  Profile : string;
  Region : string;
  SecretKey : string;
  Token : string;
  UserAgentProducts : list UserAgentProduct.t
}.
End Config.

End awsbase.

(** The provider's own [Config].  A nil slice is the empty list and a nil
    map the empty map. *)
Module Config.
Record t : Type := {
  AccessKey : string;
  SecretKey : string;
  CredsFilename : string;
  Profile : string;
  Token : string;
  Region : string;
  MaxRetries : Z;
  AssumeRoleARN : string;
  AssumeRoleDurationSeconds : Z;
  AssumeRoleExternalID : string;
  AssumeRolePolicy : string;
  AssumeRolePolicyARNs : list string;
  AssumeRoleSessionName : string;
  AssumeRoleTags : gmap string string;
  AssumeRoleTransitiveTagKeys : list string;
  AllowedAccountIds : list string;
  ForbiddenAccountIds : list string;
  Endpoints : gmap string string;
  Insecure : bool;
  SkipCredsValidation : bool;
  SkipRegionValidation : bool;
  terraformVersion : string
}.
End Config.

(** What [Client] needs from outside the repository: the checks and the
    session of [aws-sdk-go-base], the log level, the provider's version, and
    the constructors of the two service clients from a session and an
    endpoint. *)
Record Platform (Sess : Type) : Type := {
  ValidateRegion : string → option error;
  GetSessionWithAccountIDAndPartition :
    awsbase.Config.t → error + (Sess * string);
  ValidateAccountID : string → list string → list string → option error;
  IsDebugOrHigher : bool;
  ProviderVersion : string;
  ssmNew : Sess → string → SSM;
  kmsNew : Sess → string → KMS
}.
Arguments ValidateRegion {Sess}.
Arguments GetSessionWithAccountIDAndPartition {Sess}.
Arguments ValidateAccountID {Sess}.
Arguments IsDebugOrHigher {Sess}.
Arguments ProviderVersion {Sess}.
Arguments ssmNew {Sess}.
Arguments kmsNew {Sess}.

Section Provider.
Context {Sess : Type}.
Variable platform : Platform Sess.

(** The [awsbase.Config] that [Client] hands to the session. *)
Definition awsbaseConfig (c : Config.t) : awsbase.Config.t :=
  {| awsbase.Config.AccessKey := Config.AccessKey c;
     awsbase.Config.AssumeRoleARN := Config.AssumeRoleARN c;
     awsbase.Config.AssumeRoleDurationSeconds :=
       Config.AssumeRoleDurationSeconds c;
     awsbase.Config.AssumeRoleExternalID := Config.AssumeRoleExternalID c;
     awsbase.Config.AssumeRolePolicy := Config.AssumeRolePolicy c;
     awsbase.Config.AssumeRolePolicyARNs := Config.AssumeRolePolicyARNs c;
     awsbase.Config.AssumeRoleSessionName := Config.AssumeRoleSessionName c;
     awsbase.Config.AssumeRoleTags := Config.AssumeRoleTags c;
     awsbase.Config.AssumeRoleTransitiveTagKeys :=
       Config.AssumeRoleTransitiveTagKeys c;
     awsbase.Config.CallerDocumentationURL :=
       "https://registry.terraform.io/providers/hashicorp/aws";
     awsbase.Config.CallerName := "Terraform encryptedssm Provider";
     awsbase.Config.CredsFilename := Config.CredsFilename c;
     awsbase.Config.DebugLogging := IsDebugOrHigher platform;
     awsbase.Config.MaxRetries := Config.MaxRetries c;
     awsbase.Config.Profile := Config.Profile c;
     awsbase.Config.Region := Config.Region c;
     awsbase.Config.SecretKey := Config.SecretKey c;
     awsbase.Config.Token := Config.Token c;
     awsbase.Config.UserAgentProducts :=
       [ {| awsbase.UserAgentProduct.Name := "APN";
            awsbase.UserAgentProduct.Version := "1.0";
            awsbase.UserAgentProduct.Extra := [] |};
         {| awsbase.UserAgentProduct.Name := "HashiCorp";
            awsbase.UserAgentProduct.Version := "1.0";
            awsbase.UserAgentProduct.Extra := [] |};
         {| awsbase.UserAgentProduct.Name := "Terraform";
            awsbase.UserAgentProduct.Version := Config.terraformVersion c;
            awsbase.UserAgentProduct.Extra := ["+https://www.terraform.io"] |};
         {| awsbase.UserAgentProduct.Name := "terraform-provider-encryptedssm";
            awsbase.UserAgentProduct.Version := ProviderVersion platform;
            awsbase.UserAgentProduct.Extra :=
              ["+https://registry.terraform.io/providers/hashicorp/aws"] |} ]
  |}.

(** [func (c *Config) Client() (interface{}, error)]. *)
Definition Client (c : Config.t) : error + AWSClient :=
  match (if negb (Config.SkipRegionValidation c)
         then ValidateRegion platform (Config.Region c) else None) with
  | Some err => inl err
  | None =>
      match GetSessionWithAccountIDAndPartition platform (awsbaseConfig c) with
      | inl err =>
          inl (WrapError ("error configuring Terraform AWS Provider: "
                          +:+ Error err) err)
      | inr (sess, accountID) =>
          match ValidateAccountID platform accountID
                  (Config.AllowedAccountIds c) (Config.ForbiddenAccountIds c) with
          | Some err => inl err
          | None =>
              inr {| ssmconn :=
                       ssmNew platform sess
                         (default "" (Config.Endpoints c !! "ssm"));
                     kmsconn :=
                       kmsNew platform sess
                         (default "" (Config.Endpoints c !! "kms"));
                     IgnoreTagsConfig := None |}
          end
      end
  end.

End Provider.

(** A value of Go's [interface{}] as the provider's configuration holds
    them. *)
Inductive Raw : Type :=
| VInt (n : Z)
| VString (s : string)
| VSet (items : list Raw)
| VMap (entries : gmap string Raw)
| VNil.

(** Go's type assertions to [int], to [string], to a schema set (with its
    [List()]) and to [map[string]interface{}]. *)
Definition asInt (v : option Raw) : option Z :=
  match v with Some (VInt n) => Some n | _ => None end.

Definition asString (v : option Raw) : option string :=
  match v with Some (VString s) => Some s | _ => None end.

Definition asSet (v : option Raw) : option (list Raw) :=
  match v with Some (VSet items) => Some items | _ => None end.

Definition asMap (v : option Raw) : option (gmap string Raw) :=
  match v with Some (VMap entries) => Some entries | _ => None end.

(** The provider's own [schema.ResourceData]: an [assume_role] block is a
    [map[string]interface{}], and the two sets of account ids come as the
    lists their [List()] gives. *)
Record ProviderData : Type := {
  access_key : string;
  secret_key : string;
  profile : string;
  token : string;
  region : string;
  shared_credentials_file : string;
  max_retries : Z;
  assume_role : list (option (gmap string Raw));
  allowed_account_ids : list string;
  forbidden_account_ids : list string
}.

(** The string elements of a set, in its order; the others are skipped. *)
Definition appendStrings (acc : list string) (items : list Raw) : list string :=
  foldl (λ acc raw, match asString (Some raw) with
                    | Some str => acc ++ [str]
                    | None => acc
                    end) acc items.

(** The string-valued entries of a raw map, copied into a fresh map. *)
Definition stringEntries (entries : gmap string Raw) : gmap string string :=
  map_fold (λ k vRaw (acc : gmap string string),
              match asString (Some vRaw) with
              | Some v => <[k := v]> acc
              | None => acc
              end) ∅ entries.

(** The part of [providerConfigure] that reads the [assume_role] block into
    the configuration. *)
Definition withAssumeRole (m : gmap string Raw) (config : Config.t) : Config.t :=
  {| Config.AccessKey := Config.AccessKey config;
     Config.SecretKey := Config.SecretKey config;
     Config.CredsFilename := Config.CredsFilename config;
     Config.Profile := Config.Profile config;
     Config.Token := Config.Token config;
     Config.Region := Config.Region config;
     Config.MaxRetries := Config.MaxRetries config;
     Config.AssumeRoleARN :=
       match asString (m !! "role_arn") with
       | Some v => if bool_decide (v = "") then Config.AssumeRoleARN config else v
       | None => Config.AssumeRoleARN config
       end;
     Config.AssumeRoleDurationSeconds :=
       match asInt (m !! "duration_seconds") with
       | Some v => if bool_decide (v = 0%Z)
                   then Config.AssumeRoleDurationSeconds config else v
       | None => Config.AssumeRoleDurationSeconds config
       end;
     Config.AssumeRoleExternalID :=
       match asString (m !! "external_id") with
       | Some v => if bool_decide (v = "")
                   then Config.AssumeRoleExternalID config else v
       | None => Config.AssumeRoleExternalID config
       end;
     Config.AssumeRolePolicy :=
       match asString (m !! "policy") with
       | Some v => if bool_decide (v = "")
                   then Config.AssumeRolePolicy config else v
       | None => Config.AssumeRolePolicy config
       end;
     Config.AssumeRolePolicyARNs :=
       match asSet (m !! "policy_arns") with
       | Some items =>
           if (0 <? length items)%nat
           then appendStrings (Config.AssumeRolePolicyARNs config) items
           else Config.AssumeRolePolicyARNs config
       | None => Config.AssumeRolePolicyARNs config
       end;
     Config.AssumeRoleSessionName :=
       match asString (m !! "session_name") with
       | Some v => if bool_decide (v = "")
                   then Config.AssumeRoleSessionName config else v
       | None => Config.AssumeRoleSessionName config
       end;
     Config.AssumeRoleTags :=
       match asMap (m !! "tags") with
       | Some entries =>
           if (0 <? size entries)%nat
           then stringEntries entries
           else Config.AssumeRoleTags config
       | None => Config.AssumeRoleTags config
       end;
     Config.AssumeRoleTransitiveTagKeys :=
       match asSet (m !! "transitive_tag_keys") with
       | Some items =>
           if (0 <? length items)%nat
           then appendStrings (Config.AssumeRoleTransitiveTagKeys config) items
           else Config.AssumeRoleTransitiveTagKeys config
       | None => Config.AssumeRoleTransitiveTagKeys config
       end;
     Config.AllowedAccountIds := Config.AllowedAccountIds config;
     Config.ForbiddenAccountIds := Config.ForbiddenAccountIds config;
     Config.Endpoints := Config.Endpoints config;
     Config.Insecure := Config.Insecure config;
     Config.SkipCredsValidation := Config.SkipCredsValidation config;
     Config.SkipRegionValidation := Config.SkipRegionValidation config;
     Config.terraformVersion := Config.terraformVersion config |}.

(** The configuration [providerConfigure] builds before it asks for the
    client. *)
Definition providerConfig (d : ProviderData) (terraformVersion : string)
    : Config.t :=
  let config :=
    {| Config.AccessKey := access_key d;
       Config.SecretKey := secret_key d;
       Config.CredsFilename := shared_credentials_file d;
       Config.Profile := profile d;
       Config.Token := token d;
       Config.Region := region d;
       Config.MaxRetries := max_retries d;
       Config.AssumeRoleARN := "";
       Config.AssumeRoleDurationSeconds := 0;
       Config.AssumeRoleExternalID := "";
       Config.AssumeRolePolicy := "";
       Config.AssumeRolePolicyARNs := [];
       Config.AssumeRoleSessionName := "";
       Config.AssumeRoleTags := ∅;
       Config.AssumeRoleTransitiveTagKeys := [];
       Config.AllowedAccountIds := [];
       Config.ForbiddenAccountIds := [];
       Config.Endpoints := ∅;
       Config.Insecure := false;
       Config.SkipCredsValidation := false;
       Config.SkipRegionValidation := false;
       Config.terraformVersion := terraformVersion |} in
  let config :=
    match assume_role d with
    | Some m :: _ => withAssumeRole m config
    | _ => config
    end in
  {| Config.AccessKey := Config.AccessKey config;
     Config.SecretKey := Config.SecretKey config;
     Config.CredsFilename := Config.CredsFilename config;
     Config.Profile := Config.Profile config;
     Config.Token := Config.Token config;
     Config.Region := Config.Region config;
     Config.MaxRetries := Config.MaxRetries config;
     Config.AssumeRoleARN := Config.AssumeRoleARN config;
     Config.AssumeRoleDurationSeconds := Config.AssumeRoleDurationSeconds config;
     Config.AssumeRoleExternalID := Config.AssumeRoleExternalID config;
     Config.AssumeRolePolicy := Config.AssumeRolePolicy config;
     Config.AssumeRolePolicyARNs := Config.AssumeRolePolicyARNs config;
     Config.AssumeRoleSessionName := Config.AssumeRoleSessionName config;
     Config.AssumeRoleTags := Config.AssumeRoleTags config;
     Config.AssumeRoleTransitiveTagKeys :=
       Config.AssumeRoleTransitiveTagKeys config;
     Config.AllowedAccountIds :=
       Config.AllowedAccountIds config ++ allowed_account_ids d;
     Config.ForbiddenAccountIds :=
       Config.ForbiddenAccountIds config ++ forbidden_account_ids d;
     Config.Endpoints := Config.Endpoints config;
     Config.Insecure := Config.Insecure config;
     Config.SkipCredsValidation := Config.SkipCredsValidation config;
     Config.SkipRegionValidation := Config.SkipRegionValidation config;
     Config.terraformVersion := Config.terraformVersion config |}.

(** [providerConfigure]. *)
Definition providerConfigure {Sess} (platform : Platform Sess)
    (d : ProviderData) (terraformVersion : string) : error + AWSClient :=
  Client platform (providerConfig d terraformVersion).

(** The [ConfigureFunc] of [Provider]: a missing Terraform version stands for
    0.10 or 0.11. *)
Definition ConfigureFunc {Sess} (platform : Platform Sess)
    (TerraformVersion : string) (d : ProviderData) : error + AWSClient :=
  let terraformVersion :=
    if bool_decide (TerraformVersion = "") then "0.11+compatible"
    else TerraformVersion in
  providerConfigure platform d terraformVersion.

(** A platform for the examples: only the region [us-west-2] is valid, the
    session is the region's name, the account is fixed, and every account is
    accepted unless it is forbidden. *)
Definition examplePlatform : Platform string :=
  {| ValidateRegion := λ r,
       if bool_decide (r = "us-west-2") then None
       else Some (ErrorString ("Invalid AWS Region: " +:+ r));
     GetSessionWithAccountIDAndPartition := λ c,
       inr (awsbase.Config.Region c, "111122223333");
     ValidateAccountID := λ accountID _ forbidden,
       if bool_decide (accountID ∈ forbidden)
       then Some (ErrorString ("AWS Account ID not allowed: " +:+ accountID))
       else None;
     IsDebugOrHigher := false;
     ProviderVersion := "0.1";
     ssmNew := λ _ _, steadyStore;
     kmsNew := λ _ _, {| DecryptOutput := λ _ _ _, inr "s3cret" |} |}.

Definition exampleRole : gmap string Raw :=
  {[ "role_arn" := VString "arn:aws:iam::111122223333:role/deploy";
     "session_name" := VString "";
     "duration_seconds" := VInt 0;
     "policy_arns" := VSet [VString "arn:aws:iam::aws:policy/ReadOnlyAccess";
                            VNil;
                            VString "arn:aws:iam::aws:policy/AmazonSSMFullAccess"];
     "tags" := VMap {[ "team" := VString "blue"; "cost" := VInt 7 ]} ]}.

Definition exampleProvider : ProviderData :=
  {| access_key := ""; secret_key := ""; profile := "deploy"; token := "";
     region := "us-west-2"; shared_credentials_file := ""; max_retries := 25;
     assume_role := [Some exampleRole];
     allowed_account_ids := ["111122223333"];
     forbidden_account_ids := [] |}.

Definition misplacedProvider : ProviderData :=
  {| access_key := ""; secret_key := ""; profile := ""; token := "";
     region := "mars-north-1"; shared_credentials_file := ""; max_retries := 25;
     assume_role := [];
     allowed_account_ids := [];
     forbidden_account_ids := [] |}.

(** A record as an earlier Read left it after it found the stored value
    changed. *)
Definition markedRecord : ResourceData :=
  {| Id := "/a/b"; IsNewResource := false; name := "/a/b"; description := "";
     tier := "Standard"; type_ := "SecureString";
     encrypted_value := "Outdated sensitive value";
     encryption_key := "alias/k"; arn := ""; data_type := "text";
     overwrite := None; allowed_pattern := ""; version := 3;
     tags := ∅; prior_description := ""; prior_tags := ∅ |}.

(* ------------------------------------------------------------------ *)
(** * Properties of the tag-set model *)

Section TagSets.

(** The result of a filtering range loop binds exactly the kept entries. *)
Lemma rangeInto_lookup {A} (keep : string → A → bool) (m : gmap string A) k :
  rangeInto keep m !! k =
  match m !! k with
  | Some v => if keep k v then Some v else None
  | None => None
  end.
Proof.
  unfold rangeInto.
  apply (map_fold_weak_ind
           (λ (r m : gmap string A),
              r !! k = match m !! k with
                       | Some v => if keep k v then Some v else None
                       | None => None
                       end)).
  - by rewrite !lookup_empty.
  - intros i x m' r Hi IH.
    destruct (decide (i = k)) as [->|Hne].
    + rewrite lookup_insert_eq. rewrite Hi in IH.
      destruct (keep k x); [by rewrite lookup_insert_eq | done].
    + rewrite (lookup_insert_ne m') by done.
      destruct (keep i x); [by rewrite lookup_insert_ne | done].
Qed.

Lemma Removed_lookup (old new : KeyValueTags) k :
  Removed old new !! k =
  match new !! k with Some _ => None | None => old !! k end.
Proof.
  unfold Removed. rewrite rangeInto_lookup.
  destruct (old !! k), (new !! k); done.
Qed.

Lemma Updated_lookup (old new : KeyValueTags) k :
  Updated old new !! k =
  match new !! k with
  | None => None
  | Some newV =>
      match old !! k with
      | None => Some newV
      | Some oldV => if Equal oldV newV then None else Some newV
      end
  end.
Proof.
  unfold Updated. rewrite rangeInto_lookup.
  destruct (new !! k) as [newV|]; [|done].
  destruct (old !! k) as [oldV|]; [|done].
  by destruct (Equal oldV newV).
Qed.

(** [Equal] decides equality of the two (possibly nil) tag data. *)
Lemma Equal_true (a b : option TagData) : Equal a b = true ↔ a = b.
Proof.
  destruct a as [[ab as_ av]|], b as [[bb bs bv]|]; simpl; try done.
  unfold DeepEqual.
  repeat case_bool_decide; simpl; split; intros Heq; try done;
    try (injection Heq; intros; congruence); congruence.
Qed.

Lemma size_pos_nonempty {A} (m : gmap string A) :
  (0 <? size m)%nat = true ↔ m ≠ ∅.
Proof.
  rewrite Nat.ltb_lt. split.
  - intros H ->. rewrite map_size_empty in H. lia.
  - intros H. destruct (size m) eqn:E; [|lia].
    by apply map_size_empty_iff in E.
Qed.

Lemma Removed_same (m : KeyValueTags) : Removed m m = ∅.
Proof.
  apply map_eq. intros k. rewrite Removed_lookup, lookup_empty.
  by destruct (m !! k).
Qed.

Lemma Updated_same (m : KeyValueTags) : Updated m m = ∅.
Proof.
  apply map_eq. intros k. rewrite Updated_lookup, lookup_empty.
  destruct (m !! k) as [v|]; [|done].
  by rewrite (proj2 (Equal_true v v) eq_refl).
Qed.

End TagSets.

Lemma Equal_false_differs (a b : option TagData) :
  Equal a b = false ↔ TagDataDiffers a b.
Proof.
  destruct a as [[ab as_ av]|], b as [[bb bs bv]|]; simpl; try done.
  unfold DeepEqual.
  repeat case_bool_decide; simpl; split; intros Hd; try done; subst;
    try tauto; try (destruct Hd as [Hd|[Hd|Hd]]; congruence).
Qed.

(** C6.  [Removed old new] binds exactly the keys bound in [old] and not in
    [new], to [old]'s values.  [Updated old new] binds exactly the keys of
    [new] that are not in [old] or whose tag data in [old] differs (in the
    value or in one of the two secondary field maps; a nil tag data differs
    from every other), to [new]'s values.  A key bound in both to tag data
    that agree in all three groups is in neither result. *)
Theorem Removed_Updated_exact (old new : KeyValueTags) :
  (∀ k v, Removed old new !! k = Some v ↔ old !! k = Some v ∧ new !! k = None)
  ∧ (∀ k v, Updated old new !! k = Some v ↔
            new !! k = Some v
            ∧ (old !! k = None
               ∨ ∃ oldV, old !! k = Some oldV ∧ TagDataDiffers oldV v))
  ∧ (∀ k oldV newV,
       old !! k = Some oldV ∧ new !! k = Some newV ∧ ¬ TagDataDiffers oldV newV
       ↔ old !! k = Some oldV ∧ new !! k = Some newV
         ∧ Removed old new !! k = None ∧ Updated old new !! k = None).
Proof.
  split; [|split].
  - intros k v. rewrite Removed_lookup.
    destruct (new !! k); naive_solver.
  - intros k v. rewrite Updated_lookup.
    destruct (new !! k) as [newV|]; [|naive_solver].
    destruct (old !! k) as [oldV|]; [|naive_solver].
    destruct (Equal oldV newV) eqn:E.
    + split; [done|]. intros [[= ->] [|[? [[= ->] Hd]]]]; [done|].
      apply Equal_false_differs in Hd. congruence.
    + split.
      * intros [= ->]. split; [done|]. right. exists oldV.
        split; [done|]. by apply Equal_false_differs.
      * by intros [[= ->] _].
  - intros k oldV newV. rewrite Removed_lookup, Updated_lookup.
    split.
    + intros (Ho & Hn & Hd). rewrite Ho, Hn. repeat split; try done.
      destruct (Equal oldV newV) eqn:E; [done|].
      by apply Equal_false_differs in E.
    + intros (Ho & Hn & _ & Hu). rewrite Ho, Hn in Hu.
      repeat split; try done. intros Hd.
      apply Equal_false_differs in Hd. by rewrite Hd in Hu.
Qed.

(* ------------------------------------------------------------------ *)
(** * Which remote calls an operation issues *)

Lemma issuedSince_app (before new : list Call) :
  issuedSince before (before ++ new) = new.
Proof. unfold issuedSince. by rewrite drop_app_length. Qed.

Lemma issuedSince_self (before : list Call) : issuedSince before before = [].
Proof. unfold issuedSince. by rewrite drop_all. Qed.

(** Unfolding one step of a computation. *)
Ltac run :=
  unfold mbind, M_bind, mret, M_ret, remote, issue, setD, getD, orReturn, try,
    withLocal, outer, assign in *;
  simpl in *.

Section TagCalls.
Variable conn : SSM.
Variables identifier resourceType : string.
Variables oldTagsMap newTagsMap : TagsInput.
Variable log0 : list Call.

Let removedTags := Removed (New oldTagsMap) (New newTagsMap).
Let updatedTags := Updated (New oldTagsMap) (New newTagsMap).
Let removeCall :=
  RemoveTagsFromResourceCall identifier resourceType
                             (Keys (IgnoreAws removedTags)).
Let addCall :=
  AddTagsToResourceCall identifier resourceType
                        (SsmTags (IgnoreAws updatedTags)).
Let removeAnswer :=
  RemoveTagsFromResourceOutput conn log0 identifier resourceType
                               (Keys (IgnoreAws removedTags)).

(** The log of [SsmUpdateTags]: at most the remove call, then at most the
    add call, which is skipped when the remove call failed. *)
Lemma SsmUpdateTags_log :
  (SsmUpdateTags conn identifier resourceType oldTagsMap newTagsMap log0).2 =
  log0
  ++ (if (0 <? size removedTags)%nat then [removeCall] else [])
  ++ (if (0 <? size updatedTags)%nat
         && (negb (0 <? size removedTags)%nat
             || bool_decide (removeAnswer = None))
      then [addCall] else []).
Proof.
  unfold SsmUpdateTags, RemoveTagsFromResource, AddTagsToResource.
  fold removedTags updatedTags. run.
  destruct (0 <? size removedTags)%nat eqn:Er; simpl.
  - fold removeAnswer. destruct removeAnswer as [e|] eqn:Ea; simpl.
    + by rewrite andb_false_r.
    + rewrite andb_true_r.
      destruct (0 <? size updatedTags)%nat; simpl.
      * destruct (AddTagsToResourceOutput _ _ _ _ _); simpl;
          by rewrite <- app_assoc.
      * done.
  - rewrite andb_true_r.
    destruct (0 <? size updatedTags)%nat; simpl.
    + by destruct (AddTagsToResourceOutput _ _ _ _ _).
    + by rewrite app_nil_r.
Qed.

Lemma SsmUpdateTags_no_change :
  removedTags = ∅ → updatedTags = ∅ →
  SsmUpdateTags conn identifier resourceType oldTagsMap newTagsMap log0
  = (None, log0).
Proof.
  intros Hr Hu. unfold SsmUpdateTags. fold removedTags updatedTags.
  rewrite Hr, Hu. by rewrite map_size_empty.
Qed.

End TagCalls.

(** C10, as the code has it.  [SsmUpdateTags] issues the remove-tags call
    exactly when [Removed old new] is not empty, and the add-tags call
    exactly when [Updated old new] is not empty and the remove-tags call,
    if there was one, did not fail (a failed removal returns at once); both
    emptiness tests look at the tags before the [aws:] keys are stripped,
    which the calls then carry without them.  With equal old and new tags it
    issues no call and returns nil. *)
Theorem SsmUpdateTags_calls (conn : SSM) (identifier resourceType : string)
    (oldTagsMap newTagsMap : TagsInput) (log0 : list Call) :
  let removedTags := Removed (New oldTagsMap) (New newTagsMap) in
  let updatedTags := Updated (New oldTagsMap) (New newTagsMap) in
  let result :=
    SsmUpdateTags conn identifier resourceType oldTagsMap newTagsMap log0 in
  let issued := issuedSince log0 result.2 in
  (existsb isRemoveTagsCall issued = true ↔ removedTags ≠ ∅)
  ∧ (existsb isAddTagsCall issued = true ↔
       updatedTags ≠ ∅
       ∧ (removedTags = ∅
          ∨ RemoveTagsFromResourceOutput conn log0 identifier resourceType
              (Keys (IgnoreAws removedTags)) = None))
  ∧ (New oldTagsMap = New newTagsMap → result = (None, log0))
  ∧ Forall (λ c, c = RemoveTagsFromResourceCall identifier resourceType
                       (Keys (IgnoreAws removedTags))
                 ∨ c = AddTagsToResourceCall identifier resourceType
                         (SsmTags (IgnoreAws updatedTags)))
           issued.
Proof.
  intros removedTags updatedTags result issued.
  assert (Hlog := SsmUpdateTags_log conn identifier resourceType
                    oldTagsMap newTagsMap log0).
  fold removedTags updatedTags result in Hlog.
  unfold issued. rewrite Hlog, issuedSince_app. clear Hlog.
  pose proof (size_pos_nonempty removedTags) as Hr.
  pose proof (size_pos_nonempty updatedTags) as Hu.
  split; [|split; [|split]]; cycle 3.
  { apply Forall_app. split.
    - destruct (0 <? size removedTags)%nat; [|constructor].
      constructor; [by left | constructor].
    - destruct (_ && _); [|constructor].
      constructor; [by right | constructor]. }
  - destruct (0 <? size removedTags)%nat; simpl.
    + split; [intros _; by apply Hr | done].
    + destruct (_ && _); simpl; split; try done; intros Hne;
        by apply Hr in Hne.
  - destruct (0 <? size removedTags)%nat eqn:Er; simpl.
    + destruct (0 <? size updatedTags)%nat; simpl.
      * case_bool_decide as Ha; simpl.
        -- split; [intros _|done]. split; [by apply Hu | by right].
        -- split; [done|]. intros [_ [He|Hn]]; [|done].
           assert (removedTags ≠ ∅) by by apply Hr. done.
      * split; [done|]. intros [Hne _]. by apply Hu in Hne.
    + assert (removedTags = ∅) as He.
      { destruct (decide (removedTags = ∅)) as [|Hne]; [done|].
        by apply Hr in Hne. }
      destruct (0 <? size updatedTags)%nat; simpl.
      * split; [intros _|done]. split; [by apply Hu | by left].
      * split; [done|]. intros [Hne _]. by apply Hu in Hne.
  - intros Heq. unfold result. apply SsmUpdateTags_no_change.
    + rewrite Heq. apply Removed_same.
    + rewrite Heq. apply Updated_same.
Qed.

Lemma SsmUpdateTags_calls_witness :
  New (MapString {[ "team" := "blue" ]}) = New retagOld
  ∧ SsmUpdateTags accepting "/a/b" "Parameter"
      (MapString {[ "team" := "blue" ]}) retagOld []
    = (None, []).
Proof.
  split; [reflexivity|].
  exact (proj1 (proj2 (proj2 (SsmUpdateTags_calls accepting "/a/b" "Parameter"
                                (MapString {[ "team" := "blue" ]}) retagOld [])))
               eq_refl).
Defined.

(** C10 as stated fails: when the remove-tags call is rejected, the add-tags
    call is not issued although [Updated old new] is not empty. *)
Lemma SsmUpdateTags_add_skipped_after_failed_remove :
  let result :=
    SsmUpdateTags (rejecting (AwsError "AccessDeniedException" "denied"))
                  "/a/b" "Parameter" retagOld retagNew [] in
  Updated (New retagOld) (New retagNew) ≠ ∅
  ∧ existsb isAddTagsCall (issuedSince [] result.2) = false
  ∧ ¬ (existsb isAddTagsCall (issuedSince [] result.2) = true
       ↔ Updated (New retagOld) (New retagNew) ≠ ∅).
Proof.
  assert (Updated (New retagOld) (New retagNew) ≠ ∅) as Hne.
  { intros He.
    assert (Updated (New retagOld) (New retagNew) !! "owner" = None) as Hl
      by (rewrite He; apply lookup_empty).
    vm_compute in Hl. discriminate Hl. }
  assert (existsb isAddTagsCall
            (issuedSince []
               (SsmUpdateTags (rejecting (AwsError "AccessDeniedException" "denied"))
                  "/a/b" "Parameter" retagOld retagNew []).2) = false) as Hno
    by (vm_compute; reflexivity).
  simpl. split; [done|]. split; [done|].
  intros [_ Hiff]. rewrite Hno in Hiff. specialize (Hiff Hne). discriminate.
Qed.

(* ------------------------------------------------------------------ *)
(** * Read: the fetch and its retries *)

Section ReadFetch.
Variable clock : resource.Clock.
Variable meta : AWSClient.
Variable d : ResourceData.
Variable input : ssm.GetParameterInput.t.

(** One run of the callback: one fetch, its response kept, its error
    classified. *)
Lemma readAttempt_step (l : option ssm.Parameter_.t) (s : Session) :
  let answer := GetParameterOutput (ssmconn meta) (log s) input in
  readAttempt meta d input (l, s) =
  (match errOf answer with
   | None => None
   | Some err =>
       if retryable d (Some err)
       then Some (resource.RetryableError (afterCreationError d))
       else Some (resource.NonRetryableError err)
   end,
   (respOf answer, logged s [GetParameterCall input])).
Proof.
  unfold readAttempt, GetParameter, retryable, afterCreationError, logged.
  run. destruct (GetParameterOutput _ _ _) as [e|p]; simpl; [|done].
  by destruct (_ && _ && _).
Qed.

(** The loop only fetches: it leaves the record alone and logs between one
    and [runs + 1] fetches; a nil error comes with a response. *)
Lemma retryLoop_readAttempt (deadline : error → error) (runs : nat)
    (l : option ssm.Parameter_.t) (s : Session) :
  ∃ n err resp,
    resource.retryLoop deadline runs (readAttempt meta d input) (l, s)
    = (err, (resp, logged s (replicate (S n) (GetParameterCall input))))
    ∧ n ≤ runs
    ∧ (err = None → is_Some resp).
Proof.
  revert l s. induction runs as [|runs IH]; intros l s; simpl;
    rewrite readAttempt_step;
    destruct (GetParameterOutput _ _ _) as [e|p]; simpl.
  - destruct (retryable d (Some e)); exists 0; eexists _, _;
      (split; [reflexivity|]); split; done.
  - exists 0; eexists _, _; (split; [reflexivity|]); split; eauto.
  - destruct (retryable d (Some e)).
    + destruct (IH None (logged s [GetParameterCall input]))
        as (n & err & resp & Heq & Hn & Hr).
      exists (S n), err, resp. rewrite Heq. split; [|split; [lia|done]].
      unfold logged; simpl. by rewrite <- app_assoc.
    + exists 0; eexists _, _; (split; [reflexivity|]); split; [lia|done].
  - exists 0; eexists _, _; (split; [reflexivity|]); split; [lia|eauto].
Qed.

(** A fetch error that does not ask for a retry ends the loop at once,
    whatever is left of the window. *)
Lemma retryLoop_stops (deadline : error → error) (runs : nat)
    (l : option ssm.Parameter_.t) (s : Session) (err : error) :
  GetParameterOutput (ssmconn meta) (log s) input = inl err →
  retryable d (Some err) = false →
  resource.retryLoop deadline runs (readAttempt meta d input) (l, s)
  = (Some err, (None, logged s [GetParameterCall input])).
Proof.
  intros Ha Hr. destruct runs; simpl; rewrite readAttempt_step, Ha; simpl;
    by rewrite Hr.
Qed.

(** A fetch error that asks for a retry gets one while the window is open. *)
Lemma retryLoop_goes_on (deadline : error → error) (runs : nat)
    (l : option ssm.Parameter_.t) (s : Session) (err : error) :
  GetParameterOutput (ssmconn meta) (log s) input = inl err →
  retryable d (Some err) = true →
  resource.retryLoop deadline (S runs) (readAttempt meta d input) (l, s)
  = resource.retryLoop deadline runs (readAttempt meta d input)
      (None, logged s [GetParameterCall input]).
Proof.
  intros Ha Hr. simpl. rewrite readAttempt_step, Ha. simpl. by rewrite Hr.
Qed.

(** A successful fetch ends the loop as well. *)
Lemma retryLoop_found (deadline : error → error) (runs : nat)
    (l : option ssm.Parameter_.t) (s : Session) (p : ssm.Parameter_.t) :
  GetParameterOutput (ssmconn meta) (log s) input = inr p →
  resource.retryLoop deadline runs (readAttempt meta d input) (l, s)
  = (None, (Some p, logged s [GetParameterCall input])).
Proof.
  intros Ha. destruct runs; simpl; by rewrite readAttempt_step, Ha.
Qed.

(** While every fetch asks for a retry the loop runs to the end of the
    window, and ends with what the SDK reports at the deadline. *)
Lemma retryLoop_exhausted (deadline : error → error) (runs : nat)
    (l : option ssm.Parameter_.t) (s : Session) :
  (∀ log, ∃ err, GetParameterOutput (ssmconn meta) log input = inl err
                 ∧ retryable d (Some err) = true) →
  resource.retryLoop deadline runs (readAttempt meta d input) (l, s)
  = (Some (deadline (afterCreationError d)),
     (None, logged s (replicate (S runs) (GetParameterCall input)))).
Proof.
  intros Hall. revert l s. induction runs as [|runs IH]; intros l s; simpl;
    rewrite readAttempt_step; destruct (Hall (log s)) as (err & -> & Hr);
    simpl; rewrite Hr; [done|].
  rewrite IH. unfold logged; simpl. by rewrite <- app_assoc.
Qed.

(** The whole fetch: the loop, then the last fetch after a timeout. *)
Lemma readFetch_after_loop (s : Session) :
  let loop := withLocal None
                (resource.Retry clock ssmParameterCreationValidationTimeout
                                (readAttempt meta d input)) s in
  let answer := GetParameterOutput (ssmconn meta) (log loop.2) input in
  readFetch clock meta d input s =
  if isResourceTimeoutError loop.1.1
  then ((respOf answer, errOf answer), logged loop.2 [GetParameterCall input])
  else ((loop.1.2, loop.1.1), loop.2).
Proof.
  unfold readFetch, GetParameter, logged. run.
  destruct (resource.Retry _ _ _ _) as [err [resp s1]]. simpl.
  destruct (isResourceTimeoutError err); [|done].
  by destruct (GetParameterOutput _ _ _).
Qed.

Lemma readFetch_frame (s : Session) :
  ∃ n resp err,
    readFetch clock meta d input s
    = ((resp, err), logged s (replicate (S n) (GetParameterCall input)))
    ∧ (err = None → is_Some resp).
Proof.
  rewrite readFetch_after_loop. unfold withLocal, resource.Retry.
  destruct (retryLoop_readAttempt (resource.atDeadline clock)
              (resource.furtherRuns clock ssmParameterCreationValidationTimeout)
              None s) as (n & err & resp & Heq & _ & Hr).
  rewrite Heq. simpl.
  destruct (isResourceTimeoutError err).
  - exists (S n). eexists _, _. split.
    + unfold logged; simpl. rewrite <- app_assoc. simpl.
      by rewrite <- (replicate_cons_app n).
    + destruct (GetParameterOutput _ _ _); simpl; [done|eauto].
  - exists n, resp, err. done.
Qed.

End ReadFetch.

(* ------------------------------------------------------------------ *)
(** * Read: what is observed *)

Lemma lookup_calls_not_fetch (calls : list Call) :
  Forall (λ c, isLookupCall c = true) calls →
  List.filter isGetParameterCall calls = [].
Proof.
  induction 1 as [|c calls Hc _ IH]; [done|]. simpl.
  by destruct c.
Qed.

Lemma lookup_calls_read_only (calls : list Call) :
  Forall (λ c, isLookupCall c = true) calls →
  Forall (λ c, isReadOnlyCall c = true) calls.
Proof. intros H. eapply Forall_impl; [exact H|]. by intros []. Qed.

Section ReadObserve.
Variable clock : resource.Clock.
Variable meta : AWSClient.

(** The last part of Read leaves [encrypted_value] alone and issues only
    the describe call and the tag listing. *)
Lemma readDescribe_frame (param : ssm.Parameter_.t) (name : string)
    (s : Session) :
  let result := readDescribe meta param name s in
  encrypted_value (rd result.2) = encrypted_value (rd s)
  ∧ ∃ calls, log result.2 = log s ++ calls
             ∧ Forall (λ c, isLookupCall c = true) calls.
Proof.
  unfold readDescribe, DescribeParameters, SsmListTags, ListTagsForResource.
  run.
  destruct (DescribeParametersOutput _ _ _) as [e|[[|[detail|] rest]|]];
    simpl; try (split; [done|]; eexists [_]; split; [done|]; by repeat constructor).
  destruct (ssm.ParameterMetadata.Tier detail); simpl;
    destruct (ListTagsForResourceOutput _ _ _ _); simpl;
    (split; [done|]; eexists [_; _]; rewrite <- app_assoc; split; [done|];
     by repeat constructor).
Qed.

(** A describe answer with no first record clears the id and ends Read
    without an error, and without a further call. *)
Lemma readDescribe_no_match (param : ssm.Parameter_.t) (name : string)
    (s : Session) out :
  DescribeParametersOutput (ssmconn meta) (log s) (describeFilter name)
  = inr out →
  noMatch out = true →
  readDescribe meta param name s
  = (None, {| rd := SetId "" (rd s);
              log := log s ++ [DescribeParametersCall (describeFilter name)] |}).
Proof.
  intros Ha Hn. unfold readDescribe, DescribeParameters. run.
  fold (describeFilter name). rewrite Ha. simpl.
  by destruct out as [[|[detail|] rest]|].
Qed.

(** The middle part of Read. *)
Lemma readCompare_frame (d : ResourceData) (param : ssm.Parameter_.t)
    (s : Session) :
  let result := readCompare meta d param s in
  (encrypted_value (rd result.2) = encrypted_value (rd s)
   ∨ encrypted_value (rd result.2) = encrypted_value d
   ∨ encrypted_value (rd result.2) = OutdatedSensitiveValue)
  ∧ ∃ calls, log result.2 = log s ++ calls
             ∧ Forall (λ c, isLookupCall c = true) calls.
Proof.
  unfold readCompare, kmsDecrypt. run.
  destruct (base64.DecodeString _) as [e|blob]; simpl.
  { split; [by left|]. exists []. by rewrite app_nil_r. }
  destruct (DecryptOutput _ _ _ _) as [e|Plaintext]; simpl.
  { split; [by left|]. eexists [_]. split; [done|]. by repeat constructor. }
  match goal with
  | |- context [readDescribe meta param ?n ?s'] =>
      destruct (readDescribe_frame param n s') as (He & calls & Hl & Hc)
  end.
  simpl in *. split.
  - rewrite He. right. case_bool_decide; [by left | by right].
  - rewrite Hl. eexists (_ :: calls). rewrite <- app_assoc. split; [done|].
    by constructor.
Qed.

Lemma readResolve_frame (d : ResourceData) resp err (s : Session) :
  let result := readResolve meta d resp err s in
  (encrypted_value (rd result.2) = encrypted_value (rd s)
   ∨ encrypted_value (rd result.2) = encrypted_value d
   ∨ encrypted_value (rd result.2) = OutdatedSensitiveValue)
  ∧ ∃ calls, log result.2 = log s ++ calls
             ∧ Forall (λ c, isLookupCall c = true) calls.
Proof.
  unfold readResolve. run.
  destruct (_ && _); simpl.
  { split; [by left|]. exists []. by rewrite app_nil_r. }
  destruct err as [e|]; simpl.
  { split; [by left|]. exists []. by rewrite app_nil_r. }
  destruct resp as [param|]; simpl.
  - apply readCompare_frame.
  - split; [by left|]. exists []. by rewrite app_nil_r.
Qed.

(** Read as a whole: a number of fetches, then lookups; none of them
    changes the remote store. *)
Lemma Read_frame (s : Session) :
  let result := resourceAwsSsmParameterRead clock meta s in
  (encrypted_value (rd result.2) = encrypted_value (rd s)
   ∨ encrypted_value (rd result.2) = OutdatedSensitiveValue)
  ∧ ∃ calls, log result.2 = log s ++ calls
             ∧ Forall (λ c, isReadOnlyCall c = true) calls.
Proof.
  unfold resourceAwsSsmParameterRead. run.
  destruct (readFetch_frame clock meta (rd s) (readInput (rd s)) s)
    as (n & resp & err & Hf & _).
  rewrite Hf.
  destruct (readResolve_frame (rd s) resp err
              (logged s (replicate (S n) (GetParameterCall (readInput (rd s))))))
    as (He & calls & Hl & Hc).
  simpl in *. split; [tauto|].
  rewrite Hl. rewrite <- app_assoc. eexists. split; [done|].
  apply Forall_app. split.
  - constructor; [done|]. by apply Forall_replicate.
  - by apply lookup_calls_read_only.
Qed.

End ReadObserve.

Lemma Contains_empty (s : string) : Contains s "" = true.
Proof. by destruct s. Qed.

Lemma isAWSErr_not_found (message : string) :
  isAWSErr (Some (AwsError "ParameterNotFound" message))
           ssm.ErrCodeParameterNotFound "" = true.
Proof. simpl. by rewrite Contains_empty. Qed.

Lemma isAWSErr_inv (err : option error) (code message : string) :
  isAWSErr err code message = true →
  ∃ m, err = Some (AwsError code m) ∧ Contains m message = true.
Proof.
  destruct err as [[c m| | |]|]; simpl; try done.
  intros [Hc Hm]%andb_true_iff. apply bool_decide_eq_true in Hc as ->. eauto.
Qed.

(** The three conditions of the callback, spelled out. *)
Lemma retryable_iff (d : ResourceData) (err : error) :
  retryable d (Some err) = true ↔
  (∃ message, err = AwsError "ParameterNotFound" message)
  ∧ IsNewResource d = true
  ∧ data_type d = "aws:ec2:image".
Proof.
  unfold retryable. rewrite !andb_true_iff, bool_decide_eq_true. split.
  - intros [[Ha Hn] Hd]. apply isAWSErr_inv in Ha as (m & [= ->] & _). eauto.
  - intros [[m ->] [Hn Hd]]. by rewrite isAWSErr_not_found.
Qed.

(* ------------------------------------------------------------------ *)
(** * Read: retries and the last fetch *)

(** C8.  A fetch error asks for a retry only when it is the not-found error,
    the record is new, and its declared [data_type] is ["aws:ec2:image"]: the
    callback then returns a retryable error, and the loop fetches again
    while the window, of two minutes, is open.  Any other fetch error is
    non-retryable and ends the loop with that error after this one fetch,
    whatever is left of the window. *)
Theorem Read_retry_only_new_image_not_found (clock : resource.Clock)
    (meta : AWSClient) (d : ResourceData) (resp : option ssm.Parameter_.t)
    (s : Session) (err : error) :
  let input := readInput d in
  let attempt := readAttempt meta d input (resp, s) in
  let loop := resource.Retry clock ssmParameterCreationValidationTimeout
                (readAttempt meta d input) (resp, s) in
  let threeConditions :=
    (∃ message, err = AwsError "ParameterNotFound" message)
    ∧ IsNewResource d = true
    ∧ data_type d = "aws:ec2:image" in
  GetParameterOutput (ssmconn meta) (log s) input = inl err →
  (threeConditions →
     attempt.1 = Some (resource.RetryableError (afterCreationError d))
     ∧ ∀ runs,
         resource.furtherRuns clock ssmParameterCreationValidationTimeout
         = S runs →
         loop = resource.retryLoop (resource.atDeadline clock) runs
                  (readAttempt meta d input)
                  (None, logged s [GetParameterCall input]))
  ∧ (¬ threeConditions →
     attempt.1 = Some (resource.NonRetryableError err)
     ∧ loop = (Some err, (None, logged s [GetParameterCall input])))
  ∧ ssmParameterCreationValidationTimeout = (120 * 1000000000)%Z.
Proof.
  intros input attempt loop threeConditions Ha.
  pose proof (retryable_iff d err) as Hiff. fold threeConditions in Hiff.
  unfold attempt, loop, resource.Retry.
  rewrite readAttempt_step, Ha. simpl.
  split; [|split; [|reflexivity]].
  - intros Hc%Hiff. rewrite Hc. split; [done|].
    intros runs ->. by eapply retryLoop_goes_on.
  - intros Hc. assert (retryable d (Some err) = false) as Hr.
    { destruct (retryable d (Some err)); [|done]. exfalso. by apply Hc, Hiff. }
    rewrite Hr. split; [done|]. by eapply retryLoop_stops.
Qed.

Lemma fetches_replicate (n : nat) (input : ssm.GetParameterInput.t) :
  List.filter isGetParameterCall (replicate n (GetParameterCall input))
  = replicate n (GetParameterCall input).
Proof. induction n as [|n IH]; simpl; [done|by rewrite IH]. Qed.

(** Read with a fetch error that is not a not-found on a managed record. *)
Lemma readResolve_error (meta : AWSClient) (d : ResourceData)
    (resp : option ssm.Parameter_.t) (err : error) (s : Session) :
  isAWSErr (Some err) ssm.ErrCodeParameterNotFound "" && negb (IsNewResource d)
  = false →
  readResolve meta d resp (Some err) s
  = (Some (WrapError ("error reading SSM Parameter (" +:+ Id d +:+ "): "
                      +:+ Error err) err), s).
Proof. intros Hn. unfold readResolve. by rewrite Hn. Qed.

(** C3, amended.  Read fetches once more after the retry loop exactly when
    [resource.Retry] comes back with a timeout error that carries no last
    error: it then issues exactly one more fetch with the same request and
    goes on with the outcome of that fetch alone.  In every other case it
    fetches no more and goes on with the outcome of the loop.  For a loop
    that the window exhausts, every fetch asking for a retry, this means:
    the loop ends after [furtherRuns + 1] fetches with what the SDK reports
    at the deadline.  When that is the timeout error without a last error,
    Read issues one more fetch, [furtherRuns + 2] in all, and returns the
    error of that fetch.  When it is anything else, as when the SDK hands
    back the last error of the callback, Read issues no further fetch and
    returns the reported error; in both cases the error is wrapped with the
    record's id and the record is left as it was. *)
Theorem Read_last_chance_fetch (clock : resource.Clock) (meta : AWSClient)
    (s : Session) :
  let d := rd s in
  let input := readInput d in
  let loop := withLocal None
                (resource.Retry clock ssmParameterCreationValidationTimeout
                                (readAttempt meta d input)) s in
  let answer := GetParameterOutput (ssmconn meta) (log loop.2) input in
  let result := resourceAwsSsmParameterRead clock meta s in
  let fetches :=
    List.filter isGetParameterCall (issuedSince (log s) (log result.2)) in
  let runs := resource.furtherRuns clock ssmParameterCreationValidationTimeout in
  let reported := resource.atDeadline clock (afterCreationError d) in
  let wrapped (err : error) :=
    WrapError ("error reading SSM Parameter (" +:+ Id d +:+ "): "
               +:+ Error err) err in
  (isResourceTimeoutError loop.1.1 = true →
     result = readResolve meta d (respOf answer) (errOf answer)
                (logged loop.2 [GetParameterCall input])
     ∧ List.filter isGetParameterCall (issuedSince (log loop.2) (log result.2))
       = [GetParameterCall input])
  ∧ (isResourceTimeoutError loop.1.1 = false →
     result = readResolve meta d loop.1.2 loop.1.1 loop.2
     ∧ List.filter isGetParameterCall (issuedSince (log loop.2) (log result.2))
       = [])
  ∧ ((∀ log, ∃ err, GetParameterOutput (ssmconn meta) log input = inl err
                    ∧ retryable d (Some err) = true) →
     loop.1.1 = Some reported
     ∧ log loop.2 = log s ++ replicate (S runs) (GetParameterCall input)
     ∧ (isResourceTimeoutError (Some reported) = true →
        ∃ err, answer = inl err
               ∧ result = (Some (wrapped err),
                           logged loop.2 [GetParameterCall input])
               ∧ fetches = replicate (S (S runs)) (GetParameterCall input))
     ∧ (isResourceTimeoutError (Some reported) = false →
        result = (Some (wrapped reported), loop.2)
        ∧ fetches = replicate (S runs) (GetParameterCall input))).
Proof.
  intros d input loop answer result fetches runs reported wrapped.
  assert (result = let fetch := readFetch clock meta d input s in
                   readResolve meta d fetch.1.1 fetch.1.2 fetch.2) as Hres.
  { unfold result, resourceAwsSsmParameterRead. run. fold d input.
    by destruct (readFetch clock meta d input s) as [[resp err] s1]. }
  rewrite readFetch_after_loop in Hres. fold loop answer in Hres.
  assert (isResourceTimeoutError loop.1.1 = true →
          result = readResolve meta d (respOf answer) (errOf answer)
                     (logged loop.2 [GetParameterCall input])
          ∧ List.filter isGetParameterCall
              (issuedSince (log loop.2) (log result.2))
            = [GetParameterCall input]) as Hlast.
  { intros Ht. rewrite Ht in Hres. simpl in Hres. split; [done|]. rewrite Hres.
    destruct (readResolve_frame meta d (respOf answer) (errOf answer)
                (logged loop.2 [GetParameterCall input]))
      as (_ & calls & Hl & Hc).
    simpl in Hl. rewrite Hl, <- app_assoc, issuedSince_app. simpl.
    by rewrite (lookup_calls_not_fetch calls Hc). }
  assert (isResourceTimeoutError loop.1.1 = false →
          result = readResolve meta d loop.1.2 loop.1.1 loop.2
          ∧ List.filter isGetParameterCall
              (issuedSince (log loop.2) (log result.2))
            = []) as Hnone.
  { intros Ht. rewrite Ht in Hres. simpl in Hres. split; [done|]. rewrite Hres.
    destruct (readResolve_frame meta d loop.1.2 loop.1.1 loop.2)
      as (_ & calls & Hl & Hc).
    simpl in Hl. rewrite Hl, issuedSince_app.
    by apply lookup_calls_not_fetch. }
  split; [exact Hlast|]. split; [exact Hnone|]. clear Hres.
  intros Hall.
  assert (loop = ((Some reported, None),
                  logged s (replicate (S runs) (GetParameterCall input))))
    as Hloop.
  { unfold loop, withLocal, resource.Retry.
    by rewrite (retryLoop_exhausted meta d input _ _ None s Hall). }
  assert (∀ err, retryable d (Some err) = true →
                 isAWSErr (Some err) ssm.ErrCodeParameterNotFound ""
                 && negb (IsNewResource d) = false) as Hnew.
  { intros err Hr. unfold retryable in Hr.
    apply andb_prop in Hr as [[_ Hn]%andb_prop _]. rewrite Hn. simpl.
    apply andb_false_r. }
  assert (loop.1.1 = Some reported) as H1 by (by rewrite Hloop).
  assert (log loop.2 = log s ++ replicate (S runs) (GetParameterCall input))
    as H2 by (by rewrite Hloop).
  assert (rd loop.2 = d) as H3 by (by rewrite Hloop).
  split; [exact H1|]. split; [exact H2|]. split; intros Ht.
  - rewrite <- H1 in Ht. destruct (Hlast Ht) as [Hr _].
    destruct (Hall (log loop.2)) as (err & Ha & Hre). fold answer in Ha.
    exists err. split; [exact Ha|].
    rewrite Ha in Hr. simpl in Hr.
    rewrite (readResolve_error meta d None err _ (Hnew err Hre)) in Hr.
    split; [exact Hr|].
    unfold fetches. rewrite Hr. cbn [snd logged log]. rewrite H2.
    rewrite <- app_assoc, issuedSince_app, <- replicate_cons_app.
    apply (fetches_replicate (S (S runs))).
  - rewrite <- H1 in Ht. destruct (Hnone Ht) as [Hr _].
    assert (isAWSErr (Some reported) ssm.ErrCodeParameterNotFound ""
            && negb (IsNewResource d) = false) as Hn.
    { destruct (Hall []) as (err & _ & Hre).
      unfold retryable in Hre.
      apply andb_prop in Hre as [[_ Hn]%andb_prop _]. rewrite Hn. simpl.
      apply andb_false_r. }
    rewrite H1 in Hr.
    rewrite (readResolve_error meta d _ reported _ Hn) in Hr.
    split; [exact Hr|].
    unfold fetches. rewrite Hr. cbn [snd]. rewrite H2, issuedSince_app.
    apply (fetches_replicate (S runs)).
Qed.

Lemma Read_retry_only_new_image_not_found_witness :
  resource.Retry timeoutClock ssmParameterCreationValidationTimeout
    (readAttempt goneClient managedRecord (readInput managedRecord))
    (None, {| rd := managedRecord; log := [] |})
  = (Some (AwsError "ParameterNotFound" "Parameter /a/b not found."),
     (None, {| rd := managedRecord;
               log := [GetParameterCall (readInput managedRecord)] |})).
Proof.
  refine (proj2 (proj1 (proj2
            (Read_retry_only_new_image_not_found timeoutClock goneClient
               managedRecord None {| rd := managedRecord; log := [] |}
               (AwsError "ParameterNotFound" "Parameter /a/b not found.")
               eq_refl)) _)).
  intros (_ & Hnew & _). discriminate Hnew.
Defined.

Lemma Read_last_chance_fetch_witness :
  let s := {| rd := imageRecord; log := [] |} in
  let fetch := GetParameterCall (readInput imageRecord) in
  List.filter isGetParameterCall
    (log (resourceAwsSsmParameterRead timeoutClock goneClient s).2)
  = replicate 4 fetch
  ∧ List.filter isGetParameterCall
      (log (resourceAwsSsmParameterRead lastErrorClock goneClient s).2)
    = replicate 3 fetch.
Proof.
  assert (∀ log, ∃ err,
            GetParameterOutput (ssmconn goneClient) log (readInput imageRecord)
            = inl err
            ∧ retryable imageRecord (Some err) = true) as Hall
    by (intros l; eexists; split; reflexivity).
  split.
  - destruct (proj2 (proj2 (Read_last_chance_fetch timeoutClock goneClient
                              {| rd := imageRecord; log := [] |})) Hall)
      as (_ & _ & Ht & _).
    destruct (Ht eq_refl) as (err & _ & _ & Hf). exact Hf.
  - destruct (proj2 (proj2 (Read_last_chance_fetch lastErrorClock goneClient
                              {| rd := imageRecord; log := [] |})) Hall)
      as (_ & _ & _ & Hn).
    exact (proj2 (Hn eq_refl)).
Defined.

(** C3 as stated fails when the SDK hands back the last error of the
    callback at the deadline: every one of the three fetches the window
    allows asks for a retry, the loop ends with the callback's error, and
    Read issues no fourth fetch before it returns that error. *)
Lemma Read_exhausted_window_without_last_fetch :
  let s := {| rd := imageRecord; log := [] |} in
  let input := readInput imageRecord in
  let loop := resource.Retry lastErrorClock
                ssmParameterCreationValidationTimeout
                (readAttempt goneClient imageRecord input) (None, s) in
  let result := resourceAwsSsmParameterRead lastErrorClock goneClient s in
  (∀ resp log,
     (readAttempt goneClient imageRecord input
        (resp, {| rd := imageRecord; log := log |})).1
     = Some (resource.RetryableError (afterCreationError imageRecord)))
  ∧ loop = (Some (afterCreationError imageRecord),
            (None, {| rd := imageRecord;
                      log := replicate 3 (GetParameterCall input) |}))
  ∧ log result.2 = replicate 3 (GetParameterCall input)
  ∧ result.1
    = Some (WrapError
        "error reading SSM Parameter (/ami/latest): error reading SSM Parameter (/ami/latest) after creation: this can indicate that the provided parameter value could not be validated by SSM"
        (afterCreationError imageRecord)).
Proof.
  cbv zeta. split; [intros resp l; reflexivity|].
  split; [vm_compute; reflexivity|].
  split; vm_compute; reflexivity.
Qed.

Section ReadOutcome.
Variable clock : resource.Clock.
Variable meta : AWSClient.

(** Read, once its fetch has brought back an entry. *)
Lemma Read_fetched (s : Session) (param : ssm.Parameter_.t) :
  let fetch := readFetch clock meta (rd s) (readInput (rd s)) s in
  fetch.1 = (Some param, None) →
  resourceAwsSsmParameterRead clock meta s
  = readCompare meta (rd s) param (logged s (issuedSince (log s) (log fetch.2))).
Proof.
  intros fetch Hf. unfold resourceAwsSsmParameterRead. run.
  destruct (readFetch_frame clock meta (rd s) (readInput (rd s)) s)
    as (n & resp & err & Heq & _).
  unfold fetch in *. rewrite Heq in *. simpl in Hf. injection Hf as -> ->.
  unfold readResolve. simpl. unfold logged at 2. simpl.
  by rewrite issuedSince_app.
Qed.

Lemma readFetch_record (s : Session) :
  let fetch := readFetch clock meta (rd s) (readInput (rd s)) s in
  fetch.2 = logged s (issuedSince (log s) (log fetch.2)).
Proof.
  destruct (readFetch_frame clock meta (rd s) (readInput (rd s)) s)
    as (n & resp & err & Heq & _).
  simpl. rewrite Heq. simpl. unfold logged at 2. simpl.
  by rewrite issuedSince_app.
Qed.

(** The comparison itself, with the decoded blob and the plaintext. *)
Lemma readCompare_decrypted (d : ResourceData) (param : ssm.Parameter_.t)
    (s : Session) (blob Plaintext : string) :
  base64.DecodeString (encrypted_value d) = inr blob →
  DecryptOutput (kmsconn meta) (log s) (encryption_key d) blob = inr Plaintext →
  readCompare meta d param s
  = readDescribe meta param (ssm.Parameter_.Name param)
      {| rd := Set_version (default 0%Z (ssm.Parameter_.Version param))
                 (Set_encrypted_value
                    (if bool_decide (Plaintext = ssm.Parameter_.Value param)
                     then encrypted_value d else OutdatedSensitiveValue)
                    (Set_type (default "" (ssm.Parameter_.Type_ param))
                       (Set_name (ssm.Parameter_.Name param) (rd s))));
         log := log s ++ [DecryptCall (encryption_key d) blob] |}.
Proof.
  intros Hd Hk. unfold readCompare, kmsDecrypt. run. by rewrite Hd, Hk.
Qed.

Lemma readCompare_undecryptable (d : ResourceData) (param : ssm.Parameter_.t)
    (s : Session) (blob : string) (err : error) :
  base64.DecodeString (encrypted_value d) = inr blob →
  DecryptOutput (kmsconn meta) (log s) (encryption_key d) blob = inl err →
  readCompare meta d param s
  = (Some (ErrorString ("Error decrypting with KMS: " +:+ Error err)),
     logged s [DecryptCall (encryption_key d) blob]).
Proof.
  intros Hd Hk. unfold readCompare, kmsDecrypt. run. by rewrite Hd, Hk.
Qed.

(** A managed entry that the store no longer has: Read forgets it. *)
Lemma Read_gone (s : Session) (message : string) :
  IsNewResource (rd s) = false →
  GetParameterOutput (ssmconn meta) (log s) (readInput (rd s))
  = inl (AwsError "ParameterNotFound" message) →
  resourceAwsSsmParameterRead clock meta s
  = (None, {| rd := SetId "" (rd s);
              log := log s ++ [GetParameterCall (readInput (rd s))] |}).
Proof.
  intros Hn Ha.
  assert (retryable (rd s) (Some (AwsError "ParameterNotFound" message)) = false)
    as Hr by (unfold retryable; rewrite Hn; by rewrite andb_false_r).
  unfold resourceAwsSsmParameterRead. run.
  rewrite readFetch_after_loop. unfold withLocal, resource.Retry.
  rewrite (retryLoop_stops meta (rd s) (readInput (rd s)) _ _ None s _ Ha Hr).
  simpl. unfold readResolve. rewrite isAWSErr_not_found, Hn. simpl. by run.
Qed.

(** While every fetch answers not-found, the loop ends with an error. *)
Lemma retryLoop_never_found (d : ResourceData) (deadline : error → error)
    (runs : nat) (l : option ssm.Parameter_.t) (s : Session) :
  (∀ log, ∃ message,
      GetParameterOutput (ssmconn meta) log (readInput d)
      = inl (AwsError "ParameterNotFound" message)) →
  is_Some (resource.retryLoop deadline runs
             (readAttempt meta d (readInput d)) (l, s)).1.
Proof.
  intros Hnf. revert l s. induction runs as [|runs IH]; intros l s; simpl;
    rewrite readAttempt_step; destruct (Hnf (log s)) as [m ->]; simpl;
    destruct (retryable d _); simpl; eauto.
Qed.

Lemma readFetch_never_found (s : Session) :
  (∀ log, ∃ message,
      GetParameterOutput (ssmconn meta) log (readInput (rd s))
      = inl (AwsError "ParameterNotFound" message)) →
  is_Some (readFetch clock meta (rd s) (readInput (rd s)) s).1.2.
Proof.
  intros Hnf. rewrite readFetch_after_loop. simpl.
  destruct (isResourceTimeoutError _) eqn:Ht.
  - simpl. destruct (Hnf (log (withLocal None
      (resource.Retry clock ssmParameterCreationValidationTimeout
         (readAttempt meta (rd s) (readInput (rd s)))) s).2)) as [m ->].
    simpl. eauto.
  - simpl. unfold withLocal, resource.Retry.
    pose proof (retryLoop_never_found (rd s) (resource.atDeadline clock)
                  (resource.furtherRuns clock
                     ssmParameterCreationValidationTimeout) None s Hnf) as H.
    by destruct (resource.retryLoop _ _ _ _) as [err [resp s1]].
Qed.

End ReadOutcome.

(** C1.  When the fetch brought back the entry, the declared ciphertext
    decodes and the key decrypts it: Read shows the declared ciphertext,
    unchanged, as [encrypted_value] if the plaintext equals the value the
    store holds, and the fixed marker ["Outdated sensitive value"] if it
    does not.  In every run of Read the value it leaves in [encrypted_value]
    is one of these two, never anything made from a plaintext. *)
Theorem Read_shows_ciphertext_or_marker (clock : resource.Clock)
    (meta : AWSClient) (s : Session) :
  let d := rd s in
  let fetch := readFetch clock meta d (readInput d) s in
  let result := resourceAwsSsmParameterRead clock meta s in
  (∀ param blob Plaintext,
     fetch.1 = (Some param, None) →
     base64.DecodeString (encrypted_value d) = inr blob →
     DecryptOutput (kmsconn meta) (log fetch.2) (encryption_key d) blob
     = inr Plaintext →
     (Plaintext = ssm.Parameter_.Value param →
      encrypted_value (rd result.2) = encrypted_value d)
     ∧ (Plaintext ≠ ssm.Parameter_.Value param →
        encrypted_value (rd result.2) = OutdatedSensitiveValue))
  ∧ (encrypted_value (rd result.2) = encrypted_value d
     ∨ encrypted_value (rd result.2) = OutdatedSensitiveValue)
  ∧ OutdatedSensitiveValue = "Outdated sensitive value".
Proof.
  intros d fetch result. split; [|split; [|reflexivity]].
  - intros param blob Plaintext Hf Hd Hk.
    unfold result. rewrite (Read_fetched clock meta s param Hf).
    pose proof (readFetch_record clock meta s) as Hrec. simpl in Hrec.
    unfold fetch, d in Hk. rewrite Hrec in Hk.
    rewrite (readCompare_decrypted meta (rd s) param _ blob Plaintext Hd Hk).
    match goal with
    | |- context [readDescribe meta param ?n ?s'] =>
        destruct (readDescribe_frame meta param n s') as (He & _)
    end.
    cbv zeta in He. rewrite He. simpl.
    split; intros Hp; case_bool_decide; done.
  - apply (Read_frame clock meta s).
Qed.

Lemma Read_shows_ciphertext_or_marker_witness :
  encrypted_value
    (rd (resourceAwsSsmParameterRead timeoutClock steadyClient
           {| rd := managedRecord; log := [] |}).2)
  = "QUJD".
Proof.
  exact (proj1 (proj1 (Read_shows_ciphertext_or_marker timeoutClock steadyClient
                         {| rd := managedRecord; log := [] |})
                  storedParameter "ABC" "s3cret" eq_refl eq_refl eq_refl)
               eq_refl).
Defined.

(* ------------------------------------------------------------------ *)
(** * Put *)

Section PutFacts.
Variable clock : resource.Clock.
Variable meta : AWSClient.

(** The write: one call, and a second without the tier after the store's
    tier rejection. *)
Lemma putWrite_run (paramInput : ssm.PutParameterInput.t) (s : Session) :
  let first := PutParameterOutput (ssmconn meta) (log s) paramInput in
  putWrite meta paramInput s =
  if isAWSErr first "ValidationException" "Tier is not supported"
  then (PutParameterOutput (ssmconn meta)
          (log s ++ [PutParameterCall paramInput]) (withoutTier paramInput),
        logged s [PutParameterCall paramInput;
                  PutParameterCall (withoutTier paramInput)])
  else (first, logged s [PutParameterCall paramInput]).
Proof.
  unfold putWrite, PutParameter, logged. run.
  destruct (isAWSErr _ _ _); [|done]. simpl. by rewrite <- app_assoc.
Qed.

(** Put up to the write, when the blob decodes and decrypts. *)
Lemma Put_decrypted (s : Session) (blob Plaintext : string) :
  let d := rd s in
  base64.DecodeString (encrypted_value d) = inr blob →
  DecryptOutput (kmsconn meta) (log s) (encryption_key d) blob = inr Plaintext →
  resourceAwsSsmParameterPut clock meta s
  = let write := putWrite meta (putInput d Plaintext)
                   (logged s [DecryptCall (encryption_key d) blob]) in
    match write.1 with
    | Some err =>
        (Some (ErrorString ("error creating SSM parameter: " +:+ Error err)),
         write.2)
    | None => putFinish clock meta d write.2
    end.
Proof.
  intros d Hd Hk. unfold resourceAwsSsmParameterPut, kmsDecrypt. run.
  fold d. rewrite Hd, Hk. simpl. unfold logged.
  destruct (putWrite _ _ _) as [[e|] s1]; done.
Qed.

Lemma Put_undecryptable (s : Session) (blob : string) (err : error) :
  let d := rd s in
  base64.DecodeString (encrypted_value d) = inr blob →
  DecryptOutput (kmsconn meta) (log s) (encryption_key d) blob = inl err →
  resourceAwsSsmParameterPut clock meta s
  = (Some (ErrorString ("Error decrypting with KMS: " +:+ Error err)),
     logged s [DecryptCall (encryption_key d) blob]).
Proof.
  intros d Hd Hk. unfold resourceAwsSsmParameterPut, kmsDecrypt. run.
  fold d. by rewrite Hd, Hk.
Qed.

(** After the write Put issues tag calls and the calls of Read, and no
    further write of the entry. *)
Lemma putFinish_frame (d : ResourceData) (s : Session) :
  ∃ calls, log (putFinish clock meta d s).2 = log s ++ calls
           ∧ Forall (λ c, isPutParameterCall c = false) calls.
Proof.
  unfold putFinish. run.
  assert (∀ s', ∃ calls,
            log (resourceAwsSsmParameterRead clock meta s').2 = log s' ++ calls
            ∧ Forall (λ c, isPutParameterCall c = false) calls) as Hread.
  { intros s'. destruct (Read_frame clock meta s') as (_ & calls & Hl & Hc).
    exists calls. split; [done|]. eapply Forall_impl; [exact Hc|].
    by intros []. }
  destruct (HasChange_tags d); simpl.
  - pose proof (SsmUpdateTags_log (ssmconn meta) (name d)
                  ssm.ResourceTypeForTaggingParameter
                  (MapInterface (prior_tags d)) (MapInterface (tags d))
                  (log s)) as Hl.
    destruct (SsmUpdateTags _ _ _ _ _ _) as [[e|] l]; simpl in *.
    + rewrite Hl. eexists. split; [done|].
      apply Forall_app. split; [by destruct (0 <? _)%nat; repeat constructor|].
      by destruct (_ && _); repeat constructor.
    + match goal with
      | |- context [resourceAwsSsmParameterRead clock meta ?s'] =>
          destruct (Hread s') as (calls & Hr & Hc)
      end.
      simpl in Hr. rewrite Hr, Hl, <- !app_assoc. eexists. split; [done|].
      apply Forall_app. split; [by destruct (0 <? _)%nat; repeat constructor|].
      apply Forall_app. split; [by destruct (_ && _); repeat constructor|done].
  - match goal with
    | |- context [resourceAwsSsmParameterRead clock meta ?s'] =>
        destruct (Hread s') as (calls & Hr & Hc)
    end.
    simpl in Hr. rewrite Hr. by exists calls.
Qed.

Lemma no_put_calls (calls : list Call) :
  Forall (λ c, isPutParameterCall c = false) calls →
  List.filter isPutParameterCall calls = [].
Proof. induction 1 as [|c calls Hc _ IH]; [done|]. simpl. by rewrite Hc. Qed.

Lemma Put_writes_decrypted (s : Session) (blob Plaintext : string) :
  let d := rd s in
  let paramInput := putInput d Plaintext in
  let decrypted := logged s [DecryptCall (encryption_key d) blob] in
  base64.DecodeString (encrypted_value d) = inr blob →
  DecryptOutput (kmsconn meta) (log s) (encryption_key d) blob = inr Plaintext →
  putWrites clock meta s =
  if isAWSErr (PutParameterOutput (ssmconn meta) (log decrypted) paramInput)
              "ValidationException" "Tier is not supported"
  then [PutParameterCall paramInput; PutParameterCall (withoutTier paramInput)]
  else [PutParameterCall paramInput].
Proof.
  intros d paramInput decrypted Hd Hk. unfold putWrites.
  rewrite (Put_decrypted s blob Plaintext Hd Hk). fold d paramInput decrypted.
  rewrite putWrite_run. cbv zeta.
  destruct (isAWSErr _ _ _); simpl.
  - destruct (PutParameterOutput _ (_ ++ _) _); simpl.
    + rewrite <- app_assoc, issuedSince_app. done.
    + destruct (putFinish_frame d
                  (logged decrypted
                     [PutParameterCall paramInput;
                      PutParameterCall (withoutTier paramInput)]))
        as (calls & Hl & Hc).
      rewrite Hl. simpl. rewrite <- !app_assoc, issuedSince_app. simpl.
      by rewrite (no_put_calls calls Hc).
  - destruct (PutParameterOutput _ _ _); simpl.
    + rewrite <- app_assoc, issuedSince_app. done.
    + destruct (putFinish_frame d
                  (logged decrypted [PutParameterCall paramInput]))
        as (calls & Hl & Hc).
      rewrite Hl. simpl. rewrite <- !app_assoc, issuedSince_app. simpl.
      by rewrite (no_put_calls calls Hc).
Qed.

Lemma Put_writes_none (s : Session) :
  (∀ blob Plaintext,
     base64.DecodeString (encrypted_value (rd s)) = inr blob →
     DecryptOutput (kmsconn meta) (log s) (encryption_key (rd s)) blob
     ≠ inr Plaintext) →
  putWrites clock meta s = [].
Proof.
  intros Hno. unfold putWrites, resourceAwsSsmParameterPut, kmsDecrypt. run.
  destruct (base64.DecodeString _) as [e|blob] eqn:Hd; simpl.
  { by rewrite issuedSince_self. }
  destruct (DecryptOutput _ _ _ _) as [e|Plaintext] eqn:Hk; simpl.
  - by rewrite issuedSince_app.
  - by destruct (Hno blob Plaintext).
Qed.

End PutFacts.

(** C2.  Every [PutParameter] call of a run of Put carries as [Overwrite] the
    caller's value when [overwrite] was set, and otherwise [false] for a new
    record and [true] for a managed one.  For a new record with [overwrite]
    unset the write goes out with [Overwrite = false], and when the store
    rejects it (as it does when the name is taken) Put returns that error
    after this single write. *)
Theorem Put_overwrite_flag (clock : resource.Clock) (meta : AWSClient)
    (s : Session) :
  let d := rd s in
  let result := resourceAwsSsmParameterPut clock meta s in
  (∀ input,
     PutParameterCall input ∈ issuedSince (log s) (log result.2) →
     ssm.PutParameterInput.Overwrite input
     = match overwrite d with
       | Some value => value
       | None => negb (IsNewResource d)
       end)
  ∧ (∀ blob Plaintext err,
       overwrite d = None → IsNewResource d = true →
       base64.DecodeString (encrypted_value d) = inr blob →
       DecryptOutput (kmsconn meta) (log s) (encryption_key d) blob
       = inr Plaintext →
       PutParameterOutput (ssmconn meta)
         (log s ++ [DecryptCall (encryption_key d) blob]) (putInput d Plaintext)
       = Some err →
       isAWSErr (Some err) "ValidationException" "Tier is not supported" = false →
       ssm.PutParameterInput.Overwrite (putInput d Plaintext) = false
       ∧ result
         = (Some (ErrorString ("error creating SSM parameter: " +:+ Error err)),
            logged s [DecryptCall (encryption_key d) blob;
                      PutParameterCall (putInput d Plaintext)])).
Proof.
  intros d result. split.
  - intros input Hin.
    assert (PutParameterCall input ∈ putWrites clock meta s) as Hw.
    { unfold putWrites. apply list_elem_of_In, filter_In. split.
      - by apply list_elem_of_In.
      - done. }
    clear Hin.
    destruct (base64.DecodeString (encrypted_value d)) as [e|blob] eqn:Hd.
    { rewrite Put_writes_none in Hw; [by apply elem_of_nil in Hw|].
      intros blob Plaintext Hd'. fold d in Hd'. congruence. }
    destruct (DecryptOutput (kmsconn meta) (log s) (encryption_key d) blob)
      as [e|Plaintext] eqn:Hk.
    { rewrite Put_writes_none in Hw; [by apply elem_of_nil in Hw|].
      intros blob' Plaintext Hd'. fold d in Hd'. rewrite Hd in Hd'.
      injection Hd' as <-. fold d. congruence. }
    rewrite (Put_writes_decrypted clock meta s blob Plaintext Hd Hk) in Hw.
    destruct (isAWSErr _ _ _);
      repeat (apply elem_of_cons in Hw as [[= ->]|Hw]); try done;
      by apply elem_of_nil in Hw.
  - intros blob Plaintext err Ho Hn Hd Hk Hp Ht.
    split.
    { simpl. unfold shouldUpdateSsmParameter. by rewrite Ho, Hn. }
    unfold result. rewrite (Put_decrypted clock meta s blob Plaintext Hd Hk).
    fold d. rewrite putWrite_run. cbv zeta. simpl. rewrite Hp, Ht. simpl.
    unfold logged. simpl. by rewrite <- app_assoc.
Qed.

Lemma Put_overwrite_flag_witness :
  (PutParameterCall (putInput newRecord "s3cret")
   ∈ issuedSince []
       (log (resourceAwsSsmParameterPut timeoutClock takenClient
               {| rd := newRecord; log := [] |}).2))
  ∧ ssm.PutParameterInput.Overwrite (putInput newRecord "s3cret") = false
  ∧ is_Some (resourceAwsSsmParameterPut timeoutClock takenClient
               {| rd := newRecord; log := [] |}).1.
Proof.
  pose proof (Put_overwrite_flag timeoutClock takenClient
                {| rd := newRecord; log := [] |}) as [Hflag Hreject].
  assert (PutParameterCall (putInput newRecord "s3cret")
          ∈ issuedSince []
              (log (resourceAwsSsmParameterPut timeoutClock takenClient
                      {| rd := newRecord; log := [] |}).2)) as Hin.
  { vm_compute. apply list_elem_of_In. right. left. reflexivity. }
  split; [exact Hin|]. split.
  - exact (Hflag _ Hin).
  - destruct (Hreject "ABC" "s3cret"
                (AwsError "ParameterAlreadyExists" "The parameter already exists.")
                eq_refl eq_refl eq_refl eq_refl eq_refl eq_refl) as [_ ->].
    simpl. eauto.
Defined.

(** C5, as the code has it.  When the first write is rejected with
    [ValidationException] and a message containing ["Tier is not supported"],
    Put writes exactly once more, the same request without its tier; when
    that second write succeeds Put goes on to the tags and the trailing Read
    and reports what they report, and when it fails Put returns its error.
    Any other failure of the first write is returned at once, with no second
    write. *)
Theorem Put_tier_fallback (clock : resource.Clock) (meta : AWSClient)
    (s : Session) (blob Plaintext : string) :
  let d := rd s in
  let paramInput := putInput d Plaintext in
  let decrypted := logged s [DecryptCall (encryption_key d) blob] in
  let first := PutParameterOutput (ssmconn meta) (log decrypted) paramInput in
  let second :=
    PutParameterOutput (ssmconn meta)
      (log decrypted ++ [PutParameterCall paramInput]) (withoutTier paramInput) in
  let result := resourceAwsSsmParameterPut clock meta s in
  base64.DecodeString (encrypted_value d) = inr blob →
  DecryptOutput (kmsconn meta) (log s) (encryption_key d) blob = inr Plaintext →
  (isAWSErr first "ValidationException" "Tier is not supported" = true →
     putWrites clock meta s
     = [PutParameterCall paramInput; PutParameterCall (withoutTier paramInput)]
     ∧ ssm.PutParameterInput.Tier (withoutTier paramInput) = None
     ∧ (second = None →
        result = putFinish clock meta d
                   (logged decrypted
                      [PutParameterCall paramInput;
                       PutParameterCall (withoutTier paramInput)]))
     ∧ (∀ err, second = Some err →
        result.1
        = Some (ErrorString ("error creating SSM parameter: " +:+ Error err))))
  ∧ (isAWSErr first "ValidationException" "Tier is not supported" = false →
     ∀ err, first = Some err →
       putWrites clock meta s = [PutParameterCall paramInput]
       ∧ result
         = (Some (ErrorString ("error creating SSM parameter: " +:+ Error err)),
            logged decrypted [PutParameterCall paramInput])).
Proof.
  intros d paramInput decrypted first second result Hd Hk.
  pose proof (Put_writes_decrypted clock meta s blob Plaintext Hd Hk) as Hw.
  pose proof (Put_decrypted clock meta s blob Plaintext Hd Hk) as Hp.
  cbv zeta in Hw, Hp. fold d paramInput decrypted in Hw, Hp.
  rewrite putWrite_run in Hp. cbv zeta in Hp. fold first second in Hw, Hp.
  fold result in Hp.
  split; intros Ht; rewrite Ht in Hw, Hp; simpl in Hp.
  - split; [done|]. split; [done|]. split.
    + intros Hs. by rewrite Hs in Hp.
    + intros err Hs. by rewrite Hs in Hp; rewrite Hp.
  - intros err Hf. split; [done|]. by rewrite Hf in Hp.
Qed.

Lemma Put_tier_fallback_witness :
  putWrites timeoutClock tierlessClient {| rd := managedRecord; log := [] |}
  = [PutParameterCall (putInput managedRecord "s3cret");
     PutParameterCall (withoutTier (putInput managedRecord "s3cret"))]
  ∧ (resourceAwsSsmParameterPut timeoutClock tierlessClient
       {| rd := managedRecord; log := [] |}).1 = None.
Proof.
  destruct (proj1 (Put_tier_fallback timeoutClock tierlessClient
                     {| rd := managedRecord; log := [] |} "ABC" "s3cret"
                     eq_refl eq_refl) eq_refl)
    as (Hw & _ & Hok & _).
  split; [exact Hw|]. rewrite (Hok eq_refl). vm_compute. reflexivity.
Defined.

(** C5 as stated fails: the second write, without the tier, succeeds, and
    Put still returns an error, here that of the trailing Read. *)
Lemma Put_fails_after_successful_tier_retry :
  let s := {| rd := managedRecord; log := [] |} in
  let paramInput := putInput managedRecord "s3cret" in
  let result := resourceAwsSsmParameterPut timeoutClock throttledClient s in
  putWrites timeoutClock throttledClient s
  = [PutParameterCall paramInput; PutParameterCall (withoutTier paramInput)]
  ∧ PutParameterOutput (ssmconn throttledClient)
      [DecryptCall "alias/k" "ABC"; PutParameterCall paramInput]
      (withoutTier paramInput) = None
  ∧ result.1
    = Some (WrapError
              "error reading SSM Parameter (/a/b): ThrottlingException: Rate exceeded"
              (AwsError "ThrottlingException" "Rate exceeded"))
  ∧ result.1 ≠ None.
Proof.
  assert ((resourceAwsSsmParameterPut timeoutClock throttledClient
             {| rd := managedRecord; log := [] |}).1
          = Some (WrapError
              "error reading SSM Parameter (/a/b): ThrottlingException: Rate exceeded"
              (AwsError "ThrottlingException" "Rate exceeded"))) as Hr
    by (vm_compute; reflexivity).
  cbv zeta. rewrite Hr.
  split; [vm_compute; reflexivity|]. split; [reflexivity|]. split; done.
Qed.

(* ------------------------------------------------------------------ *)
(** * Failures of the decryption service *)

(** C4, as the code has it.  A failure of the decryption service is fatal on
    both paths.  In Read, after a successful fetch, it makes Read return the
    error ["Error decrypting with KMS: ..."] and leaves the record, its
    [encrypted_value] included, as it was: no marker is shown.  In Put it
    makes Put return the same error with the decryption as its only remote
    call, so before any write. *)
Theorem decrypt_failure_fatal_on_both_paths (clock : resource.Clock)
    (meta : AWSClient) (s : Session) (blob : string) (err : error) :
  let d := rd s in
  let fetch := readFetch clock meta d (readInput d) s in
  let read := resourceAwsSsmParameterRead clock meta s in
  let put := resourceAwsSsmParameterPut clock meta s in
  let fatal := ErrorString ("Error decrypting with KMS: " +:+ Error err) in
  base64.DecodeString (encrypted_value d) = inr blob →
  (∀ param,
     fetch.1 = (Some param, None) →
     DecryptOutput (kmsconn meta) (log fetch.2) (encryption_key d) blob
     = inl err →
     read = (Some fatal, logged fetch.2 [DecryptCall (encryption_key d) blob])
     ∧ rd read.2 = d)
  ∧ (DecryptOutput (kmsconn meta) (log s) (encryption_key d) blob = inl err →
     put = (Some fatal, logged s [DecryptCall (encryption_key d) blob])
     ∧ List.filter isWriteCall (issuedSince (log s) (log put.2)) = []).
Proof.
  intros d fetch read put fatal Hd. split.
  - intros param Hf Hk.
    pose proof (readFetch_record clock meta s) as Hrec. cbv zeta in Hrec.
    fold d fetch in Hrec.
    unfold read. rewrite (Read_fetched clock meta s param Hf).
    fold d fetch. rewrite <- Hrec.
    rewrite (readCompare_undecryptable meta d param fetch.2 blob err Hd Hk).
    split; [done|]. simpl. by rewrite Hrec.
  - intros Hk. unfold put.
    rewrite (Put_undecryptable clock meta s blob err Hd Hk). fold d.
    split; [done|]. simpl. by rewrite issuedSince_app.
Qed.

Lemma decrypt_failure_fatal_on_both_paths_witness :
  let s := {| rd := managedRecord; log := [] |} in
  resourceAwsSsmParameterPut timeoutClock deniedClient s
  = (Some (ErrorString
       "Error decrypting with KMS: AccessDeniedException: not authorized to perform kms:Decrypt"),
     {| rd := managedRecord; log := [DecryptCall "alias/k" "ABC"] |})
  ∧ rd (resourceAwsSsmParameterRead timeoutClock deniedClient s).2
    = managedRecord.
Proof.
  pose proof (decrypt_failure_fatal_on_both_paths timeoutClock deniedClient
                {| rd := managedRecord; log := [] |} "ABC"
                (AwsError "AccessDeniedException"
                          "not authorized to perform kms:Decrypt")
                eq_refl) as [Hread Hput].
  split.
  - exact (proj1 (Hput eq_refl)).
  - exact (proj2 (Hread storedParameter eq_refl eq_refl)).
Defined.

(** C4 as stated fails on the Read path: with the entry fetched and the key
    refused, Read returns an error and shows no marker. *)
Lemma Read_decrypt_failure_not_downgraded :
  let result := resourceAwsSsmParameterRead timeoutClock deniedClient
                  {| rd := managedRecord; log := [] |} in
  result.1
  = Some (ErrorString
      "Error decrypting with KMS: AccessDeniedException: not authorized to perform kms:Decrypt")
  ∧ encrypted_value (rd result.2) = "QUJD"
  ∧ ¬ (result.1 = None
       ∧ encrypted_value (rd result.2) = OutdatedSensitiveValue).
Proof.
  assert ((resourceAwsSsmParameterRead timeoutClock deniedClient
             {| rd := managedRecord; log := [] |}).1
          = Some (ErrorString
      "Error decrypting with KMS: AccessDeniedException: not authorized to perform kms:Decrypt"))
    as Hr by (vm_compute; reflexivity).
  cbv zeta. rewrite Hr. split; [done|]. split; [vm_compute; reflexivity|].
  by intros [? _].
Qed.

(* ------------------------------------------------------------------ *)
(** * Read of an entry that is not there *)

(** C7.  (1) When the store answers the fetch with not-found and the record
    is not new, Read clears the id, changes nothing else, issues no further
    call and returns nil.  (2) When the describe call, reached after a
    successful fetch, decode and decryption, brings back no first record,
    Read clears the id and returns nil as well, with the describe call as
    its last call.  (3) When the record is new and every fetch, to the end
    of the retry window and beyond, answers not-found, Read returns an error
    and keeps the id. *)
Theorem Read_not_found (clock : resource.Clock) (meta : AWSClient)
    (s : Session) :
  let d := rd s in
  let input := readInput d in
  let fetch := readFetch clock meta d input s in
  let result := resourceAwsSsmParameterRead clock meta s in
  (∀ message,
     IsNewResource d = false →
     GetParameterOutput (ssmconn meta) (log s) input
     = inl (AwsError "ParameterNotFound" message) →
     result = (None, {| rd := SetId "" d;
                        log := log s ++ [GetParameterCall input] |}))
  ∧ (∀ param blob Plaintext out,
       fetch.1 = (Some param, None) →
       base64.DecodeString (encrypted_value d) = inr blob →
       DecryptOutput (kmsconn meta) (log fetch.2) (encryption_key d) blob
       = inr Plaintext →
       DescribeParametersOutput (ssmconn meta)
         (log fetch.2 ++ [DecryptCall (encryption_key d) blob])
         (describeFilter (ssm.Parameter_.Name param)) = inr out →
       noMatch out = true →
       result.1 = None
       ∧ Id (rd result.2) = ""
       ∧ log result.2
         = log fetch.2
           ++ [DecryptCall (encryption_key d) blob;
               DescribeParametersCall
                 (describeFilter (ssm.Parameter_.Name param))])
  ∧ (IsNewResource d = true →
     (∀ log, ∃ message,
         GetParameterOutput (ssmconn meta) log input
         = inl (AwsError "ParameterNotFound" message)) →
     is_Some result.1 ∧ Id (rd result.2) = Id d).
Proof.
  intros d input fetch result. split; [|split].
  - intros message Hn Ha. by apply (Read_gone clock meta s message).
  - intros param blob Plaintext out Hf Hd Hk Ha Hz.
    pose proof (readFetch_record clock meta s) as Hrec. cbv zeta in Hrec.
    fold d input fetch in Hrec.
    unfold result. rewrite (Read_fetched clock meta s param Hf).
    fold d input fetch. rewrite <- Hrec.
    rewrite (readCompare_decrypted meta d param fetch.2 blob Plaintext Hd Hk).
    erewrite readDescribe_no_match; [|exact Ha|exact Hz].
    simpl. by rewrite <- app_assoc.
  - intros Hn Hnf.
    pose proof (readFetch_never_found clock meta s Hnf) as [e He].
    destruct (readFetch_frame clock meta d input s)
      as (n & resp & err & Heq & _).
    unfold result, resourceAwsSsmParameterRead. run. fold d input.
    fold d input in He. rewrite Heq in *. simpl in He. subst err.
    unfold readResolve. rewrite Hn, andb_false_r. simpl. eauto.
Qed.

Lemma Read_not_found_witness :
  resourceAwsSsmParameterRead timeoutClock goneClient
    {| rd := managedRecord; log := [] |}
  = (None, {| rd := SetId "" managedRecord;
              log := [GetParameterCall (readInput managedRecord)] |})
  ∧ is_Some (resourceAwsSsmParameterRead lastErrorClock goneClient
               {| rd := imageRecord; log := [] |}).1.
Proof.
  split.
  - exact (proj1 (Read_not_found timeoutClock goneClient
                    {| rd := managedRecord; log := [] |})
                 "Parameter /a/b not found." eq_refl eq_refl).
  - refine (proj1 (proj2 (proj2 (Read_not_found lastErrorClock goneClient
                                   {| rd := imageRecord; log := [] |}))
                     eq_refl _)).
    intros l. by exists "Parameter /a/b not found.".
Defined.

(* ------------------------------------------------------------------ *)
(** * Delete *)

(** C9.  Delete issues exactly one [DeleteParameter] call, by name, and
    nothing else; it returns an error exactly when that call fails, whatever
    the failure, a not-found included; the record is left as it was.  Read,
    on a managed record, answers the same not-found with nil. *)
Theorem Delete_single_call_any_failure_fatal (meta : AWSClient) (s : Session) :
  let answer := DeleteParameterOutput (ssmconn meta) (log s) (name (rd s)) in
  let result := resourceAwsSsmParameterDelete meta s in
  result.2 = {| rd := rd s;
                log := log s ++ [DeleteParameterCall (name (rd s))] |}
  ∧ (is_Some result.1 ↔ is_Some answer)
  ∧ (isAWSErr answer ssm.ErrCodeParameterNotFound "" = true → is_Some result.1)
  ∧ (∀ clock message,
       IsNewResource (rd s) = false →
       GetParameterOutput (ssmconn meta) (log s) (readInput (rd s))
       = inl (AwsError "ParameterNotFound" message) →
       (resourceAwsSsmParameterRead clock meta s).1 = None).
Proof.
  intros answer result.
  assert (result
          = (match answer with
             | Some err =>
                 Some (ErrorString ("error deleting SSM Parameter (" +:+
                                    Id (rd s) +:+ "): " +:+ Error err))
             | None => None
             end,
             {| rd := rd s;
                log := log s ++ [DeleteParameterCall (name (rd s))] |})) as ->.
  { unfold result, resourceAwsSsmParameterDelete, DeleteParameter. run.
    fold answer. by destruct answer. }
  split; [done|]. split; [|split].
  - destruct answer; simpl; split; eauto; by intros [? ?].
  - destruct answer; simpl; eauto. done.
  - intros clock message Hn Ha.
    by rewrite (Read_gone clock meta s message Hn Ha).
Qed.

Lemma Delete_single_call_any_failure_fatal_witness :
  isAWSErr (DeleteParameterOutput (ssmconn goneClient) [] "/a/b")
           ssm.ErrCodeParameterNotFound "" = true
  ∧ is_Some (resourceAwsSsmParameterDelete goneClient
               {| rd := managedRecord; log := [] |}).1
  ∧ (resourceAwsSsmParameterRead timeoutClock goneClient
       {| rd := managedRecord; log := [] |}).1 = None.
Proof.
  pose proof (Delete_single_call_any_failure_fatal goneClient
                {| rd := managedRecord; log := [] |}) as (_ & _ & Hnf & Hread).
  split; [reflexivity|]. split.
  - exact (Hnf eq_refl).
  - exact (Hread timeoutClock "Parameter /a/b not found." eq_refl eq_refl).
Defined.

(* ------------------------------------------------------------------ *)
(** * More on the tag-set model *)

Lemma HasPrefix_empty (s : string) : HasPrefix s "" = true.
Proof. by destruct s. Qed.

(** The inner loop of [IgnorePrefixes]: some ignored prefix starts the key. *)
Lemma ignore_prefix_loop (k : string) (ignoreTagPrefixes : KeyValueTags) :
  map_fold (λ ignoreTagPrefix (_ : option TagData) ignore,
              ignore || HasPrefix k ignoreTagPrefix)
           false ignoreTagPrefixes = true
  ↔ ∃ p, is_Some (ignoreTagPrefixes !! p) ∧ HasPrefix k p = true.
Proof.
  apply (map_fold_weak_ind
           (λ (r : bool) (m : KeyValueTags),
              r = true ↔ ∃ p, is_Some (m !! p) ∧ HasPrefix k p = true)).
  - split; [done|]. intros (p & Hp & _). rewrite lookup_empty in Hp.
    by destruct Hp.
  - intros i x m r Hi IH. rewrite orb_true_iff, IH. split.
    + intros [(p & Hp & Hk)|Hk].
      * exists p. split; [|done].
        destruct (decide (i = p)) as [->|Hne];
          [by rewrite lookup_insert_eq | by rewrite lookup_insert_ne].
      * exists i. by rewrite lookup_insert_eq.
    + intros (p & Hp & Hk).
      destruct (decide (i = p)) as [->|Hne]; [by right|].
      left. exists p. by rewrite lookup_insert_ne in Hp.
Qed.

Lemma IgnoreAws_lookup (tags : KeyValueTags) (k : string) :
  IgnoreAws tags !! k = if HasPrefix k AwsTagKeyPrefix then None else tags !! k.
Proof.
  unfold IgnoreAws. rewrite rangeInto_lookup.
  by destruct (tags !! k), (HasPrefix k AwsTagKeyPrefix).
Qed.

Lemma Ignore_lookup (tags ignoreTags : KeyValueTags) (k : string) :
  Ignore tags ignoreTags !! k
  = match ignoreTags !! k with Some _ => None | None => tags !! k end.
Proof.
  unfold Ignore. rewrite rangeInto_lookup.
  by destruct (tags !! k), (ignoreTags !! k).
Qed.

Lemma IgnorePrefixes_lookup_Some (tags ignoreTagPrefixes : KeyValueTags)
    (k : string) (v : option TagData) :
  IgnorePrefixes tags ignoreTagPrefixes !! k = Some v
  ↔ tags !! k = Some v
    ∧ ∀ p, is_Some (ignoreTagPrefixes !! p) → HasPrefix k p = false.
Proof.
  unfold IgnorePrefixes. rewrite rangeInto_lookup.
  pose proof (ignore_prefix_loop k ignoreTagPrefixes) as Hloop.
  destruct (tags !! k) as [w|]; [|by split; [|intros [? _]]].
  destruct (map_fold _ false ignoreTagPrefixes); simpl.
  - split; [done|]. intros [_ Hno].
    destruct (proj1 Hloop eq_refl) as (p & Hp & Hk).
    by rewrite (Hno p Hp) in Hk.
  - split; [|by intros [? _]]. intros [= ->]. split; [done|].
    intros p Hp. destruct (HasPrefix k p) eqn:Hk; [|done].
    assert (false = true) by (apply Hloop; eauto). done.
Qed.

Lemma Map_lookup (tags : KeyValueTags) (k : string) :
  Map tags !! k
  = (λ v : option TagData,
       match v with
       | None => ""
       | Some td => default "" (Value td)
       end) <$> tags !! k.
Proof.
  unfold Map. rewrite lookup_fmap.
  destruct (tags !! k) as [[td|]|]; simpl; try done.
Qed.

(** X1.  [IgnoreAws] keeps exactly the entries whose key does not start with
    ["aws:"], with their values; applying it twice changes nothing more. *)
Theorem IgnoreAws_drops_exactly_aws_keys (tags : KeyValueTags) :
  (∀ k v, IgnoreAws tags !! k = Some v
          ↔ tags !! k = Some v ∧ HasPrefix k "aws:" = false)
  ∧ IgnoreAws (IgnoreAws tags) = IgnoreAws tags.
Proof.
  split.
  - intros k v. rewrite IgnoreAws_lookup. unfold AwsTagKeyPrefix.
    destruct (HasPrefix k "aws:"); split; try done; by intros [? ?].
  - apply map_eq. intros k. rewrite !IgnoreAws_lookup.
    by destruct (HasPrefix k AwsTagKeyPrefix).
Qed.

(** X2.  [IgnoreConfig] with no configuration returns the tags as they are.
    With one, it keeps exactly the entries whose key is not a key of
    [Keys] and is not started by any key of [KeyPrefixes]; an empty prefix
    among [KeyPrefixes] therefore removes every tag. *)
Theorem IgnoreConfig_keeps_exactly (tags : KeyValueTags) :
  IgnoreConfig_ tags None = tags
  ∧ (∀ config k v,
       IgnoreConfig_ tags (Some config) !! k = Some v
       ↔ tags !! k = Some v
         ∧ Keys_ config !! k = None
         ∧ ∀ p, is_Some (KeyPrefixes config !! p) → HasPrefix k p = false)
  ∧ (∀ config, is_Some (KeyPrefixes config !! "") →
               IgnoreConfig_ tags (Some config) = ∅).
Proof.
  split; [done|].
  assert (∀ config k v,
       IgnoreConfig_ tags (Some config) !! k = Some v
       ↔ tags !! k = Some v
         ∧ Keys_ config !! k = None
         ∧ ∀ p, is_Some (KeyPrefixes config !! p) → HasPrefix k p = false)
    as Hspec.
  { intros config k v. simpl. rewrite Ignore_lookup.
    destruct (Keys_ config !! k) as [w|].
    - split; [done|]. by intros (_ & ? & _).
    - rewrite IgnorePrefixes_lookup_Some. tauto. }
  split; [exact Hspec|].
  intros config Hp. apply map_eq. intros k. rewrite lookup_empty.
  destruct (IgnoreConfig_ tags (Some config) !! k) as [v|] eqn:Hk; [|done].
  apply Hspec in Hk as (_ & _ & Hno).
  specialize (Hno "" Hp). by rewrite HasPrefix_empty in Hno.
Qed.

Lemma IgnoreConfig_keeps_exactly_witness :
  IgnoreConfig_ {[ "team" := valueTag "blue" ]}
    (Some {| Keys_ := ∅; KeyPrefixes := {[ "" := None ]} |}) = ∅.
Proof.
  refine (proj2 (proj2 (IgnoreConfig_keeps_exactly
                          {[ "team" := valueTag "blue" ]}))
            {| Keys_ := ∅; KeyPrefixes := {[ "" := None ]} |} _).
  simpl. rewrite lookup_singleton_eq. eauto.
Defined.

(** X3.  Building tags from a string map and reading them back with [Map]
    gives the string map again, for [New] at [map[string]string] and at
    [map[string]interface{}]; from a map of string pointers the nil values
    come back as empty strings. *)
Theorem Map_New_round_trip (m : gmap string string)
    (p : gmap string (option string)) :
  Map (New (MapString m)) = m
  ∧ Map (New (MapInterface m)) = m
  ∧ Map (New (MapStringPtr p)) = default "" <$> p.
Proof.
  repeat split; apply map_eq; intros k; rewrite Map_lookup; simpl;
    rewrite !lookup_fmap.
  - by destruct (m !! k).
  - by destruct (m !! k).
  - by destruct (p !! k) as [[|]|].
Qed.

Lemma New_slice_lookup (value : list string) (acc : KeyValueTags) (k : string) :
  foldl (λ (kvtm : KeyValueTags) v, <[v := None]> kvtm) acc value !! k
  = if bool_decide (k ∈ value) then Some None else acc !! k.
Proof.
  revert acc. induction value as [|x value IH]; intros acc; cbn [foldl].
  - rewrite bool_decide_eq_false_2; [done | apply not_elem_of_nil].
  - rewrite IH. destruct (decide (k = x)) as [->|Hne].
    + assert (bool_decide (x ∈ x :: value) = true) as ->
        by (apply bool_decide_eq_true_2; left).
      rewrite lookup_insert_eq. by case_bool_decide.
    + rewrite lookup_insert_ne by done.
      assert (bool_decide (k ∈ x :: value) = bool_decide (k ∈ value)) as ->.
      { apply bool_decide_ext. rewrite elem_of_cons. naive_solver. }
      done.
Qed.

(** X4.  [New] of a list of keys binds exactly the listed keys, each to a nil
    tag data (read by [Map] as the empty string), however often a key is
    listed; [New] of any other kind of input gives no tags. *)
Theorem New_of_keys (value : list string) :
  (∀ k, New (SliceString value) !! k
        = if bool_decide (k ∈ value) then Some None else None)
  ∧ New (SliceInterface value) = New (SliceString value)
  ∧ (∀ k, Map (New (SliceString value)) !! k
          = if bool_decide (k ∈ value) then Some "" else None)
  ∧ New OtherInput = ∅.
Proof.
  assert (∀ k, New (SliceString value) !! k
               = if bool_decide (k ∈ value) then Some None else None) as Hl.
  { intros k. simpl. by rewrite New_slice_lookup, lookup_empty. }
  repeat split; try done.
  intros k. rewrite Map_lookup, Hl. by case_bool_decide.
Qed.

Lemma Keys_elem (tags : KeyValueTags) (k : string) :
  k ∈ Keys tags ↔ is_Some (tags !! k).
Proof.
  unfold Keys. rewrite list_elem_of_fmap. split.
  - intros ([k' v] & -> & Hin). apply elem_of_map_to_list in Hin. eauto.
  - intros [v Hv]. exists (k, v). split; [done|].
    by apply elem_of_map_to_list.
Qed.

Lemma SsmTags_elem (tags : KeyValueTags) (t : ssm.Tag.t) :
  t ∈ SsmTags tags
  ↔ ∃ k v, t = {| ssm.Tag.Key := Some k; ssm.Tag.Value := Some v |}
           ∧ Map tags !! k = Some v.
Proof.
  unfold SsmTags. rewrite list_elem_of_fmap. split.
  - intros ([k v] & -> & Hin). apply elem_of_map_to_list in Hin.
    by exists k, v.
  - intros (k & v & -> & Hl). exists (k, v). split; [done|].
    by apply elem_of_map_to_list.
Qed.

(** X5.  [Keys] lists every key of the tags exactly once. *)
Theorem Keys_each_key_once (tags : KeyValueTags) :
  NoDup (Keys tags)
  ∧ (∀ k, k ∈ Keys tags ↔ is_Some (tags !! k))
  ∧ length (Keys tags) = size tags.
Proof.
  split; [apply NoDup_fst_map_to_list|]. split; [apply Keys_elem|].
  unfold Keys. by rewrite length_fmap, length_map_to_list.
Qed.

(** X6.  [SsmTags] gives one service tag per key, with the key and the value
    [Map] reads for it, both non-nil, and no key twice. *)
Theorem SsmTags_one_per_key (tags : KeyValueTags) :
  (∀ t, t ∈ SsmTags tags
        ↔ ∃ k v, t = {| ssm.Tag.Key := Some k; ssm.Tag.Value := Some v |}
                 ∧ Map tags !! k = Some v)
  ∧ length (SsmTags tags) = size tags
  ∧ NoDup (ssm.Tag.Key <$> SsmTags tags).
Proof.
  split; [apply SsmTags_elem|]. unfold SsmTags. split.
  - rewrite length_fmap, length_map_to_list. unfold Map. apply map_size_fmap.
  - rewrite <- list_fmap_compose.
    change (NoDup ((Some ∘ fst) <$> map_to_list (Map tags))).
    rewrite list_fmap_compose. apply NoDup_fmap; [apply _|].
    apply NoDup_fst_map_to_list.
Qed.

(** What [New] makes of a string pointer. *)
Lemma SsmKeyValueTags_snoc (tags : list ssm.Tag.t) (tag : ssm.Tag.t) :
  SsmKeyValueTags (tags ++ [tag])
  = <[default "" (ssm.Tag.Key tag) :=
        match ssm.Tag.Value tag with
        | None => None
        | Some str => valueTag str
        end]> (SsmKeyValueTags tags).
Proof.
  unfold SsmKeyValueTags. rewrite foldl_app. simpl. by rewrite fmap_insert.
Qed.

Lemma foldl_insert_lookup {B} (l : list (string * B)) (acc : gmap string B)
    (k : string) :
  NoDup l.*1 →
  foldl (λ a kv, <[kv.1 := kv.2]> a) acc l !! k
  = match (list_to_map l : gmap string B) !! k with
    | Some v => Some v
    | None => acc !! k
    end.
Proof.
  revert acc. induction l as [|[i x] l IH]; intros acc Hnd; simpl.
  - by rewrite lookup_empty.
  - apply NoDup_cons in Hnd as [Hi Hnd]. rewrite IH by done.
    destruct (decide (i = k)) as [->|Hne].
    + rewrite (not_elem_of_list_to_map_1 l k Hi).
      by rewrite !lookup_insert_eq.
    + rewrite (lookup_insert_ne (list_to_map l)) by done.
      by rewrite lookup_insert_ne.
Qed.

(** X7.  Reading service tags into tags: a later tag of the list overrides
    an earlier one with the same key, a nil key counts as the empty key and
    a nil value gives a nil tag data.  Tags sent out with [SsmTags] and read
    back with [SsmKeyValueTags] show the same keys and values. *)
Theorem SsmKeyValueTags_last_wins_and_round_trip :
  SsmKeyValueTags [] = ∅
  ∧ (∀ tags tag k,
       SsmKeyValueTags (tags ++ [tag]) !! k
       = if bool_decide (default "" (ssm.Tag.Key tag) = k)
         then Some (match ssm.Tag.Value tag with
                    | None => None
                    | Some str => valueTag str
                    end)
         else SsmKeyValueTags tags !! k)
  ∧ (∀ tags : KeyValueTags, Map (SsmKeyValueTags (SsmTags tags)) = Map tags).
Proof.
  split; [|split].
  - unfold SsmKeyValueTags. simpl. apply fmap_empty.
  - intros tags tag k. rewrite SsmKeyValueTags_snoc.
    case_bool_decide as Hk.
    + subst k. by rewrite lookup_insert_eq.
    + by rewrite lookup_insert_ne.
  - intros tags. apply map_eq. intros k.
    unfold SsmKeyValueTags, SsmTags. rewrite foldl_fmap. simpl.
    rewrite Map_lookup. simpl. rewrite lookup_fmap.
    pose proof (foldl_insert_lookup
                  (prod_map id Some <$> map_to_list (Map tags)) ∅ k) as Hl.
    rewrite foldl_fmap in Hl. simpl in Hl. rewrite Hl; clear Hl.
    + rewrite <- map_to_list_fmap, list_to_map_to_list, lookup_fmap, lookup_empty.
      by destruct (Map tags !! k).
    + rewrite <- list_fmap_compose.
      assert (fst ∘ prod_map id Some = (fst : string * string → string)) as ->
        by done.
      apply NoDup_fst_map_to_list.
Qed.

(** X8.  The two differences make up the change: every key of
    [Removed old new] is a key of [old], every entry of [Updated old new] is
    an entry of [new], no key is in both, and removing the first from [old]
    and then writing the second gives [new]. *)
Theorem tag_delta_applies (old new : KeyValueTags) :
  Updated old new ∪ (old ∖ Removed old new) = new
  ∧ Removed old new ⊆ old
  ∧ Updated old new ⊆ new
  ∧ Removed old new ##ₘ Updated old new.
Proof.
  split; [|split; [|split]].
  - apply map_eq. intros k.
    rewrite lookup_union, lookup_difference, Updated_lookup, Removed_lookup.
    destruct (new !! k) as [newV|], (old !! k) as [oldV|]; simpl; try done.
    destruct (Equal oldV newV) eqn:E; simpl; [|done].
    by apply Equal_true in E as ->.
  - apply map_subseteq_spec. intros k v. rewrite Removed_lookup.
    by destruct (new !! k).
  - apply map_subseteq_spec. intros k v. rewrite Updated_lookup.
    destruct (new !! k) as [newV|]; [|done].
    destruct (old !! k) as [oldV|]; [|done].
    by destruct (Equal oldV newV).
  - apply map_disjoint_spec. intros k v w. rewrite Removed_lookup, Updated_lookup.
    by destruct (new !! k).
Qed.

Lemma no_delta_equal (old new : KeyValueTags) :
  Removed old new = ∅ → Updated old new = ∅ → old = new.
Proof.
  intros Hr Hu. apply map_eq. intros k.
  assert (Removed old new !! k = None) as Hrk by (by rewrite Hr, lookup_empty).
  assert (Updated old new !! k = None) as Huk by (by rewrite Hu, lookup_empty).
  rewrite Removed_lookup in Hrk. rewrite Updated_lookup in Huk.
  destruct (new !! k) as [newV|], (old !! k) as [oldV|]; try done.
  destruct (Equal oldV newV) eqn:E; [|done].
  by apply Equal_true in E as ->.
Qed.

Lemma SsmUpdateTags_no_call_equal (conn : SSM)
    (identifier resourceType : string) (oldTagsMap newTagsMap : TagsInput)
    (log0 : list Call) :
  issuedSince log0
    (SsmUpdateTags conn identifier resourceType oldTagsMap newTagsMap log0).2
  = [] →
  New oldTagsMap = New newTagsMap.
Proof.
  rewrite SsmUpdateTags_log, issuedSince_app.
  pose proof (size_pos_nonempty (Removed (New oldTagsMap) (New newTagsMap)))
    as Hr.
  pose proof (size_pos_nonempty (Updated (New oldTagsMap) (New newTagsMap)))
    as Hu.
  intros Hnil.
  destruct (0 <? size (Removed _ _)) eqn:Er; [done|].
  destruct (0 <? size (Updated _ _)) eqn:Eu; [done|].
  apply no_delta_equal.
  - destruct (decide (Removed (New oldTagsMap) (New newTagsMap) = ∅));
      [done|]. by assert (false = true) by by apply Hr.
  - destruct (decide (Updated (New oldTagsMap) (New newTagsMap) = ∅));
      [done|]. by assert (false = true) by by apply Hu.
Qed.

(** X9.  [SsmUpdateTags] issues no remote call exactly when the old and the
    new tags are equal: any difference, in a key or in a value, leads to at
    least one call. *)
Theorem SsmUpdateTags_silent_iff_equal (conn : SSM)
    (identifier resourceType : string) (oldTagsMap newTagsMap : TagsInput)
    (log0 : list Call) :
  issuedSince log0
    (SsmUpdateTags conn identifier resourceType oldTagsMap newTagsMap log0).2
  = []
  ↔ New oldTagsMap = New newTagsMap.
Proof.
  split; [apply SsmUpdateTags_no_call_equal|].
  intros Heq. rewrite SsmUpdateTags_log, issuedSince_app, Heq.
  rewrite Removed_same, Updated_same. by rewrite map_size_empty.
Qed.

(** X10.  What [SsmUpdateTags] sends never names a key starting with
    ["aws:"]: the keys of the remove call are keys of [Removed old new]
    without that prefix, and the tags of the add call are entries of
    [Updated old new] without it, with the values as strings. *)
Theorem SsmUpdateTags_never_sends_aws_keys (conn : SSM)
    (identifier resourceType : string) (oldTagsMap newTagsMap : TagsInput)
    (log0 : list Call) :
  let removedTags := Removed (New oldTagsMap) (New newTagsMap) in
  let updatedTags := Updated (New oldTagsMap) (New newTagsMap) in
  let issued :=
    issuedSince log0
      (SsmUpdateTags conn identifier resourceType oldTagsMap newTagsMap log0).2 in
  (∀ ResourceId ResourceType TagKeys k,
     RemoveTagsFromResourceCall ResourceId ResourceType TagKeys ∈ issued →
     k ∈ TagKeys →
     HasPrefix k "aws:" = false ∧ is_Some (removedTags !! k))
  ∧ (∀ ResourceId ResourceType Tags tag,
       AddTagsToResourceCall ResourceId ResourceType Tags ∈ issued →
       tag ∈ Tags →
       ∃ k v, tag = {| ssm.Tag.Key := Some k; ssm.Tag.Value := Some v |}
              ∧ HasPrefix k "aws:" = false
              ∧ Map updatedTags !! k = Some v).
Proof.
  intros removedTags updatedTags issued.
  assert (∀ c, c ∈ issued →
            c = RemoveTagsFromResourceCall identifier resourceType
                  (Keys (IgnoreAws removedTags))
            ∨ c = AddTagsToResourceCall identifier resourceType
                    (SsmTags (IgnoreAws updatedTags))) as Hall.
  { unfold issued. rewrite SsmUpdateTags_log, issuedSince_app.
    fold removedTags updatedTags. intros c [Hc|Hc]%elem_of_app.
    - destruct (0 <? size removedTags); [|by apply elem_of_nil in Hc].
      apply list_elem_of_singleton in Hc. by left.
    - destruct (_ && _); [|by apply elem_of_nil in Hc].
      apply list_elem_of_singleton in Hc. by right. }
  split.
  - intros rid rty keys k Hin Hk.
    destruct (Hall _ Hin) as [[= -> -> ->]|[=]].
    apply Keys_elem in Hk as [v Hv].
    rewrite IgnoreAws_lookup in Hv. unfold AwsTagKeyPrefix in Hv.
    destruct (HasPrefix k "aws:"); [done|]. eauto.
  - intros rid rty tags tag Hin Ht.
    destruct (Hall _ Hin) as [[=]|[= -> -> ->]].
    apply SsmTags_elem in Ht as (k & v & -> & Hl).
    exists k, v. split; [done|].
    rewrite Map_lookup in Hl. rewrite IgnoreAws_lookup in Hl.
    unfold AwsTagKeyPrefix in Hl. rewrite Map_lookup.
    by destruct (HasPrefix k "aws:").
Qed.

Lemma SsmUpdateTags_never_sends_aws_keys_witness :
  HasPrefix "team" "aws:" = false
  ∧ is_Some (Removed (New platformTagsOld) (New (MapInterface ∅)) !! "team").
Proof.
  refine (proj1 (SsmUpdateTags_never_sends_aws_keys accepting "/a/b" "Parameter"
                   platformTagsOld (MapInterface ∅) [])
            "/a/b" "Parameter" ["team"] "team" _ _).
  - vm_compute. left.
  - left.
Defined.

(* ------------------------------------------------------------------ *)
(** * More on Read *)

Lemma IgnoreConfig_sub (tags : KeyValueTags) (config : option IgnoreConfig)
    (k : string) (v : option TagData) :
  IgnoreConfig_ tags config !! k = Some v → tags !! k = Some v.
Proof.
  destruct config as [config|]; [|done]. simpl. rewrite Ignore_lookup.
  destruct (Keys_ config !! k); [done|].
  rewrite IgnorePrefixes_lookup_Some. by intros [? _].
Qed.

Lemma observed_tags_no_aws (tags : KeyValueTags) (config : option IgnoreConfig)
    (k : string) :
  HasPrefix k "aws:" = true →
  Map (IgnoreConfig_ (IgnoreAws tags) config) !! k = None.
Proof.
  intros Hk. rewrite Map_lookup.
  destruct (IgnoreConfig_ (IgnoreAws tags) config !! k) as [v|] eqn:Hl; [|done].
  apply IgnoreConfig_sub in Hl. rewrite IgnoreAws_lookup in Hl.
  unfold AwsTagKeyPrefix in Hl. by rewrite Hk in Hl.
Qed.

Lemma keepsDeclared_refl (d : ResourceData) : keepsDeclared d d.
Proof. unfold keepsDeclared. tauto. Qed.

Section ReadMore.
Variable clock : resource.Clock.
Variable meta : AWSClient.

(** The fetch with its bound: one fetch for every run of the loop, and one
    more after a timeout. *)
Lemma readFetch_bounded (d : ResourceData) (input : ssm.GetParameterInput.t)
    (s : Session) :
  ∃ n resp err,
    readFetch clock meta d input s
    = ((resp, err), logged s (replicate (S n) (GetParameterCall input)))
    ∧ n ≤ S (resource.furtherRuns clock ssmParameterCreationValidationTimeout)
    ∧ (err = None → is_Some resp).
Proof.
  rewrite readFetch_after_loop. unfold withLocal, resource.Retry.
  destruct (retryLoop_readAttempt meta d input (resource.atDeadline clock)
              (resource.furtherRuns clock ssmParameterCreationValidationTimeout)
              None s) as (n & err & resp & Heq & Hn & Hr).
  rewrite Heq. simpl.
  destruct (isResourceTimeoutError err).
  - exists (S n). eexists _, _. split; [|split; [lia|]].
    + unfold logged; simpl. rewrite <- app_assoc. simpl.
      by rewrite <- (replicate_cons_app n).
    + destruct (GetParameterOutput _ _ _); simpl; [done|eauto].
  - exists n, resp, err. split; [done|]. split; [lia|done].
Qed.

(** The last part of Read, call by call. *)
Lemma readDescribe_run (param : ssm.Parameter_.t) (name : string)
    (s : Session) :
  let result := readDescribe meta param name s in
  keepsDeclared (rd s) (rd result.2)
  ∧ (Id (rd result.2) = Id (rd s) ∨ Id (rd result.2) = "" ∧ result.1 = None)
  ∧ ∃ calls, log result.2 = log s ++ calls
             ∧ calls `prefix_of`
                 [DescribeParametersCall (describeFilter name);
                  ListTagsForResourceCall name
                    ssm.ResourceTypeForTaggingParameter].
Proof.
  unfold readDescribe, DescribeParameters, SsmListTags, ListTagsForResource,
    keepsDeclared.
  run. fold (describeFilter name).
  destruct (DescribeParametersOutput _ _ _) as [e|[[|[detail|] rest]|]];
    simpl;
    try (repeat split; auto; eexists [_]; split; [done|];
         apply prefix_cons, prefix_nil).
  destruct (ssm.ParameterMetadata.Tier detail); simpl;
    destruct (ListTagsForResourceOutput _ _ _ _); simpl;
    (split; [repeat split; auto; right; intros k Hk;
             by apply observed_tags_no_aws|]);
    (split; [by left|]);
    eexists [_; _]; rewrite <- app_assoc; split; done.
Qed.

Lemma readCompare_run (d : ResourceData) (param : ssm.Parameter_.t)
    (s : Session) :
  let result := readCompare meta d param s in
  keepsDeclared (rd s) (rd result.2)
  ∧ (Id (rd result.2) = Id (rd s) ∨ Id (rd result.2) = "" ∧ result.1 = None)
  ∧ ∃ blob calls,
      log result.2 = log s ++ calls
      ∧ calls `prefix_of` lookupSequence d blob (ssm.Parameter_.Name param).
Proof.
  unfold readCompare, kmsDecrypt. run.
  destruct (base64.DecodeString _) as [e|blob]; simpl.
  { split; [apply keepsDeclared_refl|]. split; [by left|].
    exists "", []. rewrite app_nil_r. split; [done|apply prefix_nil]. }
  destruct (DecryptOutput _ _ _ _) as [e|Plaintext]; simpl.
  { split; [apply keepsDeclared_refl|]. split; [by left|].
    exists blob. eexists [_]. split; [done|]. apply prefix_cons, prefix_nil. }
  match goal with
  | |- context [readDescribe meta param ?n ?s'] =>
      destruct (readDescribe_run param n s') as (Hk & Hi & calls & Hl & Hp)
  end.
  cbv zeta in Hk, Hi, Hl. simpl in Hk, Hi, Hl.
  split; [exact Hk|]. split; [exact Hi|]. exists blob.
  exists (DecryptCall (encryption_key d) blob :: calls).
  rewrite Hl, <- app_assoc. split; [done|]. by apply prefix_cons.
Qed.

Lemma readResolve_run (d : ResourceData) resp err (s : Session) :
  let result := readResolve meta d resp err s in
  keepsDeclared (rd s) (rd result.2)
  ∧ (Id (rd result.2) = Id (rd s) ∨ Id (rd result.2) = "" ∧ result.1 = None)
  ∧ ∃ blob name calls,
      log result.2 = log s ++ calls
      ∧ calls `prefix_of` lookupSequence d blob name.
Proof.
  unfold readResolve. run.
  destruct (_ && _); simpl.
  { split; [unfold keepsDeclared; simpl; tauto|]. split; [by right|].
    exists "", "", []. rewrite app_nil_r. split; [done|apply prefix_nil]. }
  destruct err as [e|]; simpl.
  { split; [apply keepsDeclared_refl|]. split; [by left|].
    exists "", "", []. rewrite app_nil_r. split; [done|apply prefix_nil]. }
  destruct resp as [param|]; simpl.
  - destruct (readCompare_run d param s) as (Hk & Hi & blob & calls & Hl).
    split; [exact Hk|]. split; [exact Hi|].
    by exists blob, (ssm.Parameter_.Name param), calls.
  - split; [apply keepsDeclared_refl|]. split; [by left|].
    exists "", "", []. rewrite app_nil_r. split; [done|apply prefix_nil].
Qed.

(** Read as a whole: the fetches, then the lookups. *)
Lemma Read_run (s : Session) :
  let d := rd s in
  let result := resourceAwsSsmParameterRead clock meta s in
  keepsDeclared d (rd result.2)
  ∧ (Id (rd result.2) = Id d ∨ Id (rd result.2) = "" ∧ result.1 = None)
  ∧ ∃ n blob name calls,
      issuedSince (log s) (log result.2)
      = replicate (S n) (GetParameterCall (readInput d)) ++ calls
      ∧ n ≤ S (resource.furtherRuns clock ssmParameterCreationValidationTimeout)
      ∧ calls `prefix_of` lookupSequence d blob name.
Proof.
  intros d result.
  assert (result = let fetch := readFetch clock meta d (readInput d) s in
                   readResolve meta d fetch.1.1 fetch.1.2 fetch.2) as ->.
  { unfold result, resourceAwsSsmParameterRead. run. fold d.
    by destruct (readFetch clock meta d (readInput d) s) as [[resp err] s1]. }
  cbv zeta.
  destruct (readFetch_bounded d (readInput d) s)
    as (n & resp & err & Hf & Hn & _).
  rewrite Hf. cbn [fst snd].
  destruct (readResolve_run d resp err
              (logged s (replicate (S n) (GetParameterCall (readInput d)))))
    as (Hk & Hi & blob & name & calls & Hl & Hp).
  cbv zeta in Hk, Hi, Hl.
  split; [exact Hk|]. split; [exact Hi|].
  exists n, blob, name, calls. rewrite Hl. unfold logged. cbn [log].
  rewrite <- app_assoc, issuedSince_app. done.
Qed.

End ReadMore.

Section ReadSteps.
Variable clock : resource.Clock.
Variable meta : AWSClient.

(** The last part of Read when the describe call brings back a record. *)
Lemma readDescribe_detail (param : ssm.Parameter_.t) (name : string)
    (s : Session) (detail : ssm.ParameterMetadata.t)
    (rest : list (option ssm.ParameterMetadata.t)) :
  DescribeParametersOutput (ssmconn meta) (log s) (describeFilter name)
  = inr (Some (Some detail :: rest)) →
  let described :=
    Set_data_type (default "" (ssm.ParameterMetadata.DataType detail))
      (Set_allowed_pattern
         (default "" (ssm.ParameterMetadata.AllowedPattern detail))
         (Set_tier (default ssm.ParameterTierStandard
                            (ssm.ParameterMetadata.Tier detail))
            (Set_description
               (default "" (ssm.ParameterMetadata.Description detail))
               (rd s)))) in
  let describe := DescribeParametersCall (describeFilter name) in
  let list := ListTagsForResourceCall name ssm.ResourceTypeForTaggingParameter in
  readDescribe meta param name s
  = match ListTagsForResourceOutput (ssmconn meta) (log s ++ [describe]) name
            ssm.ResourceTypeForTaggingParameter with
    | inl err =>
        (Some (ErrorString ("error listing tags for SSM Parameter (" +:+ name
                            +:+ "): " +:+ Error err)),
         {| rd := described; log := log s ++ [describe; list] |})
    | inr TagList =>
        (None,
         {| rd := Set_arn (default "" (ssm.Parameter_.ARN param))
                    (Set_tags
                       (Map (IgnoreConfig_ (IgnoreAws (SsmKeyValueTags TagList))
                                           (IgnoreTagsConfig meta)))
                       described);
            log := log s ++ [describe; list] |})
    end.
Proof.
  intros Ha. unfold readDescribe, DescribeParameters, SsmListTags,
    ListTagsForResource.
  run. fold (describeFilter name). rewrite Ha. simpl.
  destruct (ssm.ParameterMetadata.Tier detail); simpl;
    destruct (ListTagsForResourceOutput _ _ _ _); simpl;
    by rewrite <- app_assoc.
Qed.

Lemma readDescribe_failed (param : ssm.Parameter_.t) (name : string)
    (s : Session) (err : error) :
  DescribeParametersOutput (ssmconn meta) (log s) (describeFilter name)
  = inl err →
  readDescribe meta param name s
  = (Some (ErrorString ("error describing SSM parameter: " +:+ Error err)),
     logged s [DescribeParametersCall (describeFilter name)]).
Proof.
  intros Ha. unfold readDescribe, DescribeParameters. run.
  fold (describeFilter name). by rewrite Ha.
Qed.

Lemma Read_fetch_failed (s : Session) resp (err : error) :
  let d := rd s in
  let fetch := readFetch clock meta d (readInput d) s in
  fetch.1 = (resp, Some err) →
  isAWSErr (Some err) ssm.ErrCodeParameterNotFound "" && negb (IsNewResource d)
  = false →
  resourceAwsSsmParameterRead clock meta s
  = (Some (WrapError ("error reading SSM Parameter (" +:+ Id d +:+ "): "
                      +:+ Error err) err),
     fetch.2).
Proof.
  intros d fetch Hf Hn. unfold resourceAwsSsmParameterRead, readResolve.
  unfold mbind, M_bind, mret, M_ret, getD, setD, orReturn. cbn beta iota.
  fold d fetch.
  destruct fetch as [[resp' err'] s1]. simpl in Hf. injection Hf as -> ->.
  by rewrite Hn.
Qed.

End ReadSteps.

(** The calls of Read after its fetch, tied to the fetched entry. *)
Lemma readCompare_calls (meta : AWSClient) (d : ResourceData)
    (param : ssm.Parameter_.t) (s : Session) :
  let result := readCompare meta d param s in
  match base64.DecodeString (encrypted_value d) with
  | inl _ => log result.2 = log s
  | inr blob =>
      ∃ calls,
        log result.2 = log s ++ DecryptCall (encryption_key d) blob :: calls
        ∧ calls `prefix_of`
            [DescribeParametersCall (describeFilter (ssm.Parameter_.Name param));
             ListTagsForResourceCall (ssm.Parameter_.Name param)
               ssm.ResourceTypeForTaggingParameter]
  end.
Proof.
  unfold readCompare, kmsDecrypt. run.
  destruct (base64.DecodeString _) as [e|blob]; simpl; [done|].
  destruct (DecryptOutput _ _ _ _) as [e|Plaintext]; simpl.
  { exists []. split; [done|apply prefix_nil]. }
  match goal with
  | |- context [readDescribe meta param ?n ?s'] =>
      destruct (readDescribe_run meta param n s') as (_ & _ & calls & Hl & Hp)
  end.
  cbv zeta in Hl. simpl in Hl.
  exists calls. rewrite Hl, <- app_assoc. done.
Qed.

Lemma readResolve_calls (meta : AWSClient) (d : ResourceData)
    (resp : option ssm.Parameter_.t) (err : option error) (s : Session) :
  let result := readResolve meta d resp err s in
  log result.2 = log s
  ∨ ∃ param blob calls,
      resp = Some param ∧ err = None
      ∧ base64.DecodeString (encrypted_value d) = inr blob
      ∧ log result.2 = log s ++ DecryptCall (encryption_key d) blob :: calls
      ∧ calls `prefix_of`
          [DescribeParametersCall (describeFilter (ssm.Parameter_.Name param));
           ListTagsForResourceCall (ssm.Parameter_.Name param)
             ssm.ResourceTypeForTaggingParameter].
Proof.
  unfold readResolve. run.
  destruct (_ && _); simpl; [by left|].
  destruct err as [e|]; simpl; [by left|].
  destruct resp as [param|]; simpl; [|by left].
  pose proof (readCompare_calls meta d param s) as Hc. cbv zeta in Hc.
  destruct (base64.DecodeString (encrypted_value d)) as [e|blob] eqn:Hd.
  - by left.
  - destruct Hc as (calls & Hl & Hp). right. by exists param, blob, calls.
Qed.

(** X11.  The calls of a run of Read, in order: between one and
    [furtherRuns + 2] fetches, all with the record's id and with decryption
    asked for, and then either nothing, or, when the fetch brought back an
    entry and the declared [encrypted_value] decodes to a blob, one
    decryption of that blob with the declared key, followed by at most one
    describe call filtered by the name of the fetched entry and one tag
    listing for that same name.  None of them changes the store. *)
Theorem Read_call_sequence (clock : resource.Clock) (meta : AWSClient)
    (s : Session) :
  let d := rd s in
  let fetch := readFetch clock meta d (readInput d) s in
  let issued :=
    issuedSince (log s) (log (resourceAwsSsmParameterRead clock meta s).2) in
  (∃ n lookups,
     issued
     = replicate (S n)
         (GetParameterCall {| ssm.GetParameterInput.Name := Id d;
                              ssm.GetParameterInput.WithDecryption := true |})
       ++ lookups
     ∧ n ≤ S (resource.furtherRuns clock ssmParameterCreationValidationTimeout)
     ∧ (lookups = []
        ∨ ∃ param blob rest,
            fetch.1 = (Some param, None)
            ∧ base64.DecodeString (encrypted_value d) = inr blob
            ∧ lookups = DecryptCall (encryption_key d) blob :: rest
            ∧ rest `prefix_of`
                [ DescribeParametersCall
                    [ {| ssm.ParameterStringFilter.Key := "Name";
                         ssm.ParameterStringFilter.Option := "Equals";
                         ssm.ParameterStringFilter.Values :=
                           [ssm.Parameter_.Name param] |} ];
                  ListTagsForResourceCall (ssm.Parameter_.Name param)
                    "Parameter" ]))
  ∧ Forall (λ c, isWriteCall c = false) issued.
Proof.
  intros d fetch issued.
  assert (∃ n lookups,
            issued = replicate (S n) (GetParameterCall (readInput d)) ++ lookups
            ∧ n ≤ S (resource.furtherRuns clock
                       ssmParameterCreationValidationTimeout)
            ∧ (lookups = []
               ∨ ∃ param blob rest,
                   fetch.1 = (Some param, None)
                   ∧ base64.DecodeString (encrypted_value d) = inr blob
                   ∧ lookups = DecryptCall (encryption_key d) blob :: rest
                   ∧ rest `prefix_of`
                       [DescribeParametersCall
                          (describeFilter (ssm.Parameter_.Name param));
                        ListTagsForResourceCall (ssm.Parameter_.Name param)
                          ssm.ResourceTypeForTaggingParameter])) as Hrun.
  { unfold issued.
    assert (resourceAwsSsmParameterRead clock meta s
            = readResolve meta d fetch.1.1 fetch.1.2 fetch.2) as ->.
    { unfold resourceAwsSsmParameterRead. run. fold d. fold fetch.
      by destruct fetch as [[resp err] s1]. }
    destruct (readFetch_bounded clock meta d (readInput d) s)
      as (n & resp & err & Hf & Hn & _).
    fold fetch in Hf. rewrite Hf. cbn [fst snd].
    destruct (readResolve_calls meta d resp err
                (logged s (replicate (S n) (GetParameterCall (readInput d)))))
      as [Hl|(param & blob & rest & -> & -> & Hd & Hl & Hp)];
      cbv zeta in Hl; rewrite Hl; unfold logged; cbn [log].
    - exists n, []. rewrite app_nil_r, issuedSince_app.
      split; [done|]. split; [done|by left].
    - exists n, (DecryptCall (encryption_key d) blob :: rest).
      rewrite <- app_assoc, issuedSince_app.
      split; [done|]. split; [done|]. right. by exists param, blob, rest. }
  destruct Hrun as (n & lookups & Hi & Hn & Hl). split.
  - by exists n, lookups.
  - rewrite Hi. apply Forall_app. split; [by apply Forall_replicate|].
    destruct Hl as [->|(param & blob & rest & _ & _ & -> & [k Hk])]; [done|].
    constructor; [done|].
    assert (Forall (λ c, isWriteCall c = false) (rest ++ k)) as Hall
      by (rewrite <- Hk; repeat constructor).
    by apply Forall_app in Hall as [? _].
Qed.

(** X12.  Read never changes what the caller declared about the key and the
    overwrite preference, nor the new-resource mark, nor the previous
    description and tags; and the only change it makes to the id is to clear
    it, which it does only when it returns nil. *)
Theorem Read_keeps_declared_inputs (clock : resource.Clock) (meta : AWSClient)
    (s : Session) :
  let d := rd s in
  let result := resourceAwsSsmParameterRead clock meta s in
  encryption_key (rd result.2) = encryption_key d
  ∧ overwrite (rd result.2) = overwrite d
  ∧ IsNewResource (rd result.2) = IsNewResource d
  ∧ prior_description (rd result.2) = prior_description d
  ∧ prior_tags (rd result.2) = prior_tags d
  ∧ (Id (rd result.2) = Id d ∨ Id (rd result.2) = "" ∧ result.1 = None).
Proof.
  intros d result.
  destruct (Read_run clock meta s) as ((? & ? & ? & ? & ? & _) & Hi & _).
  by repeat split.
Qed.

(** X13.  The tags Read leaves in the record are the ones it found there, or
    else contain no key starting with ["aws:"]. *)
Theorem Read_shows_no_aws_tags (clock : resource.Clock) (meta : AWSClient)
    (s : Session) :
  let result := resourceAwsSsmParameterRead clock meta s in
  tags (rd result.2) = tags (rd s)
  ∨ ∀ k, HasPrefix k "aws:" = true → tags (rd result.2) !! k = None.
Proof.
  intros result.
  by destruct (Read_run clock meta s) as ((_ & _ & _ & _ & _ & Ht) & _).
Qed.

(** X14.  When the entry was fetched and the declared [encrypted_value] is
    not valid base64, Read returns the decoder's error as it is, without
    asking for a decryption or making any further call, and leaves the
    record as it was. *)
Theorem Read_malformed_ciphertext (clock : resource.Clock) (meta : AWSClient)
    (s : Session) (param : ssm.Parameter_.t) (err : error) :
  let d := rd s in
  let fetch := readFetch clock meta d (readInput d) s in
  let result := resourceAwsSsmParameterRead clock meta s in
  fetch.1 = (Some param, None) →
  base64.DecodeString (encrypted_value d) = inl err →
  result.1 = Some err
  ∧ rd result.2 = d
  ∧ List.filter isLookupCall (issuedSince (log s) (log result.2)) = [].
Proof.
  intros d fetch result Hf Hd.
  unfold result. rewrite (Read_fetched clock meta s param Hf).
  unfold readCompare. fold d. rewrite Hd. unfold try, mret, M_ret.
  cbn [fst snd logged rd log]. fold d.
  split; [done|]. split; [done|]. rewrite issuedSince_app.
  destruct (readFetch_frame clock meta d (readInput d) s)
    as (n & resp & err' & Heq & _).
  rewrite Heq. cbn [snd logged log]. rewrite issuedSince_app.
  clear. induction n as [|n IH]; [done|]. exact IH.
Qed.

Lemma Read_malformed_ciphertext_witness :
  (resourceAwsSsmParameterRead timeoutClock steadyClient
     {| rd := garbledRecord; log := [] |}).1
  = Some (ErrorString "illegal base64 data").
Proof.
  exact (proj1 (Read_malformed_ciphertext timeoutClock steadyClient
                  {| rd := garbledRecord; log := [] |} storedParameter
                  (ErrorString "illegal base64 data") eq_refl eq_refl)).
Defined.

(** X15.  A Read in which every step succeeds returns nil and fills the
    record from the store: name, type and version from the fetch; the
    description, the tier (["Standard"] when the describe answer names
    none), the allowed pattern and the data type from the describe answer;
    the ARN from the fetch; and as tags the listed ones without the [aws:]
    keys and without what the provider's ignore configuration excludes.  The
    id stays, and the calls after the fetch are the decryption, the describe
    call and the tag listing for the fetched name. *)
Theorem Read_observes_store (clock : resource.Clock) (meta : AWSClient)
    (s : Session) (param : ssm.Parameter_.t) (blob Plaintext : string)
    (detail : ssm.ParameterMetadata.t)
    (rest : list (option ssm.ParameterMetadata.t)) (TagList : list ssm.Tag.t) :
  let d := rd s in
  let fetch := readFetch clock meta d (readInput d) s in
  let result := resourceAwsSsmParameterRead clock meta s in
  let name' := ssm.Parameter_.Name param in
  let d' := rd result.2 in
  fetch.1 = (Some param, None) →
  base64.DecodeString (encrypted_value d) = inr blob →
  DecryptOutput (kmsconn meta) (log fetch.2) (encryption_key d) blob
  = inr Plaintext →
  DescribeParametersOutput (ssmconn meta)
    (log fetch.2 ++ [DecryptCall (encryption_key d) blob])
    (describeFilter name')
  = inr (Some (Some detail :: rest)) →
  ListTagsForResourceOutput (ssmconn meta)
    (log fetch.2 ++ [DecryptCall (encryption_key d) blob;
                     DescribeParametersCall (describeFilter name')])
    name' ssm.ResourceTypeForTaggingParameter
  = inr TagList →
  result.1 = None
  ∧ Id d' = Id d
  ∧ name d' = name'
  ∧ type_ d' = default "" (ssm.Parameter_.Type_ param)
  ∧ version d' = default 0%Z (ssm.Parameter_.Version param)
  ∧ arn d' = default "" (ssm.Parameter_.ARN param)
  ∧ description d' = default "" (ssm.ParameterMetadata.Description detail)
  ∧ tier d' = default "Standard" (ssm.ParameterMetadata.Tier detail)
  ∧ allowed_pattern d'
    = default "" (ssm.ParameterMetadata.AllowedPattern detail)
  ∧ data_type d' = default "" (ssm.ParameterMetadata.DataType detail)
  ∧ tags d' = Map (IgnoreConfig_ (IgnoreAws (SsmKeyValueTags TagList))
                                 (IgnoreTagsConfig meta))
  ∧ log result.2 = log fetch.2 ++ lookupSequence d blob name'.
Proof.
  intros d fetch result name' d' Hf Hd Hk Ha Hl.
  pose proof (readFetch_record clock meta s) as Hrec. cbv zeta in Hrec.
  fold d fetch in Hrec.
  unfold d', result. rewrite (Read_fetched clock meta s param Hf).
  fold d fetch. rewrite <- Hrec.
  rewrite (readCompare_decrypted meta d param fetch.2 blob Plaintext Hd Hk).
  fold name'.
  erewrite readDescribe_detail; [|exact Ha]. cbv zeta. cbn [log].
  rewrite <- app_assoc. cbn [app]. rewrite Hl. cbn.
  assert (Id (rd fetch.2) = Id d) as -> by (by rewrite Hrec).
  repeat split; try done. unfold lookupSequence. by rewrite <- app_assoc.
Qed.

Lemma Read_observes_store_witness :
  let d' := rd (resourceAwsSsmParameterRead timeoutClock taggedClient
                  {| rd := managedRecord; log := [] |}).2 in
  tier d' = "Standard"
  ∧ tags d' = Map (IgnoreConfig_ (IgnoreAws (SsmKeyValueTags storedTags)) None)
  ∧ tags d' !! "team" = Some "blue"
  ∧ tags d' !! "aws:cloudformation:stack-name" = None.
Proof.
  pose proof (Read_observes_store timeoutClock taggedClient
                {| rd := managedRecord; log := [] |} storedParameter "ABC"
                "s3cret" tierlessMetadata [] storedTags
                eq_refl eq_refl eq_refl eq_refl eq_refl)
    as (_ & _ & _ & _ & _ & _ & _ & Htier & _ & _ & Htags & _).
  cbv zeta. rewrite Htags. split; [exact Htier|]. split; [done|].
  split; vm_compute; reflexivity.
Defined.

(** X16.  A Read that fails late has already changed the record.  When the
    describe call fails, Read returns its error after having set name, type,
    [encrypted_value] and version, with the description and the tier still
    as before; when the tag listing fails, the description, tier, allowed
    pattern and data type are set as well, and the tags and the ARN are
    not.  The id is kept in both cases. *)
Theorem Read_late_failure_leaves_partial_update (clock : resource.Clock)
    (meta : AWSClient) (s : Session) (param : ssm.Parameter_.t)
    (blob Plaintext : string) :
  let d := rd s in
  let fetch := readFetch clock meta d (readInput d) s in
  let result := resourceAwsSsmParameterRead clock meta s in
  let name' := ssm.Parameter_.Name param in
  let d' := rd result.2 in
  let decrypted := log fetch.2 ++ [DecryptCall (encryption_key d) blob] in
  fetch.1 = (Some param, None) →
  base64.DecodeString (encrypted_value d) = inr blob →
  DecryptOutput (kmsconn meta) (log fetch.2) (encryption_key d) blob
  = inr Plaintext →
  (∀ err,
     DescribeParametersOutput (ssmconn meta) decrypted (describeFilter name')
     = inl err →
     result.1
     = Some (ErrorString ("error describing SSM parameter: " +:+ Error err))
     ∧ Id d' = Id d ∧ name d' = name'
     ∧ version d' = default 0%Z (ssm.Parameter_.Version param)
     ∧ description d' = description d ∧ tier d' = tier d
     ∧ tags d' = tags d ∧ arn d' = arn d)
  ∧ (∀ detail rest err,
       DescribeParametersOutput (ssmconn meta) decrypted (describeFilter name')
       = inr (Some (Some detail :: rest)) →
       ListTagsForResourceOutput (ssmconn meta)
         (decrypted ++ [DescribeParametersCall (describeFilter name')])
         name' ssm.ResourceTypeForTaggingParameter
       = inl err →
       result.1
       = Some (ErrorString ("error listing tags for SSM Parameter (" +:+ name'
                            +:+ "): " +:+ Error err))
       ∧ Id d' = Id d ∧ name d' = name'
       ∧ description d'
         = default "" (ssm.ParameterMetadata.Description detail)
       ∧ tier d' = default "Standard" (ssm.ParameterMetadata.Tier detail)
       ∧ tags d' = tags d ∧ arn d' = arn d).
Proof.
  intros d fetch result name' d' decrypted Hf Hd Hk.
  pose proof (readFetch_record clock meta s) as Hrec. cbv zeta in Hrec.
  fold d fetch in Hrec.
  assert (rd fetch.2 = d) as Hrd by (by rewrite Hrec).
  assert (result
          = readDescribe meta param name'
              {| rd := Set_version (default 0%Z (ssm.Parameter_.Version param))
                   (Set_encrypted_value
                      (if bool_decide (Plaintext = ssm.Parameter_.Value param)
                       then encrypted_value d else OutdatedSensitiveValue)
                      (Set_type (default "" (ssm.Parameter_.Type_ param))
                         (Set_name name' d)));
                 log := decrypted |}) as Hres.
  { unfold result. rewrite (Read_fetched clock meta s param Hf).
    fold d fetch. rewrite <- Hrec.
    rewrite (readCompare_decrypted meta d param fetch.2 blob Plaintext Hd Hk).
    by rewrite Hrd. }
  unfold d'. rewrite Hres. split.
  - intros err Ha. erewrite readDescribe_failed; [|exact Ha]. by cbn.
  - intros detail rest err Ha Hl.
    erewrite readDescribe_detail; [|exact Ha]. cbv zeta. cbn [log].
    rewrite Hl. by cbn.
Qed.

Lemma Read_late_failure_leaves_partial_update_witness :
  let result := resourceAwsSsmParameterRead timeoutClock opaqueClient
                  {| rd := managedRecord; log := [] |} in
  result.1
  = Some (ErrorString
            "error describing SSM parameter: AccessDeniedException: denied")
  ∧ version (rd result.2) = 3%Z.
Proof.
  destruct (proj1 (Read_late_failure_leaves_partial_update timeoutClock
                     opaqueClient {| rd := managedRecord; log := [] |}
                     storedParameter "ABC" "s3cret" eq_refl eq_refl eq_refl)
              (AwsError "AccessDeniedException" "denied") eq_refl)
    as (Hr & _ & _ & Hv & _).
  split; [exact Hr | exact Hv].
Defined.

(** X17.  A fetch that ends with an error other than a not-found on a
    managed record makes Read return that error, wrapped with the record's
    id and keeping its cause, with the record as it was and no call after
    the fetch. *)
Theorem Read_fetch_error_is_returned (clock : resource.Clock)
    (meta : AWSClient) (s : Session) (resp : option ssm.Parameter_.t)
    (err : error) :
  let d := rd s in
  let fetch := readFetch clock meta d (readInput d) s in
  let result := resourceAwsSsmParameterRead clock meta s in
  fetch.1 = (resp, Some err) →
  isAWSErr (Some err) "ParameterNotFound" "" = false ∨ IsNewResource d = true →
  result.1
  = Some (WrapError ("error reading SSM Parameter (" +:+ Id d +:+ "): "
                     +:+ Error err) err)
  ∧ rd result.2 = d
  ∧ List.filter isLookupCall (issuedSince (log s) (log result.2)) = [].
Proof.
  intros d fetch result Hf Hn.
  assert (isAWSErr (Some err) ssm.ErrCodeParameterNotFound ""
          && negb (IsNewResource d) = false) as Hc.
  { destruct Hn as [Hn|Hn]; [unfold ssm.ErrCodeParameterNotFound; by rewrite Hn|].
    rewrite Hn. apply andb_false_r. }
  unfold result. rewrite (Read_fetch_failed clock meta s resp err Hf Hc).
  fold d fetch. cbn [fst snd]. split; [done|].
  destruct (readFetch_frame clock meta d (readInput d) s)
    as (n & resp' & err' & Heq & _).
  fold fetch in Heq. rewrite Heq. cbn [snd logged rd log]. split; [done|].
  rewrite issuedSince_app.
  clear. induction n as [|n IH]; [done|]. exact IH.
Qed.

Lemma Read_fetch_error_is_returned_witness :
  (resourceAwsSsmParameterRead timeoutClock throttledClient
     {| rd := managedRecord; log := [] |}).1
  = Some (WrapError
            "error reading SSM Parameter (/a/b): ThrottlingException: Rate exceeded"
            (AwsError "ThrottlingException" "Rate exceeded")).
Proof.
  exact (proj1 (Read_fetch_error_is_returned timeoutClock throttledClient
                  {| rd := managedRecord; log := [] |} None
                  (AwsError "ThrottlingException" "Rate exceeded")
                  eq_refl (or_introl eq_refl))).
Defined.

(* ------------------------------------------------------------------ *)
(** * More on Put *)

Lemma New_MapInterface_inj (a b : gmap string string) :
  New (MapInterface a) = New (MapInterface b) → a = b.
Proof.
  intros Heq. apply map_eq. intros k.
  assert (New (MapInterface a) !! k = New (MapInterface b) !! k) as Hk
    by (by rewrite Heq).
  simpl in Hk. rewrite !lookup_fmap in Hk.
  destruct (a !! k), (b !! k); simpl in Hk; try done.
  by injection Hk as ->.
Qed.

Lemma SsmUpdateTags_tag_calls (conn : SSM) (identifier resourceType : string)
    (oldTagsMap newTagsMap : TagsInput) (log0 : list Call) :
  ∃ calls,
    (SsmUpdateTags conn identifier resourceType oldTagsMap newTagsMap log0).2
    = log0 ++ calls
    ∧ Forall (λ c, isTagCall c = true) calls.
Proof.
  rewrite SsmUpdateTags_log. eexists. split; [done|].
  apply Forall_app. split.
  - destruct (0 <? size _); repeat constructor.
  - destruct (_ && _); repeat constructor.
Qed.

Section PutMore.
Variable clock : resource.Clock.
Variable meta : AWSClient.

(** The end of Put: the tags when they changed, then the id and Read. *)
Lemma putFinish_unfold (d : ResourceData) (s : Session) :
  putFinish clock meta d s
  = let tagging :=
      if HasChange_tags d
      then SsmUpdateTags (ssmconn meta) (name d)
             ssm.ResourceTypeForTaggingParameter
             (MapInterface (prior_tags d)) (MapInterface (tags d)) (log s)
      else (None, log s) in
    match tagging.1 with
    | Some err =>
        (Some (ErrorString ("error updating SSM Parameter (" +:+ name d +:+
                            ") tags: " +:+ Error err)),
         {| rd := rd s; log := tagging.2 |})
    | None =>
        resourceAwsSsmParameterRead clock meta
          {| rd := SetId (name d) (rd s); log := tagging.2 |}
    end.
Proof.
  unfold putFinish. run.
  destruct (HasChange_tags d); simpl; [|done].
  by destruct (SsmUpdateTags _ _ _ _ _ _) as [[e|] l].
Qed.

(** A run of Put whose ciphertext decodes: the decryption, then the writes,
    then the tag calls, then the calls of the trailing Read; either Put has
    failed before setting the id, or it ends as the Read of the record under
    its name. *)
Lemma Put_run (s : Session) (blob : string) :
  let d := rd s in
  let result := resourceAwsSsmParameterPut clock meta s in
  base64.DecodeString (encrypted_value d) = inr blob →
  ∃ writes tagCalls readCalls,
    issuedSince (log s) (log result.2)
    = DecryptCall (encryption_key d) blob :: writes ++ tagCalls ++ readCalls
    ∧ Forall (λ c, isPutParameterCall c = true) writes
    ∧ Forall (λ c, isTagCall c = true) tagCalls
    ∧ Forall (λ c, isReadOnlyCall c = true) readCalls
    ∧ (HasChange_tags d = false → tagCalls = [])
    ∧ (writes = [] → tagCalls = [] ∧ readCalls = [])
    ∧ (readCalls = [] ∧ rd result.2 = d ∧ is_Some result.1
       ∨ ∃ s1, rd s1 = SetId (name d) d
               ∧ result = resourceAwsSsmParameterRead clock meta s1
               ∧ readCalls = issuedSince (log s1) (log result.2)).
Proof.
  intros d result Hd.
  destruct (DecryptOutput (kmsconn meta) (log s) (encryption_key d) blob)
    as [e|Plaintext] eqn:Hk.
  { unfold result. rewrite (Put_undecryptable clock meta s blob e Hd Hk).
    fold d. exists [], [], []. cbn. rewrite issuedSince_app.
    repeat split; try done. left. eauto. }
  unfold result. rewrite (Put_decrypted clock meta s blob Plaintext Hd Hk).
  fold d. rewrite putWrite_run. cbv zeta.
  set (decrypted := logged s [DecryptCall (encryption_key d) blob]).
  set (paramInput := putInput d Plaintext).
  assert (∀ writes err,
            writes ≠ [] → Forall (λ c, isPutParameterCall c = true) writes →
            let outcome :=
              match err with
              | Some err =>
                  (Some (ErrorString ("error creating SSM parameter: "
                                      +:+ Error err)),
                   logged decrypted writes)
              | None => putFinish clock meta d (logged decrypted writes)
              end in
            ∃ tagCalls readCalls,
              issuedSince (log s) (log outcome.2)
              = DecryptCall (encryption_key d) blob
                :: writes ++ tagCalls ++ readCalls
              ∧ Forall (λ c, isTagCall c = true) tagCalls
              ∧ Forall (λ c, isReadOnlyCall c = true) readCalls
              ∧ (HasChange_tags d = false → tagCalls = [])
              ∧ (readCalls = [] ∧ rd outcome.2 = d ∧ is_Some outcome.1
                 ∨ ∃ s1, rd s1 = SetId (name d) d
                         ∧ outcome = resourceAwsSsmParameterRead clock meta s1
                         ∧ readCalls = issuedSince (log s1) (log outcome.2)))
    as Hafter.
  { intros writes err Hne Hw. destruct err as [err|]; cbv zeta.
    { exists [], []. cbn. rewrite <- app_assoc, issuedSince_app.
      rewrite app_nil_r. repeat split; try done. left. eauto. }
    rewrite putFinish_unfold. cbv zeta. cbn [logged rd log].
    destruct (HasChange_tags d) eqn:Ht.
    - destruct (SsmUpdateTags_tag_calls (ssmconn meta) (name d)
                  ssm.ResourceTypeForTaggingParameter
                  (MapInterface (prior_tags d)) (MapInterface (tags d))
                  ((log s ++ [DecryptCall (encryption_key d) blob]) ++ writes))
        as (tagCalls & Hl & Htag).
      destruct (SsmUpdateTags _ _ _ _ _ _) as [[e|] l]; cbn [fst snd] in *;
        subst l.
      + exists tagCalls, []. cbn. rewrite <- !app_assoc, issuedSince_app.
        rewrite app_nil_r. repeat split; try done. left. eauto.
      + match goal with
        | |- context [resourceAwsSsmParameterRead clock meta ?s1] =>
            destruct (Read_frame clock meta s1) as (_ & readCalls & Hr & Hro)
        end.
        cbv zeta in Hr.
        exists tagCalls, readCalls. rewrite Hr. cbn [log].
        rewrite <- !app_assoc, issuedSince_app.
        repeat split; try done. right. eexists. split; [|split]; [|done|].
        * done.
        * cbn [log]. by rewrite !app_assoc, issuedSince_app.
    - cbn [fst snd].
      match goal with
      | |- context [resourceAwsSsmParameterRead clock meta ?s1] =>
          destruct (Read_frame clock meta s1) as (_ & readCalls & Hr & Hro)
      end.
      cbv zeta in Hr.
      exists [], readCalls. rewrite Hr. cbn [log]. unfold decrypted, logged.
      cbn [log].
      rewrite <- !app_assoc, issuedSince_app.
      repeat split; try done. right. eexists. split; [|split]; [|done|].
      + done.
      + cbn [log]. by rewrite !app_assoc, issuedSince_app. }
  destruct (isAWSErr _ _ _); cbn [fst snd].
  - destruct (Hafter [PutParameterCall paramInput;
                      PutParameterCall (withoutTier paramInput)]
                (PutParameterOutput (ssmconn meta)
                   (log decrypted ++ [PutParameterCall paramInput])
                   (withoutTier paramInput)))
      as (tagCalls & readCalls & H1 & H2 & H3 & H4 & H5);
      [done | by repeat constructor |].
    exists [PutParameterCall paramInput;
            PutParameterCall (withoutTier paramInput)], tagCalls, readCalls.
    repeat split; try done. by repeat constructor.
  - destruct (Hafter [PutParameterCall paramInput]
                (PutParameterOutput (ssmconn meta) (log decrypted) paramInput))
      as (tagCalls & readCalls & H1 & H2 & H3 & H4 & H5);
      [done | by repeat constructor |].
    exists [PutParameterCall paramInput], tagCalls, readCalls.
    repeat split; try done. by repeat constructor.
Qed.

End PutMore.

Lemma Put_undecodable (clock : resource.Clock) (meta : AWSClient)
    (s : Session) (err : error) :
  base64.DecodeString (encrypted_value (rd s)) = inl err →
  resourceAwsSsmParameterPut clock meta s = (Some err, s).
Proof.
  intros Hd. unfold resourceAwsSsmParameterPut. run. by rewrite Hd.
Qed.

(** X18.  When the declared [encrypted_value] is not valid base64, Put
    returns the decoder's error as it is, makes no remote call at all and
    leaves the record as it was. *)
Theorem Put_malformed_ciphertext (clock : resource.Clock) (meta : AWSClient)
    (s : Session) (err : error) :
  let result := resourceAwsSsmParameterPut clock meta s in
  base64.DecodeString (encrypted_value (rd s)) = inl err →
  result.1 = Some err
  ∧ rd result.2 = rd s
  ∧ issuedSince (log s) (log result.2) = [].
Proof.
  intros result Hd. unfold result.
  rewrite (Put_undecodable clock meta s err Hd). cbn [fst snd].
  by rewrite issuedSince_self.
Qed.

Lemma Put_malformed_ciphertext_witness :
  (resourceAwsSsmParameterPut timeoutClock steadyClient
     {| rd := garbledRecord; log := [] |}).1
  = Some (ErrorString "illegal base64 data").
Proof.
  exact (proj1 (Put_malformed_ciphertext timeoutClock steadyClient
                  {| rd := garbledRecord; log := [] |}
                  (ErrorString "illegal base64 data") eq_refl)).
Defined.

(** X19.  Every write of a run of Put names the declared name and type,
    carries as value the plaintext the key decrypted the declared blob to,
    is encrypted under the declared key, and carries the allowed pattern;
    the description goes along only when it differs from the previous one,
    the data type only when it is not empty, and the tier is the declared
    one or none. *)
Theorem Put_write_payload (clock : resource.Clock) (meta : AWSClient)
    (s : Session) (input : ssm.PutParameterInput.t) :
  let d := rd s in
  PutParameterCall input
  ∈ issuedSince (log s) (log (resourceAwsSsmParameterPut clock meta s).2) →
  ∃ blob Plaintext,
    base64.DecodeString (encrypted_value d) = inr blob
    ∧ DecryptOutput (kmsconn meta) (log s) (encryption_key d) blob
      = inr Plaintext
    ∧ ssm.PutParameterInput.Name input = name d
    ∧ ssm.PutParameterInput.Type_ input = type_ d
    ∧ ssm.PutParameterInput.Value input = Plaintext
    ∧ ssm.PutParameterInput.KeyId input = Some (encryption_key d)
    ∧ ssm.PutParameterInput.AllowedPattern input = allowed_pattern d
    ∧ ssm.PutParameterInput.Description input
      = (if bool_decide (prior_description d = description d)
         then None else Some (description d))
    ∧ ssm.PutParameterInput.DataType input
      = (if bool_decide (data_type d = "") then None else Some (data_type d))
    ∧ (ssm.PutParameterInput.Tier input = Some (tier d)
       ∨ ssm.PutParameterInput.Tier input = None).
Proof.
  intros d Hin.
  assert (PutParameterCall input ∈ putWrites clock meta s) as Hw.
  { unfold putWrites. apply list_elem_of_In, filter_In. split.
    - by apply list_elem_of_In.
    - done. }
  clear Hin.
  destruct (base64.DecodeString (encrypted_value d)) as [e|blob] eqn:Hd.
  { rewrite Put_writes_none in Hw; [by apply elem_of_nil in Hw|].
    intros blob Plaintext Hd'. fold d in Hd'. congruence. }
  destruct (DecryptOutput (kmsconn meta) (log s) (encryption_key d) blob)
    as [e|Plaintext] eqn:Hk.
  { rewrite Put_writes_none in Hw; [by apply elem_of_nil in Hw|].
    intros blob' Plaintext Hd'. fold d in Hd'. rewrite Hd in Hd'.
    injection Hd' as <-. fold d. congruence. }
  rewrite (Put_writes_decrypted clock meta s blob Plaintext Hd Hk) in Hw.
  exists blob, Plaintext. split; [done|]. split; [done|].
  assert (input = putInput d Plaintext ∨ input = withoutTier (putInput d Plaintext))
    as [-> | ->].
  { destruct (isAWSErr _ _ _);
      repeat (apply elem_of_cons in Hw as [[= ->]|Hw]); auto;
      by apply elem_of_nil in Hw. }
  - simpl. unfold HasChange_description.
    destruct (bool_decide (prior_description d = description d)); simpl;
      repeat split; auto.
  - simpl. unfold HasChange_description.
    destruct (bool_decide (prior_description d = description d)); simpl;
      repeat split; auto.
Qed.

Lemma Put_write_payload_witness :
  ∃ blob Plaintext,
    base64.DecodeString (encrypted_value retaggedRecord) = inr blob
    ∧ DecryptOutput (kmsconn steadyClient) [] "alias/k" blob = inr Plaintext
    ∧ ssm.PutParameterInput.Name (putInput retaggedRecord "s3cret") = "/a/b"
    ∧ ssm.PutParameterInput.Type_ (putInput retaggedRecord "s3cret")
      = "SecureString"
    ∧ ssm.PutParameterInput.Value (putInput retaggedRecord "s3cret")
      = Plaintext
    ∧ ssm.PutParameterInput.KeyId (putInput retaggedRecord "s3cret")
      = Some "alias/k"
    ∧ ssm.PutParameterInput.AllowedPattern (putInput retaggedRecord "s3cret")
      = ""
    ∧ ssm.PutParameterInput.Description (putInput retaggedRecord "s3cret")
      = Some "database password"
    ∧ ssm.PutParameterInput.DataType (putInput retaggedRecord "s3cret")
      = Some "text"
    ∧ (ssm.PutParameterInput.Tier (putInput retaggedRecord "s3cret")
       = Some "Standard"
       ∨ ssm.PutParameterInput.Tier (putInput retaggedRecord "s3cret") = None).
Proof.
  refine (Put_write_payload timeoutClock steadyClient
            {| rd := retaggedRecord; log := [] |}
            (putInput retaggedRecord "s3cret") _).
  vm_compute. right. left.
Defined.

(** X20.  When the write went through and the tag reconciliation fails, Put
    returns an error that names the entry and the tags, does not set the id,
    leaves the record as it was and does not run the trailing Read: no fetch
    is issued. *)
Theorem Put_tag_failure_skips_read (clock : resource.Clock) (meta : AWSClient)
    (s : Session) (blob Plaintext : string) (err : error) :
  let d := rd s in
  let write := putWrite meta (putInput d Plaintext)
                 (logged s [DecryptCall (encryption_key d) blob]) in
  let tagging := SsmUpdateTags (ssmconn meta) (name d)
                   ssm.ResourceTypeForTaggingParameter
                   (MapInterface (prior_tags d)) (MapInterface (tags d))
                   (log write.2) in
  let result := resourceAwsSsmParameterPut clock meta s in
  base64.DecodeString (encrypted_value d) = inr blob →
  DecryptOutput (kmsconn meta) (log s) (encryption_key d) blob = inr Plaintext →
  write.1 = None →
  prior_tags d ≠ tags d →
  tagging.1 = Some err →
  result
  = (Some (ErrorString ("error updating SSM Parameter (" +:+ name d +:+
                        ") tags: " +:+ Error err)),
     {| rd := d; log := tagging.2 |})
  ∧ List.filter isGetParameterCall (issuedSince (log s) (log result.2)) = [].
Proof.
  intros d write tagging result Hd Hk Hw Hc Ht.
  assert (HasChange_tags d = true) as Hch.
  { unfold HasChange_tags. by rewrite bool_decide_eq_false_2. }
  assert (result
          = (Some (ErrorString ("error updating SSM Parameter (" +:+ name d +:+
                                ") tags: " +:+ Error err)),
             {| rd := d; log := tagging.2 |})) as Hres.
  { assert (rd write.2 = d) as Hrd.
    { unfold write. rewrite putWrite_run. cbv zeta.
      by destruct (isAWSErr _ _ _). }
    unfold result. rewrite (Put_decrypted clock meta s blob Plaintext Hd Hk).
    cbv zeta. fold d.
    change (putWrite meta (putInput d Plaintext)
              (logged s [DecryptCall (encryption_key d) blob])) with write.
    rewrite Hw, putFinish_unfold, Hch. cbv zeta.
    change (SsmUpdateTags (ssmconn meta) (name d)
              ssm.ResourceTypeForTaggingParameter
              (MapInterface (prior_tags d)) (MapInterface (tags d))
              (log write.2)) with tagging.
    by rewrite Ht, Hrd. }
  split; [exact Hres|]. rewrite Hres. cbn [snd log].
  destruct (SsmUpdateTags_tag_calls (ssmconn meta) (name d)
              ssm.ResourceTypeForTaggingParameter
              (MapInterface (prior_tags d)) (MapInterface (tags d))
              (log write.2)) as (tagCalls & Hl & Htag).
  fold tagging in Hl. rewrite Hl.
  unfold write. rewrite putWrite_run. cbv zeta.
  assert (∀ writes,
            Forall (λ c, isPutParameterCall c = true) writes →
            List.filter isGetParameterCall
              (issuedSince (log s)
                 (log (logged (logged s [DecryptCall (encryption_key d) blob])
                              writes) ++ tagCalls)) = []) as Hno.
  { intros writes Hws. cbn [logged log]. rewrite <- !app_assoc, issuedSince_app.
    cbn [app List.filter isGetParameterCall].
    rewrite List.filter_app.
    assert (List.filter isGetParameterCall writes = []) as ->.
    { clear -Hws. induction Hws as [|c l Hc _ IH]; [done|]. simpl.
      by destruct c. }
    clear -Htag. induction Htag as [|c l Hc _ IH]; [done|]. simpl.
    by destruct c. }
  destruct (isAWSErr _ _ _); cbn [snd]; apply Hno; by repeat constructor.
Qed.

Lemma Put_tag_failure_skips_read_witness :
  let result := resourceAwsSsmParameterPut timeoutClock opaqueClient
                  {| rd := retaggedRecord; log := [] |} in
  result.1
  = Some (ErrorString
            "error updating SSM Parameter (/a/b) tags: error tagging resource (/a/b): AccessDeniedException: denied")
  ∧ rd result.2 = retaggedRecord.
Proof.
  destruct (Put_tag_failure_skips_read timeoutClock opaqueClient
              {| rd := retaggedRecord; log := [] |} "ABC" "s3cret"
              (WrapError
                 "error tagging resource (/a/b): AccessDeniedException: denied"
                 (AwsError "AccessDeniedException" "denied")))
    as [Hr _]; try reflexivity.
  - vm_compute. intros Heq. discriminate Heq.
  - cbv zeta. rewrite Hr. split; reflexivity.
Defined.

Lemma no_tag_calls_among (P : Call → bool) (calls : list Call) :
  (∀ c, P c = true → isTagCall c = false) →
  Forall (λ c, P c = true) calls →
  List.filter isTagCall calls = [].
Proof.
  intros HP. induction 1 as [|c l Hc _ IH]; [done|]. simpl.
  by rewrite (HP c Hc).
Qed.

(** X21.  Put touches the tags of the entry only when the declared tags
    differ from the previous ones: with unchanged tags no tag call is issued,
    and with changed tags, once the write went through, at least one is. *)
Theorem Put_tag_calls_iff_tags_changed (clock : resource.Clock)
    (meta : AWSClient) (s : Session) :
  let d := rd s in
  let issued :=
    issuedSince (log s) (log (resourceAwsSsmParameterPut clock meta s).2) in
  (prior_tags d = tags d → List.filter isTagCall issued = [])
  ∧ (∀ blob Plaintext,
       base64.DecodeString (encrypted_value d) = inr blob →
       DecryptOutput (kmsconn meta) (log s) (encryption_key d) blob
       = inr Plaintext →
       (putWrite meta (putInput d Plaintext)
          (logged s [DecryptCall (encryption_key d) blob])).1 = None →
       prior_tags d ≠ tags d →
       List.filter isTagCall issued ≠ []).
Proof.
  intros d issued. split.
  - intros Hsame.
    assert (HasChange_tags d = false) as Hch.
    { unfold HasChange_tags. by rewrite bool_decide_eq_true_2. }
    destruct (base64.DecodeString (encrypted_value d)) as [e|blob] eqn:Hd.
    { unfold issued. rewrite (Put_undecodable clock meta s e Hd).
      by rewrite issuedSince_self. }
    destruct (Put_run clock meta s blob Hd)
      as (writes & tagCalls & readCalls & Hi & Hw & _ & Hro & Hnone & _).
    fold d issued in Hi. rewrite Hi, (Hnone Hch).
    change (List.filter isTagCall (writes ++ [] ++ readCalls) = []).
    rewrite !List.filter_app.
    rewrite (no_tag_calls_among isPutParameterCall writes); [|by intros []|done].
    rewrite (no_tag_calls_among isReadOnlyCall readCalls); [done|by intros []|done].
  - intros blob Plaintext Hd Hk Hw Hc.
    assert (HasChange_tags d = true) as Hch.
    { unfold HasChange_tags. by rewrite bool_decide_eq_false_2. }
    set (write := putWrite meta (putInput d Plaintext)
                    (logged s [DecryptCall (encryption_key d) blob])) in *.
    assert (∃ pre, log write.2 = log s ++ pre
                   ∧ List.filter isTagCall pre = []) as (pre & Hpre & Hpt).
    { unfold write. rewrite putWrite_run. cbv zeta.
      destruct (isAWSErr _ _ _); cbn [snd logged log]; rewrite <- app_assoc;
        eexists; (split; [done|]); done. }
    destruct (SsmUpdateTags_tag_calls (ssmconn meta) (name d)
                ssm.ResourceTypeForTaggingParameter
                (MapInterface (prior_tags d)) (MapInterface (tags d))
                (log write.2)) as (tagCalls & Hl & Htag).
    assert (tagCalls ≠ []) as Hne.
    { intros ->. apply Hc, New_MapInterface_inj.
      apply (SsmUpdateTags_no_call_equal (ssmconn meta) (name d)
               ssm.ResourceTypeForTaggingParameter _ _ (log write.2)).
      by rewrite Hl, app_nil_r, issuedSince_self. }
    assert (∃ post, issued = pre ++ tagCalls ++ post) as (post & ->).
    { unfold issued. rewrite (Put_decrypted clock meta s blob Plaintext Hd Hk).
      cbv zeta. fold d.
      change (putWrite meta (putInput d Plaintext)
                (logged s [DecryptCall (encryption_key d) blob])) with write.
      rewrite Hw, putFinish_unfold, Hch. cbv zeta.
      destruct (SsmUpdateTags _ _ _ _ _ _) as [[e|] l] eqn:Hrun;
        cbn [fst snd] in *; subst l.
      - exists []. cbn [snd log]. rewrite Hpre, <- app_assoc, issuedSince_app.
        by rewrite app_nil_r.
      - match goal with
        | |- context [resourceAwsSsmParameterRead clock meta ?s1] =>
            destruct (Read_frame clock meta s1) as (_ & post & Hr & _)
        end.
        cbv zeta in Hr. exists post. rewrite Hr. cbn [log].
        by rewrite Hpre, <- !app_assoc, issuedSince_app. }
    rewrite !List.filter_app, Hpt. cbn [app].
    destruct tagCalls as [|c tagCalls]; [done|].
    apply Forall_cons in Htag as [Hc1 _]. simpl. by rewrite Hc1.
Qed.

Lemma Put_tag_calls_iff_tags_changed_witness :
  List.filter isTagCall
    (issuedSince []
       (log (resourceAwsSsmParameterPut timeoutClock steadyClient
               {| rd := managedRecord; log := [] |}).2)) = []
  ∧ List.filter isTagCall
      (issuedSince []
         (log (resourceAwsSsmParameterPut timeoutClock steadyClient
                 {| rd := retaggedRecord; log := [] |}).2)) ≠ [].
Proof.
  split.
  - exact (proj1 (Put_tag_calls_iff_tags_changed timeoutClock steadyClient
                    {| rd := managedRecord; log := [] |}) eq_refl).
  - refine (proj2 (Put_tag_calls_iff_tags_changed timeoutClock steadyClient
                     {| rd := retaggedRecord; log := [] |})
              "ABC" "s3cret" eq_refl eq_refl eq_refl _).
    vm_compute. intros Heq. discriminate Heq.
Defined.

(** X22.  Put sets the id to the declared name only after the write and the
    tags went through, and reads the entry back under that name.  So the id
    Put leaves is the one it found, the declared name, or empty; when Put
    returns nil it is the declared name or empty; and every fetch of a run
    of Put asks for the declared name, with decryption.  The declared key
    and the overwrite preference are never changed. *)
Theorem Put_sets_id_and_reads_back_by_name (clock : resource.Clock)
    (meta : AWSClient) (s : Session) :
  let d := rd s in
  let result := resourceAwsSsmParameterPut clock meta s in
  (Id (rd result.2) = Id d ∨ Id (rd result.2) = name d ∨ Id (rd result.2) = "")
  ∧ (result.1 = None → Id (rd result.2) = name d ∨ Id (rd result.2) = "")
  ∧ Forall (λ c, isGetParameterCall c = true →
                 c = GetParameterCall
                       {| ssm.GetParameterInput.Name := name d;
                          ssm.GetParameterInput.WithDecryption := true |})
           (issuedSince (log s) (log result.2))
  ∧ encryption_key (rd result.2) = encryption_key d
  ∧ overwrite (rd result.2) = overwrite d.
Proof.
  intros d result.
  destruct (base64.DecodeString (encrypted_value d)) as [e|blob] eqn:Hd.
  { unfold result. rewrite (Put_undecodable clock meta s e Hd). cbn [fst snd].
    rewrite issuedSince_self. repeat split; auto. done. }
  destruct (Put_run clock meta s blob Hd)
    as (writes & tagCalls & readCalls & Hi & Hw & Ht & _ & _ & _ & Hend).
  fold d result in Hi, Hend. rewrite Hi.
  assert (Forall (λ c, isGetParameterCall c = true →
                       c = GetParameterCall
                             {| ssm.GetParameterInput.Name := name d;
                                ssm.GetParameterInput.WithDecryption := true |})
                 (writes ++ tagCalls)) as Hpre.
  { apply Forall_app. split; (eapply Forall_impl; [eassumption|]);
      by intros []. }
  destruct Hend as [(-> & Hrd & [e He])|(s1 & Hrd & Hres & ->)].
  - rewrite Hrd, He, app_nil_r. repeat split; auto; [done|].
    constructor; [done|]. exact Hpre.
  - destruct (Read_run clock meta s1)
      as ((_ & Hkey & Hov & _) & Hid & n & blob' & name' & calls & Hri & _ & Hp).
    rewrite <- Hres in Hkey, Hov, Hid, Hri. rewrite Hrd in Hkey, Hov, Hid, Hri.
    cbn [Id SetId encryption_key overwrite] in Hkey, Hov, Hid.
    repeat split; auto.
    + destruct Hid as [->|[-> _]]; auto.
    + intros _. destruct Hid as [->|[-> _]]; auto.
    + constructor; [done|]. rewrite app_assoc. apply Forall_app.
      split; [exact Hpre|]. rewrite Hri. apply Forall_app. split.
      * apply Forall_replicate. intros _. done.
      * destruct Hp as [k Hk]. unfold lookupSequence in Hk.
        assert (Forall (λ c, isGetParameterCall c = false) (calls ++ k)) as Hall
          by (rewrite <- Hk; repeat constructor).
        apply Forall_app in Hall as [Hall _].
        eapply Forall_impl; [exact Hall|]. intros c Hc Hg. congruence.
Qed.

(** X23.  The order of the remote calls of Put, once the ciphertext decodes:
    first the decryption, then the writes of the entry, then the tag calls,
    then the read-only calls of the trailing Read.  Nothing follows a failed
    decryption, and no tag call or fetch is issued without a write. *)
Theorem Put_call_order (clock : resource.Clock) (meta : AWSClient)
    (s : Session) (blob : string) :
  let d := rd s in
  let issued :=
    issuedSince (log s) (log (resourceAwsSsmParameterPut clock meta s).2) in
  base64.DecodeString (encrypted_value d) = inr blob →
  ∃ writes tagCalls readCalls,
    issued
    = DecryptCall (encryption_key d) blob :: writes ++ tagCalls ++ readCalls
    ∧ Forall (λ c, isPutParameterCall c = true) writes
    ∧ Forall (λ c, isTagCall c = true) tagCalls
    ∧ Forall (λ c, isReadOnlyCall c = true) readCalls
    ∧ (writes = [] → tagCalls = [] ∧ readCalls = [])
    ∧ (∀ err, DecryptOutput (kmsconn meta) (log s) (encryption_key d) blob
              = inl err → writes = []).
Proof.
  intros d issued Hd.
  destruct (Put_run clock meta s blob Hd)
    as (writes & tagCalls & readCalls & Hi & Hw & Ht & Hr & _ & Hnone & _).
  exists writes, tagCalls, readCalls. repeat split; try done.
  - by apply Hnone.
  - by apply Hnone.
  - intros err Hk. fold d issued in Hi. unfold issued in Hi.
    rewrite (Put_undecryptable clock meta s blob err Hd Hk) in Hi.
    cbn [snd logged log] in Hi. rewrite issuedSince_app in Hi.
    injection Hi as Hi. symmetry in Hi.
    by apply app_eq_nil in Hi as [-> _].
Qed.

Lemma Put_call_order_witness :
  ∃ writes tagCalls readCalls,
    issuedSince []
      (log (resourceAwsSsmParameterPut timeoutClock steadyClient
              {| rd := retaggedRecord; log := [] |}).2)
    = DecryptCall "alias/k" "ABC" :: writes ++ tagCalls ++ readCalls
    ∧ Forall (λ c, isPutParameterCall c = true) writes
    ∧ Forall (λ c, isTagCall c = true) tagCalls
    ∧ Forall (λ c, isReadOnlyCall c = true) readCalls
    ∧ (writes = [] → tagCalls = [] ∧ readCalls = [])
    ∧ (∀ err, DecryptOutput (kmsconn steadyClient) [] "alias/k" "ABC"
              = inl err → writes = []).
Proof.
  exact (Put_call_order timeoutClock steadyClient
           {| rd := retaggedRecord; log := [] |} "ABC" eq_refl).
Defined.

(* ------------------------------------------------------------------ *)
(** * The provider's configuration *)

Lemma appendStrings_omap (acc : list string) (items : list Raw) :
  appendStrings acc items = acc ++ omap (λ raw, asString (Some raw)) items.
Proof.
  unfold appendStrings. revert acc.
  induction items as [|raw items IH]; intros acc; simpl.
  - by rewrite app_nil_r.
  - rewrite IH. destruct raw; simpl; try done. by rewrite <- app_assoc.
Qed.

Lemma stringEntries_lookup (entries : gmap string Raw) (k : string) :
  stringEntries entries !! k = entries !! k ≫= λ raw, asString (Some raw).
Proof.
  unfold stringEntries.
  apply (map_fold_weak_ind
           (λ (r : gmap string string) (m : gmap string Raw),
              r !! k = m !! k ≫= λ raw, asString (Some raw))).
  - by rewrite !lookup_empty.
  - intros i x m r Hi IH.
    destruct (decide (i = k)) as [->|Hne].
    + rewrite lookup_insert_eq. simpl. rewrite Hi in IH. simpl in IH.
      destruct x; simpl; try done. by rewrite lookup_insert_eq.
    + rewrite (lookup_insert_ne m) by done.
      destruct (asString (Some x)); [by rewrite lookup_insert_ne | done].
Qed.

Lemma stringEntries_omap (entries : gmap string Raw) :
  stringEntries entries = omap (λ raw, asString (Some raw)) entries.
Proof.
  apply map_eq. intros k. by rewrite stringEntries_lookup, lookup_omap.
Qed.

(** What [providerConfigure] never sets. *)
Lemma providerConfig_fixed (d : ProviderData) (terraformVersion : string) :
  let c := providerConfig d terraformVersion in
  Config.SkipRegionValidation c = false
  ∧ Config.Endpoints c = ∅
  ∧ Config.Region c = region d
  ∧ Config.AllowedAccountIds c = allowed_account_ids d
  ∧ Config.ForbiddenAccountIds c = forbidden_account_ids d.
Proof.
  unfold providerConfig. by destruct (assume_role d) as [|[m|] rest].
Qed.

(** X24.  [Client] checks in this order: the region, unless validation is
    skipped; the session; the account.  The first failure is returned (the
    session's error wrapped, the others as they are) and nothing after it is
    consulted; a client is returned exactly when all three pass, built from
    the session with the configured endpoints (the default endpoint when
    none is configured), and it never carries an ignore configuration for
    tags. *)
Theorem Client_checks_then_builds {Sess} (platform : Platform Sess)
    (c : Config.t) :
  let regionCheck :=
    if Config.SkipRegionValidation c then None
    else ValidateRegion platform (Config.Region c) in
  let session :=
    GetSessionWithAccountIDAndPartition platform (awsbaseConfig platform c) in
  (∀ err, regionCheck = Some err → Client platform c = inl err)
  ∧ (∀ err, regionCheck = None → session = inl err →
            Client platform c
            = inl (WrapError ("error configuring Terraform AWS Provider: "
                              +:+ Error err) err))
  ∧ (∀ sess accountID err,
       regionCheck = None → session = inr (sess, accountID) →
       ValidateAccountID platform accountID (Config.AllowedAccountIds c)
         (Config.ForbiddenAccountIds c) = Some err →
       Client platform c = inl err)
  ∧ (∀ client,
       Client platform c = inr client
       ↔ regionCheck = None
         ∧ ∃ sess accountID,
             session = inr (sess, accountID)
             ∧ ValidateAccountID platform accountID
                 (Config.AllowedAccountIds c) (Config.ForbiddenAccountIds c)
               = None
             ∧ client
               = {| ssmconn := ssmNew platform sess
                                 (default "" (Config.Endpoints c !! "ssm"));
                    kmsconn := kmsNew platform sess
                                 (default "" (Config.Endpoints c !! "kms"));
                    IgnoreTagsConfig := None |}).
Proof.
  intros regionCheck session. unfold Client. fold session.
  assert ((if negb (Config.SkipRegionValidation c)
           then ValidateRegion platform (Config.Region c) else None)
          = regionCheck) as ->
    by (unfold regionCheck; by destruct (Config.SkipRegionValidation c)).
  split; [|split; [|split]].
  - by intros err ->.
  - by intros err -> ->.
  - by intros sess accountID err -> -> ->.
  - intros client. destruct regionCheck as [e|]; [by split; [|intros [? _]]|].
    destruct session as [e|[sess accountID]].
    + split; [done|]. by intros (_ & ? & ? & ? & _).
    + destruct (ValidateAccountID platform accountID _ _) as [e|] eqn:Hv.
      * split; [done|]. intros (_ & sess' & acc' & [= <- <-] & Hv' & _).
        congruence.
      * split.
        -- intros [= <-]. split; [done|]. by exists sess, accountID.
        -- intros (_ & sess' & acc' & [= <- <-] & _ & ->). done.
Qed.

Lemma Client_checks_then_builds_witness :
  Client examplePlatform (providerConfig misplacedProvider "1.0")
  = inl (ErrorString "Invalid AWS Region: mars-north-1").
Proof.
  exact (proj1 (Client_checks_then_builds examplePlatform
                  (providerConfig misplacedProvider "1.0"))
               (ErrorString "Invalid AWS Region: mars-north-1") eq_refl).
Defined.

(** X25.  [providerConfigure] never skips the region check and never sets an
    endpoint or an ignore configuration: a region the check rejects makes it
    return that error, whatever the rest of the configuration; and a client
    it returns talks to the default endpoints of both services and hides no
    tag beyond those Read removes itself. *)
Theorem providerConfigure_validates_region_and_uses_defaults {Sess}
    (platform : Platform Sess) (d : ProviderData) (terraformVersion : string) :
  (∀ err, ValidateRegion platform (region d) = Some err →
          providerConfigure platform d terraformVersion = inl err)
  ∧ (∀ client,
       providerConfigure platform d terraformVersion = inr client →
       ValidateRegion platform (region d) = None
       ∧ (∃ sess accountID,
            GetSessionWithAccountIDAndPartition platform
              (awsbaseConfig platform (providerConfig d terraformVersion))
            = inr (sess, accountID)
            ∧ ValidateAccountID platform accountID (allowed_account_ids d)
                (forbidden_account_ids d) = None
            ∧ ssmconn client = ssmNew platform sess ""
            ∧ kmsconn client = kmsNew platform sess "")
       ∧ ∀ tags, IgnoreConfig_ tags (IgnoreTagsConfig client) = tags).
Proof.
  unfold providerConfigure, Client.
  destruct (providerConfig_fixed d terraformVersion)
    as (Hskip & Hend & Hreg & Hal & Hfo).
  cbv zeta in Hskip, Hend, Hreg, Hal, Hfo.
  rewrite Hskip, Hend, Hreg, Hal, Hfo. simpl. split.
  - by intros err ->.
  - intros client.
    destruct (ValidateRegion platform (region d)) as [e|]; [done|].
    destruct (GetSessionWithAccountIDAndPartition _ _) as [e|[sess accountID]];
      [done|].
    destruct (ValidateAccountID platform accountID _ _) as [e|] eqn:Hv; [done|].
    intros [= <-]. split; [done|]. split; [|done].
    by exists sess, accountID.
Qed.

Lemma providerConfigure_validates_region_and_uses_defaults_witness :
  providerConfigure examplePlatform misplacedProvider "1.0"
  = inl (ErrorString "Invalid AWS Region: mars-north-1")
  ∧ ∃ client, providerConfigure examplePlatform exampleProvider "1.0"
              = inr client
              ∧ ∀ tags, IgnoreConfig_ tags (IgnoreTagsConfig client) = tags.
Proof.
  split.
  - exact (proj1 (providerConfigure_validates_region_and_uses_defaults
                    examplePlatform misplacedProvider "1.0")
                 (ErrorString "Invalid AWS Region: mars-north-1") eq_refl).
  - eexists. split; [vm_compute; reflexivity|].
    refine (proj2 (proj2 (proj2
              (providerConfigure_validates_region_and_uses_defaults
                 examplePlatform exampleProvider "1.0") _ _))).
    vm_compute. reflexivity.
Defined.

(** X26.  What [providerConfigure] takes from the [assume_role] block.
    Without a block (no element, or a nil first one) every assume-role
    field stays at its zero value.  With one, each scalar field is the
    block's value when the key holds a value of the right type, and the
    zero value otherwise, so that an absent key and a zero value come to the
    same; the policy ARNs and the transitive tag keys are the string
    elements of their sets in order, and the tags the string-valued
    entries of the map.  Only the first block is read. *)
Theorem providerConfig_assume_role (d : ProviderData)
    (terraformVersion : string) :
  let c := providerConfig d terraformVersion in
  let strings := omap (λ raw, asString (Some raw)) in
  (assume_role d = [] ∨ (∃ rest, assume_role d = None :: rest) →
   Config.AssumeRoleARN c = "" ∧ Config.AssumeRoleSessionName c = ""
   ∧ Config.AssumeRoleExternalID c = "" ∧ Config.AssumeRolePolicy c = ""
   ∧ Config.AssumeRoleDurationSeconds c = 0%Z
   ∧ Config.AssumeRolePolicyARNs c = []
   ∧ Config.AssumeRoleTransitiveTagKeys c = []
   ∧ Config.AssumeRoleTags c = ∅)
  ∧ (∀ m rest,
       assume_role d = Some m :: rest →
       Config.AssumeRoleARN c = default "" (asString (m !! "role_arn"))
       ∧ Config.AssumeRoleSessionName c
         = default "" (asString (m !! "session_name"))
       ∧ Config.AssumeRoleExternalID c
         = default "" (asString (m !! "external_id"))
       ∧ Config.AssumeRolePolicy c = default "" (asString (m !! "policy"))
       ∧ Config.AssumeRoleDurationSeconds c
         = default 0%Z (asInt (m !! "duration_seconds"))
       ∧ Config.AssumeRolePolicyARNs c
         = strings (default [] (asSet (m !! "policy_arns")))
       ∧ Config.AssumeRoleTransitiveTagKeys c
         = strings (default [] (asSet (m !! "transitive_tag_keys")))
       ∧ Config.AssumeRoleTags c
         = omap (λ raw, asString (Some raw)) (default ∅ (asMap (m !! "tags")))).
Proof.
  intros c strings. unfold c, providerConfig. split.
  - intros [-> | [rest ->]]; by cbn.
  - intros m rest ->. cbn.
    repeat split.
    + destruct (asString (m !! "role_arn")) as [v|]; [|done].
      by case_bool_decide.
    + destruct (asString (m !! "session_name")) as [v|]; [|done].
      by case_bool_decide.
    + destruct (asString (m !! "external_id")) as [v|]; [|done].
      by case_bool_decide.
    + destruct (asString (m !! "policy")) as [v|]; [|done].
      by case_bool_decide.
    + destruct (asInt (m !! "duration_seconds")) as [v|]; [|done].
      by case_bool_decide.
    + destruct (asSet (m !! "policy_arns")) as [[|x items]|]; try done.
      by rewrite appendStrings_omap.
    + destruct (asSet (m !! "transitive_tag_keys")) as [[|x items]|]; try done.
      by rewrite appendStrings_omap.
    + destruct (asMap (m !! "tags")) as [entries|]; simpl;
        [|by rewrite omap_empty].
      destruct (size entries) eqn:Hs.
      * apply map_size_empty_iff in Hs as ->. by rewrite omap_empty.
      * exact (stringEntries_omap entries).
Qed.

Lemma providerConfig_assume_role_witness :
  let c := providerConfig exampleProvider "1.0" in
  Config.AssumeRoleARN c = "arn:aws:iam::111122223333:role/deploy"
  ∧ Config.AssumeRoleSessionName c = ""
  ∧ Config.AssumeRolePolicyARNs c
    = ["arn:aws:iam::aws:policy/ReadOnlyAccess";
       "arn:aws:iam::aws:policy/AmazonSSMFullAccess"]
  ∧ Config.AssumeRoleTags c !! "team" = Some "blue"
  ∧ Config.AssumeRoleTags c !! "cost" = None.
Proof.
  destruct (proj2 (providerConfig_assume_role exampleProvider "1.0")
              exampleRole [] eq_refl)
    as (Harn & Hname & _ & _ & _ & Hpol & _ & Htags).
  cbv zeta. rewrite Harn, Hname, Hpol, Htags.
  repeat split; vm_compute; reflexivity.
Defined.

(* ------------------------------------------------------------------ *)
(** * Reading back *)

Lemma Read_found (clock : resource.Clock) (meta : AWSClient) (s : Session)
    (param : ssm.Parameter_.t) :
  GetParameterOutput (ssmconn meta) (log s) (readInput (rd s)) = inr param →
  readFetch clock meta (rd s) (readInput (rd s)) s
  = ((Some param, None), logged s [GetParameterCall (readInput (rd s))]).
Proof.
  intros Ha. rewrite readFetch_after_loop. unfold withLocal, resource.Retry.
  by rewrite (retryLoop_found meta (rd s) (readInput (rd s)) _ _ None s param Ha).
Qed.

Lemma Read_matching (clock : resource.Clock) (meta : AWSClient) (s : Session)
    (param : ssm.Parameter_.t) (blob : string) :
  GetParameterOutput (ssmconn meta) (log s) (readInput (rd s)) = inr param →
  base64.DecodeString (encrypted_value (rd s)) = inr blob →
  DecryptOutput (kmsconn meta)
    (log s ++ [GetParameterCall (readInput (rd s))])
    (encryption_key (rd s)) blob = inr (ssm.Parameter_.Value param) →
  encrypted_value (rd (resourceAwsSsmParameterRead clock meta s).2)
  = encrypted_value (rd s).
Proof.
  intros Ha Hd Hk.
  pose proof (Read_found clock meta s param Ha) as Hf.
  rewrite (Read_fetched clock meta s param); [|by rewrite Hf].
  rewrite Hf. cbn [snd logged log]. rewrite issuedSince_app.
  erewrite readCompare_decrypted; [|exact Hd|exact Hk].
  match goal with
  | |- context [readDescribe meta param ?n ?s'] =>
      destruct (readDescribe_frame meta param n s') as (He & _)
  end.
  cbv zeta in He. rewrite He. cbn.
  by rewrite bool_decide_eq_true_2.
Qed.

(** X27.  The marker Read shows for a changed value is not valid base64.  A
    Read that starts from a record showing it, as a later refresh does,
    therefore fails at decoding as soon as the entry is fetched, and leaves
    the record as it is. *)
Theorem Read_cannot_reread_the_marker (clock : resource.Clock)
    (meta : AWSClient) (s : Session) (param : ssm.Parameter_.t) :
  let d := rd s in
  let fetch := readFetch clock meta d (readInput d) s in
  let result := resourceAwsSsmParameterRead clock meta s in
  encrypted_value d = OutdatedSensitiveValue →
  fetch.1 = (Some param, None) →
  result.1 = Some (ErrorString "illegal base64 data")
  ∧ rd result.2 = d.
Proof.
  intros d fetch result Hm Hf.
  unfold result. rewrite (Read_fetched clock meta s param Hf).
  unfold readCompare. fold d. rewrite Hm.
  assert (base64.DecodeString OutdatedSensitiveValue
          = inl (ErrorString "illegal base64 data")) as ->
    by (vm_compute; reflexivity).
  done.
Qed.

Lemma Read_cannot_reread_the_marker_witness :
  (resourceAwsSsmParameterRead timeoutClock steadyClient
     {| rd := markedRecord; log := [] |}).1
  = Some (ErrorString "illegal base64 data").
Proof.
  exact (proj1 (Read_cannot_reread_the_marker timeoutClock steadyClient
                  {| rd := markedRecord; log := [] |} storedParameter
                  eq_refl eq_refl)).
Defined.

(** X28.  Put followed by its own Read gives back the declared ciphertext:
    when the key decrypts the declared blob to a plaintext and the store
    returns that plaintext for the declared name, the record Put leaves
    shows the declared [encrypted_value], whether Put succeeded or not. *)
Theorem Put_shows_declared_ciphertext (clock : resource.Clock)
    (meta : AWSClient) (s : Session) (blob Plaintext : string) :
  let d := rd s in
  base64.DecodeString (encrypted_value d) = inr blob →
  (∀ log, DecryptOutput (kmsconn meta) log (encryption_key d) blob
          = inr Plaintext) →
  (∀ log, ∃ param,
      GetParameterOutput (ssmconn meta) log
        {| ssm.GetParameterInput.Name := name d;
           ssm.GetParameterInput.WithDecryption := true |} = inr param
      ∧ ssm.Parameter_.Value param = Plaintext) →
  encrypted_value (rd (resourceAwsSsmParameterPut clock meta s).2)
  = encrypted_value d.
Proof.
  intros d Hd Hk Hg.
  destruct (Put_run clock meta s blob Hd)
    as (writes & tagCalls & readCalls & _ & _ & _ & _ & _ & _ & Hend).
  fold d in Hend.
  destruct Hend as [(_ & -> & _)|(s1 & Hrd & -> & _)]; [done|].
  destruct (Hg (log s1)) as (param & Ha & Hv).
  rewrite (Read_matching clock meta s1 param blob).
  - by rewrite Hrd.
  - by rewrite Hrd.
  - by rewrite Hrd.
  - rewrite Hrd. cbn [encryption_key SetId]. fold d. rewrite Hv. apply Hk.
Qed.

Lemma Put_shows_declared_ciphertext_witness :
  encrypted_value
    (rd (resourceAwsSsmParameterPut timeoutClock steadyClient
           {| rd := retaggedRecord; log := [] |}).2)
  = "QUJD".
Proof.
  refine (Put_shows_declared_ciphertext timeoutClock steadyClient
            {| rd := retaggedRecord; log := [] |} "ABC" "s3cret" eq_refl _ _).
  - intros l. reflexivity.
  - intros l. exists storedParameter. split; reflexivity.
Defined.

Lemma Put_sets_id_and_reads_back_by_name_witness :
  (resourceAwsSsmParameterPut timeoutClock steadyClient
     {| rd := newRecord; log := [] |}).1 = None
  ∧ (Id (rd (resourceAwsSsmParameterPut timeoutClock steadyClient
               {| rd := newRecord; log := [] |}).2) = "/a/b"
     ∨ Id (rd (resourceAwsSsmParameterPut timeoutClock steadyClient
                 {| rd := newRecord; log := [] |}).2) = "").
Proof.
  assert ((resourceAwsSsmParameterPut timeoutClock steadyClient
             {| rd := newRecord; log := [] |}).1 = None) as Hok
    by (vm_compute; reflexivity).
  split; [exact Hok|].
  exact (proj1 (proj2 (Put_sets_id_and_reads_back_by_name timeoutClock
                         steadyClient {| rd := newRecord; log := [] |})) Hok).
Defined.
